(** * Todo API backend: model store, validation middleware and router

    A shallow embedding of the backend of the todo application:
    - [backend/models/Todo.js]       (module [Todo], [Helpers]),
    - [backend/middleware/validation.js] (module [Validation]),
    - [backend/routes/todos.js]      (section [TodosRouter]),
    - the [todos] table of [backend/config/database.js] (module [Sql]).

    JavaScript values are dynamically typed, so request data and the
    properties of a [Todo] instance are modelled by a small universe of
    JSON primitives.  The [todos] table is typed by its schema.  Every
    model method runs in a state-and-error monad over the world the
    process sees: the table, the statements issued so far, the database
    clock and the stream of identifiers [uuidv4] will return.

    A handler is followed from its first statement to its response: the
    interleaving of two requests at an [await] is not part of the model.
    The database handle is taken to be open, and a statement fails only
    for a reason the schema gives (a key, a NOT NULL column). *)

From Stdlib Require Import ZArith List String Ascii Bool Lia.
From Stdlib Require Import Sorted Permutation.
Import ListNotations.

Local Open Scope string_scope.
Local Open Scope Z_scope.

(* ================================================================== *)
(** ** JavaScript values and the primitives the sources rely on *)

Module JS.

(** JSON primitives plus [undefined].  A text is held as its UTF-8
    bytes.  Numbers are the integers: the sources only build numbers with
    [parseInt], sums and quotients.  The code computes on doubles, which
    are these integers up to [max_safe_integer] below; past it the code
    rounds and the model does not, so the statements on numbers read from
    a request keep them within that bound. *)
Inductive value : Type :=
| VUndefined
| VNull
| VBool (b : bool)
| VNum (n : Z)
| VNaN
| VStr (s : string).

(** The result of a numeric operation: [None] is [NaN]. *)
Definition number := option Z.

(** [Number.MAX_SAFE_INTEGER], 2^53 - 1: up to it every integer is a
    double, and a sum or a floored quotient that stays within it is
    computed exactly. *)
Definition max_safe_integer : Z := 2 ^ 53 - 1.

(** [Number.isSafeInteger(n)]. *)
Definition isSafeInteger (n : Z) : bool :=
  (- max_safe_integer <=? n) && (n <=? max_safe_integer).

(** The values the model reads as the code does: a number has to be a
    safe integer, any other value is followed. *)
Definition safe_number (v : value) : bool :=
  match v with
  | VNum n => isSafeInteger n
  | _ => true
  end.

(** ToBoolean, as used by [if (x)], [!x], [x || y] and [Boolean(x)]. *)
Definition truthy (v : value) : bool :=
  match v with
  | VUndefined | VNull | VNaN => false
  | VBool b => b
  | VNum n => negb (n =? 0)
  | VStr s => negb (s =? "")%string
  end.

(** [a === b]; [NaN] is not equal to itself. *)
Definition strict_eq (a b : value) : bool :=
  match a, b with
  | VUndefined, VUndefined => true
  | VNull, VNull => true
  | VBool x, VBool y => Bool.eqb x y
  | VNum x, VNum y => x =? y
  | VStr x, VStr y => (x =? y)%string
  | _, _ => false
  end.

(** [a || b] on values. *)
Definition or (a b : value) : value := if truthy a then a else b.

(** [xs.includes(v)] for an array of string literals. *)
Definition includes (xs : list string) (v : value) : bool :=
  existsb (fun x => strict_eq (VStr x) v) xs.

(** A plain object: its own enumerable properties in insertion order,
    the keys pairwise distinct.  Reading a missing property gives
    [undefined]. *)
Definition object := list (string * value).

Fixpoint get (k : string) (o : object) : value :=
  match o with
  | [] => VUndefined
  | (k', v) :: rest => if (k' =? k)%string then v else get k rest
  end.

(** [o[k] = v]. *)
Fixpoint set (k : string) (v : value) (o : object) : object :=
  match o with
  | [] => [(k, v)]
  | (k', v') :: rest =>
      if (k' =? k)%string then (k, v) :: rest else (k', v') :: set k v rest
  end.

(** A destructuring default, [{ k = d } = o]: used when the property
    is [undefined]. *)
Definition default (v d : value) : value :=
  match v with VUndefined => d | _ => v end.

(** *** [parseInt] with no radix argument *)

(** The white space of one byte: tab, line feed, vertical tab, form
    feed, carriage return and space. *)
Definition is_white_space (c : ascii) : bool :=
  let n := nat_of_ascii c in
  ((n =? 9) || (n =? 10) || (n =? 11) || (n =? 12) || (n =? 13) || (n =? 32))%nat.

Fixpoint strip_leading_white_space (s : string) : string :=
  match s with
  | String c rest => if is_white_space c then strip_leading_white_space rest else s
  | EmptyString => EmptyString
  end.

(** The white space of two bytes: U+00A0, the no-break space. *)
Definition is_white_space_2 (c1 c2 : ascii) : bool :=
  ((nat_of_ascii c1 =? 194) && (nat_of_ascii c2 =? 160))%nat.

(** The white space of three bytes: U+1680, U+2000 to U+200A, U+2028,
    U+2029, U+202F, U+205F, U+3000 and U+FEFF. *)
Definition is_white_space_3 (c1 c2 c3 : ascii) : bool :=
  let a := nat_of_ascii c1 in
  let b := nat_of_ascii c2 in
  let c := nat_of_ascii c3 in
  ((a =? 225) && (b =? 154) && (c =? 128)
   || (a =? 226) && (b =? 128)
      && ((128 <=? c) && (c <=? 138) || (c =? 168) || (c =? 169) || (c =? 175))
   || (a =? 226) && (b =? 129) && (c =? 159)
   || (a =? 227) && (b =? 128) && (c =? 128)
   || (a =? 239) && (b =? 187) && (c =? 191))%nat.

(** The first step of [parseInt]: the text without its leading white
    space and line terminators, whatever their length in bytes. *)
Fixpoint trim_start (s : string) : string :=
  match s with
  | String c1 rest1 =>
      if is_white_space c1 then trim_start rest1
      else
        match rest1 with
        | String c2 rest2 =>
            if is_white_space_2 c1 c2 then trim_start rest2
            else
              match rest2 with
              | String c3 rest3 =>
                  if is_white_space_3 c1 c2 c3 then trim_start rest3 else s
              | EmptyString => s
              end
        | EmptyString => s
        end
  | EmptyString => EmptyString
  end.

(** The numeric value of a character as a digit of the given radix. *)
Definition digit_value (radix : Z) (c : ascii) : option Z :=
  let n := Z.of_nat (nat_of_ascii c) in
  let d := if (48 <=? n) && (n <=? 57) then Some (n - 48)
           else if (97 <=? n) && (n <=? 122) then Some (n - 87)
           else if (65 <=? n) && (n <=? 90) then Some (n - 55)
           else None in
  match d with
  | Some v => if v <? radix then Some v else None
  | None => None
  end.

(** Reads the longest prefix of digits; [acc] is [None] until a first
    digit has been read. *)
Fixpoint parse_digits (radix : Z) (acc : option Z) (s : string) : option Z :=
  match s with
  | String c rest =>
      match digit_value radix c with
      | Some d =>
          parse_digits radix
            (Some (match acc with Some a => a * radix + d | None => d end)) rest
      | None => acc
      end
  | EmptyString => acc
  end.

Definition parseInt_string (s : string) : number :=
  let s1 := trim_start s in
  let '(negative, s2) :=
    match s1 with
    | String "-" rest => (true, rest)
    | String "+" rest => (false, rest)
    | _ => (false, s1)
    end in
  let '(radix, s3) :=
    match s2 with
    | String "0" (String "x" rest) => (16, rest)
    | String "0" (String "X" rest) => (16, rest)
    | _ => (10, s2)
    end in
  match parse_digits radix None s3 with
  | Some n => Some (if negative then - n else n)
  | None => None
  end.

(** [parseInt(v)]: the argument is converted to a string first.  A safe
    integer prints as its decimal digits and parses back to itself;
    ["true"], ["null"], ["undefined"] and ["NaN"] start with no digit.
    The result is the integer the digits denote, which is the double the
    code returns when it is within [max_safe_integer]. *)
Definition parseInt (v : value) : number :=
  match v with
  | VStr s => parseInt_string s
  | VNum n => Some n
  | VUndefined | VNull | VBool _ | VNaN => None
  end.

Definition isNaN (x : number) : bool :=
  match x with Some _ => false | None => true end.

(** [x < y], [x > y] and [x + y] on numbers; a comparison with [NaN]
    is false and a sum with [NaN] is [NaN]. *)
Definition lt (x y : number) : bool :=
  match x, y with Some a, Some b => a <? b | _, _ => false end.

Definition gt (x y : number) : bool := lt y x.

Definition add (x y : number) : number :=
  match x, y with Some a, Some b => Some (a + b) | _, _ => None end.

(** A number stored back into an object property. *)
Definition of_number (x : number) : value :=
  match x with Some n => VNum n | None => VNaN end.

End JS.

(* ================================================================== *)
(** ** The [todos] table and the statements the model issues *)

Module Sql.
Import JS.

(** What the column [completed BOOLEAN DEFAULT 0] of a row holds.  The
    declared type gives the column NUMERIC affinity and nothing checks
    what is written to it: it holds the integer 1 or 0, or the text it
    was given when that text is no number, kept as it is. *)
Inductive cell : Type :=
| Flag (b : bool)      (* the integer 1 or 0 *)
| Text (s : string).   (* a text that is no number *)

(** What the driver makes of such a value when it reads the row. *)
Definition cell_value (c : cell) : value :=
  match c with
  | Flag b => VNum (if b then 1 else 0)
  | Text s => VStr s
  end.

(** A row of [todos], typed by the schema of [database.js]:
    [id TEXT PRIMARY KEY], [user_id TEXT NOT NULL], [title TEXT NOT NULL],
    [description TEXT], [completed BOOLEAN DEFAULT 0],
    [created_at] and [updated_at DATETIME DEFAULT CURRENT_TIMESTAMP]
    (stored as the text [YYYY-MM-DD HH:MM:SS], whose byte order is the
    order of time). *)
Record Row : Type := mkRow {
  id : string;
  user_id : string;
  title : string;
  description : option string;
  completed : cell;
  created_at : string;
  updated_at : string
}.

(** The six statements of [Todo.js], with the values bound to their
    placeholders.  [flt] records which text was appended to the
    [WHERE] clause: nothing, [AND completed = 1] or [AND completed = 0]. *)
Inductive stmt : Type :=
| InsertTodo (i u t d c : value)
| SelectTodoById (i : value)
| SelectTodosByUser (flt : option bool) (u lim off : value)
| UpdateTodo (sets : list (string * value)) (i : value)
| DeleteTodo (i : value)
| CountTodosByUser (flt : option bool) (u : value).

Inductive error : Type :=
| SqliteConstraint   (* PRIMARY KEY or NOT NULL violated *)
| OutsideSchema      (* a bound value that is not of the declared type of
                        its column; SQLite would coerce it by affinity,
                        the model does not follow such values *)
| TypeError.         (* a JavaScript TypeError *)

Inductive result (A : Type) : Type :=
| Ok (a : A)
| Err (e : error).
Arguments Ok {A} a.
Arguments Err {A} e.

(** *** Binding JavaScript values to typed columns *)

Definition bind_text (v : value) : result (option string) :=
  match v with
  | VStr s => Ok (Some s)
  | VNull | VUndefined => Ok None
  | _ => Err OutsideSchema
  end.

Definition bind_text_not_null (v : value) : result string :=
  match v with
  | VStr s => Ok s
  | VNull | VUndefined => Err SqliteConstraint
  | _ => Err OutsideSchema
  end.

Definition bind_key (v : value) : result string :=
  match v with
  | VStr s => Ok s
  | _ => Err OutsideSchema
  end.

(** A value bound to [completed]: the driver binds a boolean as 1 or 0,
    and the affinity of the column turns the texts ['1'] and ['0'] into
    these integers and leaves the texts ['true'] and ['false'] as they
    are.  Other values are not followed. *)
Definition bind_boolean (v : value) : result cell :=
  match v with
  | VBool b => Ok (Flag b)
  | VNum 0 => Ok (Flag false)
  | VNum 1 => Ok (Flag true)
  | VStr s =>
      if (s =? "0")%string then Ok (Flag false)
      else if (s =? "1")%string then Ok (Flag true)
      else if (s =? "true")%string || (s =? "false")%string then Ok (Text s)
      else Err OutsideSchema
  | _ => Err OutsideSchema
  end.

(** A number bound to [LIMIT] or [OFFSET].  The driver hands the engine
    the double, and the engine takes it as the integer it is when it is
    one of 64 bits: every number within [max_safe_integer] is. *)
Definition bind_integer (v : value) : result Z :=
  match v with
  | VNum n => Ok n
  | _ => Err OutsideSchema
  end.

(** *** What the engine does with each statement *)

Definition has_id (i : string) (r : Row) : bool := (id r =? i)%string.

Definition owned_by (u : string) (r : Row) : bool := (user_id r =? u)%string.

(** [completed = 1] and [completed = 0]: a text is equal to neither. *)
Definition cell_is (b : bool) (c : cell) : bool :=
  match c with
  | Flag x => Bool.eqb x b
  | Text _ => false
  end.

(** [WHERE user_id = ?] followed by the optional [AND completed = _]. *)
Definition matches (flt : option bool) (u : string) (r : Row) : bool :=
  owned_by u r &&
  match flt with
  | None => true
  | Some b => cell_is b (completed r)
  end.

(** [ORDER BY created_at DESC]: rows with the greater text first.  The
    engine leaves the order of rows with equal keys open; this sort keeps
    them in table order. *)
Fixpoint insert_desc (r : Row) (l : list Row) : list Row :=
  match l with
  | [] => [r]
  | h :: t =>
      if String.leb (created_at h) (created_at r)
      then r :: h :: t
      else h :: insert_desc r t
  end.

Definition order_by_created_at_desc (l : list Row) : list Row :=
  fold_right insert_desc [] l.

(** [LIMIT lim OFFSET off]: a negative limit is no limit, a negative
    offset is zero. *)
Definition limit_offset (lim off : Z) (l : list Row) : list Row :=
  let l' := skipn (Z.to_nat off) l in
  if lim <? 0 then l' else firstn (Z.to_nat lim) l'.

Definition select_by_user (flt : option bool) (u : string) (lim off : Z)
           (tbl : list Row) : list Row :=
  limit_offset lim off (order_by_created_at_desc (filter (matches flt u) tbl)).

Definition count_by_user (flt : option bool) (u : string) (tbl : list Row) : Z :=
  Z.of_nat (List.length (filter (matches flt u) tbl)).

(** [SET column = ?]: only the three columns the model ever names. *)
Definition assign_column (kv : string * value) (r : Row) : result Row :=
  let '(k, v) := kv in
  if (k =? "title")%string then
    match bind_text_not_null v with
    | Ok s => Ok (mkRow (id r) (user_id r) s (description r) (completed r)
                        (created_at r) (updated_at r))
    | Err e => Err e
    end
  else if (k =? "description")%string then
    match bind_text v with
    | Ok d => Ok (mkRow (id r) (user_id r) (title r) d (completed r)
                        (created_at r) (updated_at r))
    | Err e => Err e
    end
  else if (k =? "completed")%string then
    match bind_boolean v with
    | Ok b => Ok (mkRow (id r) (user_id r) (title r) (description r) b
                        (created_at r) (updated_at r))
    | Err e => Err e
    end
  else Err OutsideSchema.

Fixpoint assign_columns (sets : list (string * value)) (r : Row) : result Row :=
  match sets with
  | [] => Ok r
  | kv :: rest =>
      match assign_column kv r with
      | Ok r' => assign_columns rest r'
      | Err e => Err e
      end
  end.

Definition touch (now : string) (r : Row) : Row :=
  mkRow (id r) (user_id r) (title r) (description r) (completed r)
        (created_at r) now.

(** [UPDATE todos SET ..., updated_at = CURRENT_TIMESTAMP WHERE id = ?]. *)
Fixpoint update_where_id (sets : list (string * value)) (now i : string)
         (tbl : list Row) : result (list Row) :=
  match tbl with
  | [] => Ok []
  | r :: rest =>
      match update_where_id sets now i rest with
      | Err e => Err e
      | Ok rest' =>
          if has_id i r then
            match assign_columns sets r with
            | Ok r' => Ok (touch now r' :: rest')
            | Err e => Err e
            end
          else Ok (r :: rest')
      end
  end.

Definition delete_where_id (i : string) (tbl : list Row) : list Row :=
  filter (fun r => negb (has_id i r)) tbl.

End Sql.

(** A boolean stands for the integer it is stored as. *)
Coercion Sql.Flag : bool >-> Sql.cell.

(* ================================================================== *)
(** ** The world a request handler runs in, and its monad *)

Module World.
Import JS Sql.

Record t : Type := mk {
  table : list Row;            (* the rows of [todos], in insertion order *)
  issued : list stmt;          (* every statement handed to the driver *)
  clock : string;              (* what CURRENT_TIMESTAMP evaluates to *)
  uuid_stream : nat -> string; (* the identifiers [uuidv4] returns, in order *)
  uuid_drawn : nat             (* how many of them have been drawn *)
}.

Definition with_table (tbl : list Row) (w : t) : t :=
  mk tbl (issued w) (clock w) (uuid_stream w) (uuid_drawn w).

Definition M (A : Type) : Type := t -> result A * t.

Definition ret {A} (a : A) : M A := fun w => (Ok a, w).

Definition throw {A} (e : error) : M A := fun w => (Err e, w).

Definition bind {A B} (m : M A) (k : A -> M B) : M B :=
  fun w =>
    match m w with
    | (Ok a, w') => k a w'
    | (Err e, w') => (Err e, w')
    end.

Definition lift {A} (r : result A) : M A := fun w => (r, w).

(** [uuidv4()]. *)
Definition uuidv4 : M string :=
  fun w => (Ok (uuid_stream w (uuid_drawn w)),
            mk (table w) (issued w) (clock w) (uuid_stream w) (S (uuid_drawn w))).

(** Handing a statement to the driver ([db.run], [db.get], [db.all]). *)
Definition issue (s : stmt) : M unit :=
  fun w => (Ok tt, mk (table w) (issued w ++ [s]) (clock w)
                      (uuid_stream w) (uuid_drawn w)).

End World.

Declare Scope world_scope.
Delimit Scope world_scope with world.
Notation "x <- m ;; k" := (World.bind m (fun x => k))
  (at level 61, m at next level, right associativity) : world_scope.
Notation "m ;;; k" := (World.bind m (fun _ => k))
  (at level 61, right associativity) : world_scope.

Local Open Scope world_scope.

(* ================================================================== *)
(** ** The database handle: [db.run], [db.get] and [db.all] on [todos] *)

Module Database.
Import JS Sql World.

Definition run_insert (i u t d c : value) : M unit :=
  issue (InsertTodo i u t d c) ;;;
  i' <- lift (bind_key i) ;;
  u' <- lift (bind_text_not_null u) ;;
  t' <- lift (bind_text_not_null t) ;;
  d' <- lift (bind_text d) ;;
  c' <- lift (bind_boolean c) ;;
  fun w =>
    if existsb (has_id i') (table w)
    then (Err SqliteConstraint, w)
    else (Ok tt, with_table (table w ++ [mkRow i' u' t' d' c' (clock w) (clock w)]) w).

Definition get_by_id (i : value) : M (option Row) :=
  issue (SelectTodoById i) ;;;
  i' <- lift (bind_key i) ;;
  fun w => (Ok (find (has_id i') (table w)), w).

Definition all_by_user (flt : option bool) (u lim off : value) : M (list Row) :=
  issue (SelectTodosByUser flt u lim off) ;;;
  u' <- lift (bind_key u) ;;
  lim' <- lift (bind_integer lim) ;;
  off' <- lift (bind_integer off) ;;
  fun w => (Ok (select_by_user flt u' lim' off' (table w)), w).

Definition get_count (flt : option bool) (u : value) : M Z :=
  issue (CountTodosByUser flt u) ;;;
  u' <- lift (bind_key u) ;;
  fun w => (Ok (count_by_user flt u' (table w)), w).

Definition run_update (sets : list (string * value)) (i : value) : M unit :=
  issue (UpdateTodo sets i) ;;;
  i' <- lift (bind_key i) ;;
  fun w =>
    match update_where_id sets (clock w) i' (table w) with
    | Ok tbl => (Ok tt, with_table tbl w)
    | Err e => (Err e, w)
    end.

Definition run_delete (i : value) : M unit :=
  issue (DeleteTodo i) ;;;
  i' <- lift (bind_key i) ;;
  fun w => (Ok tt, with_table (delete_where_id i' (table w)) w).

End Database.

(* ================================================================== *)
(** ** [backend/models/Todo.js] *)

Module Todo.
Import JS World.

(** An instance of [class Todo]: its seven data properties, and whether
    [this.toJSON] still resolves to the method of the class. *)
Record t : Type := mk {
  id : value;
  user_id : value;
  title : value;
  description : value;
  completed : value;
  created_at : value;
  updated_at : value;
  toJSON_intact : bool
}.

(** The object the driver builds for a row. *)
Definition row_object (r : Sql.Row) : object :=
  [ ("id", VStr (Sql.id r));
    ("user_id", VStr (Sql.user_id r));
    ("title", VStr (Sql.title r));
    ("description", match Sql.description r with Some d => VStr d | None => VNull end);
    ("completed", Sql.cell_value (Sql.completed r));
    ("created_at", VStr (Sql.created_at r));
    ("updated_at", VStr (Sql.updated_at r)) ].

(** [constructor(data)]. *)
Definition new (data : object) : M t :=
  i <- (if truthy (get "id" data) then ret (get "id" data)
        else u <- uuidv4 ;; ret (VStr u)) ;;
  ret (mk i
          (get "user_id" data)
          (get "title" data)
          (or (get "description" data) VNull)
          (or (get "completed" data) (VBool false))
          (get "created_at" data)
          (get "updated_at" data)
          true).

(** [static async create(todoData)]. *)
Definition create (todoData : object) : M t :=
  todo <- new todoData ;;
  Database.run_insert (id todo) (user_id todo) (title todo)
                      (description todo) (completed todo) ;;;
  ret todo.

(** [static async findById(id)]: [None] is [null]. *)
Definition findById (i : value) : M (option t) :=
  row <- Database.get_by_id i ;;
  match row with
  | Some r => todo <- new (row_object r) ;; ret (Some todo)
  | None => ret None
  end.

Fixpoint map_new (rows : list Sql.Row) : M (list t) :=
  match rows with
  | [] => ret []
  | r :: rest =>
      todo <- new (row_object r) ;;
      todos <- map_new rest ;;
      ret (todo :: todos)
  end.

(** [static async findByUserId(userId, options = {})]. *)
Definition findByUserId (userId : value) (options : object) : M (list t) :=
  let status := default (get "status" options) (VStr "all") in
  let limit := default (get "limit" options) (VNum 50) in
  let offset := default (get "offset" options) (VNum 0) in
  let flt :=
    if strict_eq status (VStr "completed") then Some true
    else if strict_eq status (VStr "pending") then Some false
    else None in
  rows <- Database.all_by_user flt userId limit offset ;;
  map_new rows.

Definition allowedFields : list string := ["title"; "description"; "completed"].

(** The loop over [Object.entries(updateData)]: the pairs of
    [updates] and [values], in order. *)
Definition collect_updates (updateData : object) : list (string * value) :=
  filter (fun kv => includes allowedFields (VStr (fst kv))
                    && negb (strict_eq (snd kv) VUndefined))
         updateData.

(** [this[k] = v].  A property other than the seven is an extra own
    property no method reads, except that an own [toJSON] hides the
    method and a null [__proto__] detaches the prototype. *)
Definition set_property (this : t) (kv : string * value) : t :=
  let '(k, v) := kv in
  if (k =? "id")%string then
    mk v (user_id this) (title this) (description this) (completed this)
       (created_at this) (updated_at this) (toJSON_intact this)
  else if (k =? "user_id")%string then
    mk (id this) v (title this) (description this) (completed this)
       (created_at this) (updated_at this) (toJSON_intact this)
  else if (k =? "title")%string then
    mk (id this) (user_id this) v (description this) (completed this)
       (created_at this) (updated_at this) (toJSON_intact this)
  else if (k =? "description")%string then
    mk (id this) (user_id this) (title this) v (completed this)
       (created_at this) (updated_at this) (toJSON_intact this)
  else if (k =? "completed")%string then
    mk (id this) (user_id this) (title this) (description this) v
       (created_at this) (updated_at this) (toJSON_intact this)
  else if (k =? "created_at")%string then
    mk (id this) (user_id this) (title this) (description this) (completed this)
       v (updated_at this) (toJSON_intact this)
  else if (k =? "updated_at")%string then
    mk (id this) (user_id this) (title this) (description this) (completed this)
       (created_at this) v (toJSON_intact this)
  else if (k =? "toJSON")%string then
    mk (id this) (user_id this) (title this) (description this) (completed this)
       (created_at this) (updated_at this) false
  else if (k =? "__proto__")%string then
    match v with
    | VNull =>
        mk (id this) (user_id this) (title this) (description this)
           (completed this) (created_at this) (updated_at this) false
    | _ => this
    end
  else this.

(** [Object.assign(this, updateData)]. *)
Definition assign (this : t) (updateData : object) : t :=
  fold_left set_property updateData this.

(** [async update(updateData)]. *)
Definition update (this : t) (updateData : object) : M t :=
  match collect_updates updateData with
  | [] => ret this
  | sets =>
      Database.run_update sets (id this) ;;;
      ret (assign this updateData)
  end.

(** [async delete()]. *)
Definition delete (this : t) : M bool :=
  Database.run_delete (id this) ;;;
  ret true.

(** [static async getCountByUserId(userId, status = 'all')]. *)
Definition getCountByUserId (userId status : value) : M Z :=
  let status := default status (VStr "all") in
  let flt :=
    if strict_eq status (VStr "completed") then Some true
    else if strict_eq status (VStr "pending") then Some false
    else None in
  Database.get_count flt userId.

(** [async belongsToUser(userId)]. *)
Definition belongsToUser (this : t) (userId : value) : bool :=
  strict_eq (user_id this) userId.

(** [todo.toJSON()]: a TypeError when the method is no longer reachable. *)
Definition toJSON (this : t) : M object :=
  if toJSON_intact this then
    ret [ ("id", id this);
          ("user_id", user_id this);
          ("title", title this);
          ("description", description this);
          ("completed", VBool (truthy (completed this)));
          ("created_at", created_at this);
          ("updated_at", updated_at this) ]
  else throw Sql.TypeError.

End Todo.

(* ================================================================== *)
(** ** [calculatePagination] of the helper utilities *)

Module Helpers.
Import JS.

Record pagination : Type := mkPagination {
  total : Z;
  limit : Z;
  offset : Z;
  currentPage : number;   (* [None] when [limit] is zero: not a finite number *)
  totalPages : number;
  hasNext : bool;
  hasPrev : bool;
  hasMore : bool
}.

(** [calculatePagination(total, limit, offset)].  [Math.floor(a / b)] is
    [a / b] on [Z] and [Math.ceil(a / b)] is [- ((- a) / b)], also on
    doubles as long as [total] and [offset + limit] are within
    [JS.max_safe_integer]. *)
Definition calculatePagination (total limit offset : Z) : pagination :=
  let currentPage := if limit =? 0 then None else Some (offset / limit + 1) in
  let totalPages := if limit =? 0 then None else Some (- ((- total) / limit)) in
  let hasNext := offset + limit <? total in
  let hasPrev := offset >? 0 in
  mkPagination total limit offset currentPage totalPages hasNext hasPrev hasNext.

End Helpers.

(* ================================================================== *)
(** ** Requests, responses and middleware *)

Module User.
(** What the gate attaches as [req.user]: a record of the [users] table. *)
Record t : Type := mk {
  id : string;
  username : string;
  email : string
}.
End User.

Module Http.
Import JS.

Inductive method : Type := GET | POST | PUT | DELETE.

Definition method_eqb (a b : method) : bool :=
  match a, b with
  | GET, GET | POST, POST | PUT, PUT | DELETE, DELETE => true
  | _, _ => false
  end.

(** A request as the router mounted on [/api/todos] sees it: [segments]
    is the path below the mount point, [bearer] the token carried by the
    [Authorization] header when there is one. *)
Record request : Type := mkRequest {
  method_of : method;
  segments : list string;
  bearer : option string;
  query : object;
  params : object;
  body : object;
  user : option User.t
}.

Definition with_query (q : object) (r : request) : request :=
  mkRequest (method_of r) (segments r) (bearer r) q (params r) (body r) (user r).

Definition with_params (p : object) (r : request) : request :=
  mkRequest (method_of r) (segments r) (bearer r) (query r) p (body r) (user r).

Definition with_body (b : object) (r : request) : request :=
  mkRequest (method_of r) (segments r) (bearer r) (query r) (params r) b (user r).

Definition with_user (u : User.t) (r : request) : request :=
  mkRequest (method_of r) (segments r) (bearer r) (query r) (params r) (body r) (Some u).

Inductive data : Type :=
| NoData
| TodoData (todo : object)
| TodosData (todos : list object) (pagination : object).

(** The envelope [{success, message, code?, errors?, data?}] and the
    status it is sent with. *)
Record response : Type := mkResponse {
  status : Z;
  success : bool;
  message : string;
  code : option string;
  errors : list string;
  payload : data
}.

Definition ok (st : Z) (msg : string) (d : data) : response :=
  mkResponse st true msg None [] d.

Definition failure (st : Z) (msg c : string) : response :=
  mkResponse st false msg (Some c) [] NoData.

(** A middleware either ends the request with a response or calls
    [next()], possibly after changing the request. *)
Inductive outcome : Type :=
| Respond (res : response)
| Next (req : request).

Definition middleware : Type := request -> World.t -> outcome * World.t.

(** A middleware that touches nothing but the request. *)
Definition pure (f : request -> outcome) : middleware :=
  fun req w => (f req, w).

End Http.

(* ================================================================== *)
(** ** [backend/middleware/validation.js] *)

Module Validation.
Import JS Http.

(** [handleValidationErrors], given the messages [validationResult(req)]
    holds. *)
Definition handleValidationErrors (errs : list string) (req : request) : outcome :=
  match errs with
  | _ :: _ =>
      Respond (mkResponse 400 false "Validation failed" (Some "VALIDATION_ERROR")
                          errs NoData)
  | [] => Next req
  end.

(** A chain of express-validator rules followed by
    [handleValidationErrors]: [rules] gives the sanitized body and the
    messages of the failed rules. *)
Definition validation_chain (rules : object -> object * list string) : middleware :=
  pure (fun req =>
          let '(b, errs) := rules (body req) in
          handleValidationErrors errs (with_body b req)).

(** [validateTodoQuery]. *)
Definition validateTodoQuery (req : request) : outcome :=
  let status := get "status" (query req) in
  let limit := get "limit" (query req) in
  let offset := get "offset" (query req) in
  if truthy status && negb (includes ["all"; "completed"; "pending"] status) then
    Respond (failure 400 "Status must be one of: all, completed, pending"
                     "INVALID_STATUS")
  else
    let limited :=
      if truthy limit then
        let limitNum := parseInt limit in
        if isNaN limitNum || lt limitNum (Some 1) || gt limitNum (Some 100)
        then None
        else Some (with_query (set "limit" (of_number limitNum) (query req)) req)
      else Some (with_query (set "limit" (VNum 50) (query req)) req) in
    match limited with
    | None =>
        Respond (failure 400 "Limit must be a number between 1 and 100"
                         "INVALID_LIMIT")
    | Some req1 =>
        if truthy offset then
          let offsetNum := parseInt offset in
          if isNaN offsetNum || lt offsetNum (Some 0)
          then Respond (failure 400 "Offset must be a non-negative number"
                                "INVALID_OFFSET")
          else Next (with_query (set "offset" (of_number offsetNum) (query req1)) req1)
        else Next (with_query (set "offset" (VNum 0) (query req1)) req1)
    end.

End Validation.

(* ================================================================== *)
(** ** [backend/routes/todos.js] *)

Section TodosRouter.
Import JS World Http.

(** The Token Issuer/Verifier ([verify] gives the user identifier of a
    valid token), the Credential Store lookup and the express-validator
    rule chains of [validateTodoCreation] and [validateTodoUpdate]. *)
Variable verify : string -> option string.
Variable findUserById : string -> option User.t.
Variable todoCreationRules : object -> object * list string.
Variable todoUpdateRules : object -> object * list string.

Definition unauthenticated : response :=
  failure 401 "Authentication required" "UNAUTHENTICATED".

(** The identity a request proves: its bearer token verifies and names
    a user that still exists. *)
Definition caller (req : request) : option User.t :=
  match bearer req with
  | None => None
  | Some token =>
      match verify token with
      | None => None
      | Some userId => findUserById userId
      end
  end.

(** Modelled from the spec: the Authorization Gate [authenticateToken]
    of backend/middleware/auth.js, which is not among the sources.  It
    takes the bearer token of the designated header and fails with
    UNAUTHENTICATED when there is none; it verifies the token and fails
    with UNAUTHENTICATED whatever the reason of a failure; it resolves the
    user identifier to a live user and fails with UNAUTHENTICATED when the
    user no longer exists; otherwise it makes the identity available to
    the handlers that follow. *)
Definition authenticateToken : middleware :=
  pure (fun req =>
          match bearer req with
          | None => Respond unauthenticated
          | Some token =>
              match verify token with
              | None => Respond unauthenticated
              | Some userId =>
                  match findUserById userId with
                  | None => Respond unauthenticated
                  | Some u => Next (with_user u req)
                  end
              end
          end).

Definition validateTodoQuery : middleware := pure Validation.validateTodoQuery.

Definition validateTodoCreation : middleware :=
  Validation.validation_chain todoCreationRules.

Definition validateTodoUpdate : middleware :=
  Validation.validation_chain todoUpdateRules.

(** [try { ... } catch (error) { res.status(500).json(...) }]. *)
Definition try_catch (body : M response) (on_error : response)
  : World.t -> outcome * World.t :=
  fun w =>
    match body w with
    | (Sql.Ok res, w') => (Respond res, w')
    | (Sql.Err _, w') => (Respond on_error, w')
    end.

(** [req.user.id]. *)
Definition req_user_id (req : request) : M value :=
  match user req with
  | Some u => ret (VStr (User.id u))
  | None => throw Sql.TypeError
  end.

Fixpoint map_toJSON (todos : list Todo.t) : M (list object) :=
  match todos with
  | [] => ret []
  | todo :: rest =>
      j <- Todo.toJSON todo ;;
      js <- map_toJSON rest ;;
      ret (j :: js)
  end.

Definition not_found : response := failure 404 "Todo not found" "TODO_NOT_FOUND".

Definition access_denied : response :=
  failure 403 "Access denied. This todo does not belong to you" "ACCESS_DENIED".

(** [router.get('/', validateTodoQuery, async (req, res) => ...)]. *)
Definition get_todos : middleware :=
  fun req =>
    try_catch
      (let status := get "status" (query req) in
       let limit := get "limit" (query req) in
       let offset := get "offset" (query req) in
       userId <- req_user_id req ;;
       todos <- Todo.findByUserId userId
                  [("status", status); ("limit", limit); ("offset", offset)] ;;
       totalCount <- Todo.getCountByUserId userId status ;;
       js <- map_toJSON todos ;;
       ret (ok 200 "Todos retrieved successfully"
               (TodosData js
                  [ ("total", VNum totalCount);
                    ("limit", of_number (parseInt limit));
                    ("offset", of_number (parseInt offset));
                    ("hasMore",
                      VBool (lt (add (parseInt offset) (parseInt limit))
                                (Some totalCount))) ])))
      (failure 500 "Internal server error while retrieving todos" "GET_TODOS_ERROR").

(** [router.post('/', validateTodoCreation, async (req, res) => ...)]. *)
Definition post_todo : middleware :=
  fun req =>
    try_catch
      (let title := get "title" (body req) in
       let description := get "description" (body req) in
       userId <- req_user_id req ;;
       todo <- Todo.create
                 [("user_id", userId); ("title", title); ("description", description)] ;;
       j <- Todo.toJSON todo ;;
       ret (ok 201 "Todo created successfully" (TodoData j)))
      (failure 500 "Internal server error while creating todo" "CREATE_TODO_ERROR").

(** [router.get('/:id', async (req, res) => ...)]. *)
Definition get_todo : middleware :=
  fun req =>
    try_catch
      (let id := get "id" (params req) in
       userId <- req_user_id req ;;
       found <- Todo.findById id ;;
       match found with
       | None => ret not_found
       | Some todo =>
           if negb (Todo.belongsToUser todo userId) then ret access_denied
           else
             j <- Todo.toJSON todo ;;
             ret (ok 200 "Todo retrieved successfully" (TodoData j))
       end)
      (failure 500 "Internal server error while retrieving todo" "GET_TODO_ERROR").

(** [router.put('/:id', validateTodoUpdate, async (req, res) => ...)]. *)
Definition put_todo : middleware :=
  fun req =>
    try_catch
      (let id := get "id" (params req) in
       userId <- req_user_id req ;;
       let updateData := body req in
       found <- Todo.findById id ;;
       match found with
       | None => ret not_found
       | Some todo =>
           if negb (Todo.belongsToUser todo userId) then ret access_denied
           else
             updatedTodo <- Todo.update todo updateData ;;
             j <- Todo.toJSON updatedTodo ;;
             ret (ok 200 "Todo updated successfully" (TodoData j))
       end)
      (failure 500 "Internal server error while updating todo" "UPDATE_TODO_ERROR").

(** [router.delete('/:id', async (req, res) => ...)]. *)
Definition delete_todo : middleware :=
  fun req =>
    try_catch
      (let id := get "id" (params req) in
       userId <- req_user_id req ;;
       found <- Todo.findById id ;;
       match found with
       | None => ret not_found
       | Some todo =>
           if negb (Todo.belongsToUser todo userId) then ret access_denied
           else
             Todo.delete todo ;;;
             ret (ok 200 "Todo deleted successfully" NoData)
       end)
      (failure 500 "Internal server error while deleting todo" "DELETE_TODO_ERROR").

(** *** The router: a stack of layers tried in the order of registration *)

Inductive pattern : Type :=
| Use                              (* [router.use(f)]: every request *)
| Route (m : method) (item : bool). (* ['/'] or ['/:id'] for one method *)

Record layer : Type := mkLayer {
  pattern_of : pattern;
  handlers : list middleware
}.

(** The request a layer's handlers receive when the layer matches.  The
    [:id] parameter matches one non-empty path segment. *)
Definition layer_match (p : pattern) (req : request) : option request :=
  match p with
  | Use => Some req
  | Route m false =>
      if method_eqb m (method_of req) then
        match segments req with
        | [] => Some req
        | _ => None
        end
      else None
  | Route m true =>
      if method_eqb m (method_of req) then
        match segments req with
        | [i] => if (i =? "")%string then None
                 else Some (with_params [("id", VStr i)] req)
        | _ => None
        end
      else None
  end.

Fixpoint run_handlers (hs : list middleware) (req : request) (w : World.t)
  : outcome * World.t :=
  match hs with
  | [] => (Next req, w)
  | h :: rest =>
      match h req w with
      | (Respond res, w') => (Respond res, w')
      | (Next req', w') => run_handlers rest req' w'
      end
  end.

(** [Next] at the end: no layer ended the request and it leaves the
    router. *)
Fixpoint dispatch (stack : list layer) (req : request) (w : World.t)
  : outcome * World.t :=
  match stack with
  | [] => (Next req, w)
  | l :: rest =>
      match layer_match (pattern_of l) req with
      | None => dispatch rest req w
      | Some req0 =>
          match run_handlers (handlers l) req0 w with
          | (Respond res, w') => (Respond res, w')
          | (Next req', w') => dispatch rest req' w'
          end
      end
  end.

Definition routes : list layer :=
  [ mkLayer (Route GET false) [validateTodoQuery; get_todos];
    mkLayer (Route POST false) [validateTodoCreation; post_todo];
    mkLayer (Route GET true) [get_todo];
    mkLayer (Route PUT true) [validateTodoUpdate; put_todo];
    mkLayer (Route DELETE true) [delete_todo] ].

Definition router_stack : list layer :=
  mkLayer Use [authenticateToken] :: routes.

Definition router : middleware := dispatch router_stack.

End TodosRouter.

(* ================================================================== *)
(** ** A small deployment used to run the model on concrete requests *)

Module Sample.
Import JS Http.

Definition alice : User.t := User.mk "u-alice" "alice" "a@x.com".
Definition bob : User.t := User.mk "u-bob" "bob" "b@x.com".

Definition verify (token : string) : option string :=
  if (token =? "token-alice")%string then Some "u-alice"
  else if (token =? "token-bob")%string then Some "u-bob"
  else None.

Definition findUserById (i : string) : option User.t :=
  if (i =? "u-alice")%string then Some alice
  else if (i =? "u-bob")%string then Some bob
  else None.

(** Rule chains that accept every body and leave it as it is. *)
Definition accept_all (b : object) : object * list string := (b, []).

Definition uuids (n : nat) : string :=
  match n with
  | O => "6f1c0c3e-0000-4000-8000-000000000001"
  | S O => "6f1c0c3e-0000-4000-8000-000000000002"
  | _ => "6f1c0c3e-0000-4000-8000-000000000003"
  end.

Definition milk : Sql.Row :=
  Sql.mkRow "t-milk" "u-alice" "Buy milk" (Some "2 litres") false
            "2024-05-01 09:00:00" "2024-05-01 09:00:00".

Definition taxes : Sql.Row :=
  Sql.mkRow "t-taxes" "u-bob" "File taxes" None true
            "2024-05-02 10:30:00" "2024-05-03 08:15:00".

Definition bread : Sql.Row :=
  Sql.mkRow "t-bread" "u-alice" "Buy bread" None true
            "2024-05-03 07:45:00" "2024-05-03 07:45:00".

Definition now : string := "2024-06-01 12:00:00".

Definition world_of (tbl : list Sql.Row) : World.t :=
  World.mk tbl [] now uuids 0.

Definition world : World.t := world_of [milk; taxes; bread].

(** Ten todos of alice, created one per day. *)
Definition day (d : string) (done : bool) : Sql.Row :=
  Sql.mkRow ("t-" ++ d) "u-alice" ("Task " ++ d) None done
            ("2024-04-" ++ d ++ " 08:00:00") ("2024-04-" ++ d ++ " 08:00:00").

Definition ten : list Sql.Row :=
  [ day "01" false; day "02" true; day "03" false; day "04" false; day "05" true;
    day "06" false; day "07" true; day "08" false; day "09" false; day "10" true ].

Definition request_of (m : method) (path : list string) (token : option string)
           (q b : object) : request :=
  mkRequest m path token q [] b None.

Definition router : middleware :=
  router verify findUserById accept_all accept_all.

(** [GET /api/todos] by alice with the given query, on the sample world. *)
Definition list_as_alice (q : object) : outcome * World.t :=
  router (request_of GET [] (Some "token-alice") q []) world.

End Sample.

(* ================================================================== *)
(** ** Vocabulary of the statements below *)

(** The world after one more statement has been handed to the driver. *)
Definition logged (s : Sql.stmt) (w : World.t) : World.t :=
  World.mk (World.table w) (World.issued w ++ [s]) (World.clock w)
           (World.uuid_stream w) (World.uuid_drawn w).

(** The instance [new Todo(row)] builds for a row with a non-empty id. *)
Definition instance_of_row (r : Sql.Row) : Todo.t :=
  Todo.mk (JS.VStr (Sql.id r))
          (JS.VStr (Sql.user_id r))
          (JS.VStr (Sql.title r))
          (match Sql.description r with
           | Some d => if (d =? "")%string then JS.VNull else JS.VStr d
           | None => JS.VNull
           end)
          (JS.or (Sql.cell_value (Sql.completed r)) (JS.VBool false))
          (JS.VStr (Sql.created_at r))
          (JS.VStr (Sql.updated_at r))
          true.

(** An instance that shows a row, whatever identifier it carries. *)
Definition reflects (t : Todo.t) (r : Sql.Row) : Prop :=
  Todo.user_id t = Todo.user_id (instance_of_row r) /\
  Todo.title t = Todo.title (instance_of_row r) /\
  Todo.description t = Todo.description (instance_of_row r) /\
  Todo.completed t = Todo.completed (instance_of_row r) /\
  Todo.created_at t = Todo.created_at (instance_of_row r) /\
  Todo.updated_at t = Todo.updated_at (instance_of_row r) /\
  Todo.toJSON_intact t = true /\
  (Sql.id r <> ""%string -> Todo.id t = JS.VStr (Sql.id r)).

(** A row whose [completed] is the integer 1 or 0, and a table of such
    rows. *)
Definition flagged (r : Sql.Row) : bool :=
  match Sql.completed r with
  | Sql.Flag _ => true
  | Sql.Text _ => false
  end.

Definition boolean_typed (tbl : list Sql.Row) : Prop :=
  Forall (fun r => flagged r = true) tbl.

(** What [toJSON] gives for an instance whose method is intact. *)
Definition json_of (t : Todo.t) : JS.object :=
  [ ("id", Todo.id t);
    ("user_id", Todo.user_id t);
    ("title", Todo.title t);
    ("description", Todo.description t);
    ("completed", JS.VBool (JS.truthy (Todo.completed t)));
    ("created_at", Todo.created_at t);
    ("updated_at", Todo.updated_at t) ].

(** The rows that do not belong to a user. *)
Definition foreign (u : string) (tbl : list Sql.Row) : list Sql.Row :=
  filter (fun r => negb (Sql.owned_by u r)) tbl.

(** PRIMARY KEY: no two rows share an id. *)
Definition primary_key (tbl : list Sql.Row) : Prop := NoDup (map Sql.id tbl).

(** The todo objects a response carries. *)
Definition todos_in (d : Http.data) : list JS.object :=
  match d with
  | Http.NoData => []
  | Http.TodoData j => [j]
  | Http.TodosData js _ => js
  end.

(** [a] was created no earlier than [b]. *)
Definition not_older (a b : Sql.Row) : Prop :=
  String.leb (Sql.created_at b) (Sql.created_at a) = true.

(** The creation time an instance shows, and the order on instances. *)
Definition created_text (t : Todo.t) : string :=
  match Todo.created_at t with
  | JS.VStr s => s
  | _ => ""%string
  end.

Definition listed_not_older (a b : Todo.t) : Prop :=
  String.leb (created_text b) (created_text a) = true.

(** The filter a status stands for in both queries. *)
Definition filter_of_status (status : JS.value) : option bool :=
  let status := JS.default status (JS.VStr "all") in
  if JS.strict_eq status (JS.VStr "completed") then Some true
  else if JS.strict_eq status (JS.VStr "pending") then Some false
  else None.

(** The options object the list handler builds. *)
Definition list_options (status : JS.value) (lim off : Z) : JS.object :=
  [("status", status); ("limit", JS.VNum lim); ("offset", JS.VNum off)].

(** [t[k]] for the data properties of an instance. *)
Definition property (k : string) (t : Todo.t) : JS.value :=
  if (k =? "id")%string then Todo.id t
  else if (k =? "user_id")%string then Todo.user_id t
  else if (k =? "title")%string then Todo.title t
  else if (k =? "description")%string then Todo.description t
  else if (k =? "completed")%string then Todo.completed t
  else if (k =? "created_at")%string then Todo.created_at t
  else if (k =? "updated_at")%string then Todo.updated_at t
  else JS.VUndefined.

(** The properties of an instance other than [updated_at]. *)
Definition framed_properties : list string :=
  ["id"; "user_id"; "title"; "description"; "completed"; "created_at"].

(** The partial update as the specification words it: a row in which only
    the supplied fields are changed and the updated timestamp is set to
    the current time. *)
Definition partial_update (payload : JS.object) (now : string) (r : Sql.Row) : Sql.Row :=
  Sql.mkRow (Sql.id r) (Sql.user_id r)
            (match JS.get "title" payload with
             | JS.VStr s => s
             | _ => Sql.title r
             end)
            (match JS.get "description" payload with
             | JS.VStr s => Some s
             | JS.VNull => None
             | _ => Sql.description r
             end)
            (match JS.get "completed" payload with
             | JS.VBool b => Sql.Flag b
             | _ => Sql.completed r
             end)
            (Sql.created_at r) now.

(** A supplied value is of the type the data model gives its field:
    a string title, a string or null description, a boolean completed. *)
Definition field_typed (kv : string * JS.value) : bool :=
  let '(k, v) := kv in
  if (k =? "title")%string then
    match v with JS.VStr _ => true | _ => false end
  else if (k =? "description")%string then
    match v with JS.VStr _ | JS.VNull => true | _ => false end
  else if (k =? "completed")%string then
    match v with JS.VBool _ => true | _ => false end
  else true.

Definition payload_typed (payload : JS.object) : Prop :=
  forall kv, In kv (Todo.collect_updates payload) -> field_typed kv = true.

(** The response of the [catch] branch of [PUT /:id]. *)
Definition update_failed : Http.response :=
  Http.failure 500 "Internal server error while updating todo" "UPDATE_TODO_ERROR".

(** The number the query validation stores for a parameter: what
    [parseInt] reads in it when it is given, the default when it is absent
    or empty. *)
Definition requested (dflt : Z) (v : JS.value) : Z :=
  if JS.truthy v then
    match JS.parseInt v with
    | Some n => n
    | None => dflt
    end
  else dflt.

(** The three grounds on which the query validation rejects. *)
Definition status_rejected (q : JS.object) : bool :=
  JS.truthy (JS.get "status" q)
  && negb (JS.includes ["all"; "completed"; "pending"] (JS.get "status" q)).

Definition limit_rejected (q : JS.object) : bool :=
  JS.truthy (JS.get "limit" q)
  && match JS.parseInt (JS.get "limit" q) with
     | Some n => (n <? 1) || (100 <? n)
     | None => true
     end.

Definition offset_rejected (q : JS.object) : bool :=
  JS.truthy (JS.get "offset" q)
  && match JS.parseInt (JS.get "offset" q) with
     | Some n => n <? 0
     | None => true
     end.

Definition query_rejected (q : JS.object) : bool :=
  status_rejected q || limit_rejected q || offset_rejected q.

(** The query after a successful validation. *)
Definition validated_query (q : JS.object) : JS.object :=
  JS.set "offset" (JS.VNum (requested 0 (JS.get "offset" q)))
         (JS.set "limit" (JS.VNum (requested 50 (JS.get "limit" q))) q).

(** A computation that leaves the table as it found it. *)
Definition keeps_table {A} (m : World.M A) : Prop :=
  forall w r w', m w = (r, w') -> World.table w' = World.table w.

(** A computation under which the table keeps respecting its primary key. *)
Definition keeps_primary_key {A} (m : World.M A) : Prop :=
  forall w r w', primary_key (World.table w) -> m w = (r, w') ->
                 primary_key (World.table w').

(** The world changed in nothing but the count of identifiers drawn. *)
Definition same_store (w w' : World.t) : Prop :=
  World.table w' = World.table w /\
  World.issued w' = World.issued w /\
  World.clock w' = World.clock w /\
  World.uuid_stream w' = World.uuid_stream w.

(* ================================================================== *)
(** ** Vocabulary of the further statements *)

(** The world after a sequence of requests has been served one after the
    other by a middleware. *)
Fixpoint serve (h : Http.middleware) (reqs : list Http.request) (w : World.t)
  : World.t :=
  match reqs with
  | [] => w
  | req :: rest => serve h rest (snd (h req w))
  end.

(** An identifier that is free: no row carries it and [uuidv4] will not
    yield it from now on. *)
Definition free_id (i : string) (w : World.t) : Prop :=
  find (Sql.has_id i) (World.table w) = None /\
  forall n, (World.uuid_drawn w <= n)%nat -> World.uuid_stream w n <> i.

(** A computation under which a free identifier stays free. *)
Definition keeps_free (i : string) {A} (m : World.M A) : Prop :=
  forall w r w', free_id i w -> m w = (r, w') -> free_id i w'.

(** The statements that only read. *)
Definition reads (s : Sql.stmt) : bool :=
  match s with
  | Sql.SelectTodoById _ | Sql.SelectTodosByUser _ _ _ _ | Sql.CountTodosByUser _ _ => true
  | _ => false
  end.

(** The description column [create] stores for the description it is
    given: none for an absent or empty one. *)
Definition stored_description (description : JS.value) : option string :=
  match JS.or description JS.VNull with
  | JS.VStr d => Some d
  | _ => None
  end.

(** The row [POST /api/todos] stores. *)
Definition created_row (i uid t : string) (description : JS.value) (now : string)
  : Sql.Row :=
  Sql.mkRow i uid t (stored_description description) false now now.

(** The step of an [UPDATE ... WHERE id = i] that applies a payload. *)
Definition update_step (payload : JS.object) (now i : string) (r : Sql.Row) : Sql.Row :=
  if Sql.has_id i r then partial_update payload now r else r.


(** The response of [handleValidationErrors] for the messages of the
    failed rules. *)
Definition validation_failed (errs : list string) : Http.response :=
  Http.mkResponse 400 false "Validation failed" (Some "VALIDATION_ERROR"%string)
                  errs Http.NoData.
(* ================================================================== *)
(** ** Further sample data *)

Module Cases.
Import JS Http.

(** A rule chain that asks for a title and leaves the body as it is. *)
Definition title_required (b : object) : object * list string :=
  (b, if truthy (get "title" b) then []
      else ["Title must be between 1 and 100 characters"%string]).

(** The router of the sample users with that chain on both routes. *)
Definition strict_router : middleware :=
  router Sample.verify Sample.findUserById title_required title_required.

(** A table in which the identifier [uuidv4] yields next is taken. *)
Definition taken : World.t :=
  Sample.world_of
    [ Sql.mkRow (Sample.uuids 0) "u-bob" "Call home" None false
                "2024-05-04 18:00:00" "2024-05-04 18:00:00" ].

End Cases.

(* ================================================================== *)
(** ** [sanitizeInput] of [backend/middleware/validation.js] *)

Module Sanitize.
Import JS Http.

(** [s.replace(/c/g, by)] for a pattern that is one literal character:
    every occurrence, from left to right, is replaced. *)
Fixpoint replace_all (c : ascii) (by_ : string) (s : string) : string :=
  match s with
  | EmptyString => EmptyString
  | String x rest =>
      if Ascii.eqb x c then by_ ++ replace_all c by_ rest
      else String x (replace_all c by_ rest)
  end.

(** The double quote character. *)
Definition double_quote : ascii := ascii_of_nat 34.

(** The chain of five [replace] calls. *)
Definition escape (s : string) : string :=
  replace_all "/" "&#x2F;"
    (replace_all "'" "&#x27;"
       (replace_all double_quote "&quot;"
          (replace_all ">" "&gt;"
             (replace_all "<" "&lt;" s)))).

(** The inner [sanitizeString]: a value that is no string is returned
    as it is. *)
Definition sanitizeString (str : value) : value :=
  match str with
  | VStr s => VStr (escape s)
  | _ => str
  end.

(** [for (const [key, value] of Object.entries(o)) if (typeof value ===
    'string') o[key] = sanitizeString(value)]: the entries are read once,
    before the loop, and the assignments go to the object itself. *)
Definition sanitize_entries (o : object) : object :=
  fold_left (fun acc kv =>
               match snd kv with
               | VStr _ => set (fst kv) (sanitizeString (snd kv)) acc
               | _ => acc
               end)
            o o.

(** [sanitizeInput]; [req.body] and [req.query] are objects here, so both
    guards pass. *)
Definition sanitizeInput : middleware :=
  pure (fun req =>
          let req1 := with_body (sanitize_entries (body req)) req in
          Next (with_query (sanitize_entries (query req1)) req1)).

End Sanitize.

(** The characters [sanitizeString] replaces. *)
Definition markup : list ascii :=
  ["<"; ">"; Sanitize.double_quote; "'"; "/"]%char.

(** A text in which none of them occurs. *)
Definition free_of_markup (s : string) : bool :=
  forallb (fun x => negb (existsb (Ascii.eqb x) markup)) (list_ascii_of_string s).

(** What the chain of replacements makes of one character. *)
Definition escape_char (x : ascii) : string :=
  if Ascii.eqb x "<" then "&lt;"
  else if Ascii.eqb x ">" then "&gt;"
  else if Ascii.eqb x Sanitize.double_quote then "&quot;"
  else if Ascii.eqb x "'" then "&#x27;"
  else if Ascii.eqb x "/" then "&#x2F;"
  else String x EmptyString.

(* ================================================================== *)
(** ** [frontend/js/router.js] and the routes of the application

    The hash router is followed over the part of the page it reads and
    writes: the fragment of the URL, the [hashchange] events waiting to be
    dispatched, the token in the local storage, the answer of
    [auth.isAuthenticated()], and the pages [showPage] has uncovered since
    the last [hideAllPages].  A call of [handleRouteChange] is followed to
    its end before the next event is dispatched.  The route handlers of
    the application are followed as far as they touch that state: the
    loading of the todos and the focus of an input are not part of it, nor
    is the hook that runs after a route change, which only sets the title
    and scrolls. *)

Module Spa.
Import JS.

Record t : Type := mk {
  fragment : option string;     (* of the URL, [None] when it has none *)
  pending : nat;                (* [hashchange] events not yet dispatched *)
  token : option string;        (* [localStorage.getItem("token")] *)
  session : bool;               (* [auth.isAuthenticated()] *)
  shown : list string;          (* pages uncovered since the last [hideAllPages] *)
  ran : list string;            (* paths whose route handler has been called *)
  currentRoute : option string;
  routeState : option object
}.

(** [s.substring(1)]. *)
Definition substring_1 (s : string) : string :=
  match s with
  | String _ rest => rest
  | EmptyString => EmptyString
  end.

(** [s.split(sep)] for a separator of one character. *)
Fixpoint split (sep : ascii) (s : string) : list string :=
  match s with
  | EmptyString => [EmptyString]
  | String c rest =>
      if Ascii.eqb c sep then EmptyString :: split sep rest
      else match split sep rest with
           | seg :: segs => String c seg :: segs
           | [] => [String c EmptyString]
           end
  end.

(** A route as [addRoute] stores it; an option that is not given is
    [undefined], which the guards read as false. *)
Record route : Type := mkRoute {
  handler : t -> bool * t;      (* [false] when the handler throws *)
  authRequired : bool;
  authRedirect : bool
}.

(** The [Map] of the routes: [get] and [set]. *)
Fixpoint routes_get (path : string) (routes : list (string * route)) : option route :=
  match routes with
  | [] => None
  | (p, r) :: rest => if (p =? path)%string then Some r else routes_get path rest
  end.

Fixpoint routes_set (path : string) (r : route) (routes : list (string * route))
  : list (string * route) :=
  match routes with
  | [] => [(path, r)]
  | (p, r') :: rest =>
      if (p =? path)%string then (path, r) :: rest
      else (p, r') :: routes_set path r rest
  end.

(** What the router holds beside the page: the routes and the hook that
    runs before a route change. *)
Record router : Type := mkRouter {
  routes : list (string * route);
  beforeRouteChange : option (string -> option route -> t -> bool * t)
}.

(** [new Router()], before any route is added. *)
Definition new_router : router := mkRouter [] None.

(** [addRoute(path, handler, options)]. *)
Definition addRoute (path : string) (r : route) (rt : router) : router :=
  mkRouter (routes_set path r (routes rt)) (beforeRouteChange rt).

(** [setBeforeRouteChange(hook)]. *)
Definition setBeforeRouteChange (hook : string -> option route -> t -> bool * t)
           (rt : router) : router :=
  mkRouter (routes rt) (Some hook).

Section Location.

(** The fragment the URL parser makes of the text given to
    [window.location.hash], once a leading [#] has been taken off. *)
Variable parse_fragment : string -> string.

(** Reading [window.location.hash]. *)
Definition location_hash (st : t) : string :=
  match fragment st with
  | None => ""
  | Some f => if (f =? "")%string then "" else String "#" f
  end.

(** Writing [window.location.hash]: nothing happens when the fragment is
    the one the URL has; otherwise the URL changes and a [hashchange]
    event is queued. *)
Definition set_location_hash (v : string) (st : t) : t :=
  let input := if String.prefix "#" v then substring_1 v else v in
  let f := parse_fragment input in
  let same := match fragment st with
              | Some f0 => (f0 =? f)%string
              | None => false
              end in
  if same then st
  else mk (Some f) (S (pending st)) (token st) (session st) (shown st) (ran st)
          (currentRoute st) (routeState st).

(** [navigate(path, state = {})]. *)
Definition navigate (path : string) (state : object) (st : t) : t :=
  let path := if String.prefix "/" path then substring_1 path else path in
  let st1 := set_location_hash path st in
  match state with
  | [] => st1
  | _ :: _ => mk (fragment st1) (pending st1) (token st1) (session st1) (shown st1)
                 (ran st1) (currentRoute st1) (Some state)
  end.

(** [getCurrentPath()]. *)
Definition getCurrentPath (st : t) : string :=
  let hash := substring_1 (location_hash st) in
  if (hash =? "")%string then "/" else hash.

(** [isAuthenticated()] of the router: [!!token]. *)
Definition isAuthenticated (st : t) : bool :=
  match token st with
  | Some tok => negb (tok =? "")%string
  | None => false
  end.

(** [hideAllPages()] and [showPage(pageId)]. *)
Definition hideAllPages (st : t) : t :=
  mk (fragment st) (pending st) (token st) (session st) [] (ran st)
     (currentRoute st) (routeState st).

Definition showPage (pageId : string) (st : t) : t :=
  mk (fragment st) (pending st) (token st) (session st) (pageId :: shown st) (ran st)
     (currentRoute st) (routeState st).

(** [handleNotFound()] and the redirect of [handleRouteError(error, path)]. *)
Definition handleNotFound (st : t) : t :=
  if isAuthenticated st then navigate "/todos" [] st else navigate "/login" [] st.

Definition handleRouteError (st : t) : t :=
  if isAuthenticated st then navigate "/todos" [] st else navigate "/login" [] st.

(** [handleRouteChange()]. *)
Definition handleRouteChange (rt : router) (st : t) : t :=
  let path := getCurrentPath st in
  let route := routes_get path (routes rt) in
  let '(shouldContinue, st1) :=
    match beforeRouteChange rt with
    | Some hook => hook path route st
    | None => (true, st)
    end in
  if negb shouldContinue then st1
  else
    let st2 := hideAllPages st1 in
    match route with
    | Some r =>
        if authRequired r && negb (isAuthenticated st2) then navigate "/login" [] st2
        else if authRedirect r && isAuthenticated st2 then navigate "/todos" [] st2
        else
          match handler r (mk (fragment st2) (pending st2) (token st2) (session st2)
                              (shown st2) (path :: ran st2) (currentRoute st2)
                              (routeState st2)) with
          | (true, st3) =>
              mk (fragment st3) (pending st3) (token st3) (session st3) (shown st3)
                 (ran st3) (Some path) None
          | (false, st3) => handleRouteError st3
          end
    | None => handleNotFound st2
    end.

(** The event loop: the queued [hashchange] events are dispatched one
    after the other to [handleRouteChange]. *)
Fixpoint dispatch_events (fuel : nat) (rt : router) (st : t) : t :=
  match fuel with
  | O => st
  | S fuel' =>
      match pending st with
      | O => st
      | S n =>
          dispatch_events fuel' rt
            (handleRouteChange rt
               (mk (fragment st) n (token st) (session st) (shown st) (ran st)
                   (currentRoute st) (routeState st)))
      end
  end.

(** [params[paramName] = segment] on [params], which starts as the object
    literal [{}]: the name [__proto__] reaches the accessor of
    [Object.prototype], which ignores a text, so that no property is
    created; any other name becomes an own property. *)
Definition assign_param (paramName segment : string) (params : object) : object :=
  if (paramName =? "__proto__")%string then params
  else set paramName (VStr segment) params.

(** The loop of [getRouteParams]: a segment of the pattern that starts
    with a colon names the segment of the path at its place. *)
Fixpoint bind_params (pathSegments currentSegments : list string) (params : object)
  : object :=
  match pathSegments, currentSegments with
  | p :: ps, c :: cs =>
      bind_params ps cs
        (if String.prefix ":" p then assign_param (substring_1 p) c params else params)
  | _, _ => params
  end.

(** [getRouteParams(path)]. *)
Definition getRouteParams (path : string) (st : t) : object :=
  let pathSegments := split "/" path in
  let currentSegments := split "/" (getCurrentPath st) in
  if negb (List.length pathSegments =? List.length currentSegments)%nat then []
  else bind_params pathSegments currentSegments [].

(** The loop of [matchesRoute]. *)
Fixpoint segments_match (patternSegments currentSegments : list string) : bool :=
  match patternSegments, currentSegments with
  | p :: ps, c :: cs =>
      if negb (String.prefix ":" p) && negb (p =? c)%string then false
      else segments_match ps cs
  | _, _ => true
  end.

(** [matchesRoute(pattern)]. *)
Definition matchesRoute (pattern : string) (st : t) : bool :=
  let patternSegments := split "/" pattern in
  let currentSegments := split "/" (getCurrentPath st) in
  if negb (List.length patternSegments =? List.length currentSegments)%nat then false
  else segments_match patternSegments currentSegments.

(** *** The application: [TodoApp.setupRouting] and its handlers *)

(** [handleBeforeRouteChange(path, route)]. *)
Definition handleBeforeRouteChange (path : string) (route : option route) (st : t)
  : bool * t :=
  match route with
  | Some r =>
      if authRequired r && negb (session st) then (false, navigate "/login" [] st)
      else if authRedirect r && session st then (false, navigate "/todos" [] st)
      else (true, st)
  | None => (true, st)
  end.

(** [handleHomeRoute()]. *)
Definition handleHomeRoute (st : t) : bool * t :=
  (true, if session st then navigate "/todos" [] st else navigate "/login" [] st).

(** [handleLoginRoute()], [handleRegisterRoute()] and [handleTodosRoute()]. *)
Definition handleLoginRoute (st : t) : bool * t := (true, showPage "login-page" st).

Definition handleRegisterRoute (st : t) : bool * t := (true, showPage "register-page" st).

Definition handleTodosRoute (st : t) : bool * t := (true, showPage "todos-page" st).

(** [setupRouting()]. *)
Definition setupRouting (rt : router) : router :=
  addRoute "/todos" (mkRoute handleTodosRoute true false)
    (addRoute "/register" (mkRoute handleRegisterRoute false true)
       (addRoute "/login" (mkRoute handleLoginRoute false true)
          (addRoute "/" (mkRoute handleHomeRoute false false)
             (setBeforeRouteChange handleBeforeRouteChange rt)))).

End Location.

End Spa.

(** A text the URL parser leaves as it is: letters, digits and the
    characters [/], [-], [_], [.] and [:]. *)
Definition plain_char (c : ascii) : bool :=
  let n := nat_of_ascii c in
  ((48 <=? n) && (n <=? 58) || (65 <=? n) && (n <=? 90) || (97 <=? n) && (n <=? 122)
   || (n =? 45) || (n =? 46) || (n =? 47) || (n =? 95))%nat.

Definition plain (s : string) : bool := forallb plain_char (list_ascii_of_string s).

(** Where the router sends a visitor it has no page for. *)
Definition landing (st : Spa.t) : string :=
  if Spa.isAuthenticated st then "todos" else "login".

(** The pages of the application. *)
Definition page_of (path : string) : string :=
  if (path =? "/login")%string then "login-page"
  else if (path =? "/register")%string then "register-page"
  else "todos-page".

(** The page once the URL has been given a fragment: as it was when the
    URL has that fragment already, with one more event otherwise. *)
Definition arrive (f : string) (st : Spa.t) : Spa.t :=
  if match Spa.fragment st with
     | Some f0 => (f0 =? f)%string
     | None => false
     end
  then st
  else Spa.mk (Some f) (S (Spa.pending st)) (Spa.token st) (Spa.session st)
              (Spa.shown st) (Spa.ran st) (Spa.currentRoute st) (Spa.routeState st).

(** The page after the visitor has followed a link to the fragment [f]: the
    URL has changed and the event is waiting. *)
Definition follow (f : string) (st : Spa.t) : Spa.t :=
  Spa.mk (Some f) 1 (Spa.token st) (Spa.session st) (Spa.shown st) (Spa.ran st)
         (Spa.currentRoute st) (Spa.routeState st).

(** The fragments for which the guards of the application let a page
    through: the todos for a visitor with a token and a session, the login
    and registration forms for one with neither. *)
Definition let_through (f : string) (st : Spa.t) : bool :=
  (f =? "/todos")%string && Spa.session st && Spa.isAuthenticated st
  || ((f =? "/login")%string || (f =? "/register")%string)
     && negb (Spa.session st) && negb (Spa.isAuthenticated st).

(** The loading of the page: [new Router()] handles the route at once,
    with no route added yet; the events it causes are dispatched to the
    router as it is by then. *)
Definition page_load (parse_fragment : string -> string) (rt : Spa.router)
           (fuel : nat) (st : Spa.t) : Spa.t :=
  Spa.dispatch_events parse_fragment fuel rt
    (Spa.handleRouteChange parse_fragment Spa.new_router st).

(** Sample visitors. *)
Module Visits.

(** The URL parser on texts in which no character needs escaping. *)
Definition as_typed (s : string) : string := s.

(** A first visit: no fragment, no token, no session, the loading page
    uncovered. *)
Definition stranger : Spa.t := Spa.mk None 0 None false ["loading-page"] [] None None.

(** A visitor who has logged in. *)
Definition member : Spa.t :=
  Spa.mk (Some "/login") 0 (Some "eyJhbGciOiJIUzI1NiJ9") true ["login-page"] ["/login"]
         (Some "/login") None.

(** The application once its routes are set up. *)
Definition app : Spa.router := Spa.setupRouting as_typed Spa.new_router.

End Visits.

(* ================================================================== *)
(** ** The [users] table and the class [User] of [backend/models]

    The accounts live in their own table, so the model methods of [User]
    run over a world of their own: the rows of [users], the database
    clock, the identifiers [uuidv4] will return and the salts [bcrypt]
    will draw.  [bcrypt] itself is a parameter. *)

Module Accounts.
Import JS.

(** A row of [users], typed by the schema of [database.js]:
    [id TEXT PRIMARY KEY], [username TEXT UNIQUE NOT NULL],
    [email TEXT UNIQUE NOT NULL], [password_hash TEXT NOT NULL],
    [created_at] and [updated_at DATETIME DEFAULT CURRENT_TIMESTAMP]. *)
Record Row : Type := mkRow {
  id : string;
  username : string;
  email : string;
  password_hash : string;
  created_at : string;
  updated_at : string
}.

Inductive error : Type :=
| Constraint       (* PRIMARY KEY, UNIQUE or NOT NULL violated *)
| OutsideSchema    (* a bound value that is not of the declared type of
                      its column *)
| BcryptError.     (* [bcrypt] rejects what is not a string *)

Inductive result (A : Type) : Type :=
| Ok (a : A)
| Err (e : error).
Arguments Ok {A} a.
Arguments Err {A} e.

Record t : Type := mk {
  table : list Row;            (* the rows of [users], in insertion order *)
  clock : string;              (* what CURRENT_TIMESTAMP evaluates to *)
  uuid_stream : nat -> string; (* the identifiers [uuidv4] returns, in order *)
  uuid_drawn : nat;
  salt_stream : nat -> string; (* the salts [bcrypt.hash] generates, in order *)
  salt_drawn : nat
}.

Definition M (A : Type) : Type := t -> result A * t.

Definition ret {A} (a : A) : M A := fun w => (Ok a, w).

Definition throw {A} (e : error) : M A := fun w => (Err e, w).

Definition bind {A B} (m : M A) (k : A -> M B) : M B :=
  fun w =>
    match m w with
    | (Ok a, w') => k a w'
    | (Err e, w') => (Err e, w')
    end.

Definition lift {A} (r : result A) : M A := fun w => (r, w).

Definition uuidv4 : M string :=
  fun w => (Ok (uuid_stream w (uuid_drawn w)),
            mk (table w) (clock w) (uuid_stream w) (S (uuid_drawn w))
               (salt_stream w) (salt_drawn w)).

Definition gen_salt : M string :=
  fun w => (Ok (salt_stream w (salt_drawn w)),
            mk (table w) (clock w) (uuid_stream w) (uuid_drawn w)
               (salt_stream w) (S (salt_drawn w))).

(** A text bound to a NOT NULL column. *)
Definition bind_text_not_null (v : value) : result string :=
  match v with
  | VStr s => Ok s
  | VNull | VUndefined => Err Constraint
  | _ => Err OutsideSchema
  end.

(** A text bound to the primary key; the model does not follow a row
    without an id. *)
Definition bind_key (v : value) : result string :=
  match v with
  | VStr s => Ok s
  | _ => Err OutsideSchema
  end.

(** A value bound to the placeholder of [WHERE column = ?]: nothing is
    equal to NULL. *)
Definition bind_lookup (v : value) : result (option string) :=
  match v with
  | VStr s => Ok (Some s)
  | VNull | VUndefined => Ok None
  | _ => Err OutsideSchema
  end.

Definition has_id (i : string) (r : Row) : bool := (id r =? i)%string.
Definition has_username (u : string) (r : Row) : bool := (username r =? u)%string.
Definition has_email (e : string) (r : Row) : bool := (email r =? e)%string.

(** [INSERT INTO users (id, username, email, password_hash)
    VALUES (?, ?, ?, ?)]. *)
Definition run_insert (i u e h : value) : M unit :=
  bind (lift (bind_key i)) (fun i' =>
  bind (lift (bind_text_not_null u)) (fun u' =>
  bind (lift (bind_text_not_null e)) (fun e' =>
  bind (lift (bind_text_not_null h)) (fun h' =>
  fun w =>
    if existsb (has_id i') (table w) || existsb (has_username u') (table w)
       || existsb (has_email e') (table w)
    then (Err Constraint, w)
    else (Ok tt,
          mk (table w ++ [mkRow i' u' e' h' (clock w) (clock w)]) (clock w)
             (uuid_stream w) (uuid_drawn w) (salt_stream w) (salt_drawn w)))))).

(** [db.get('SELECT * FROM users WHERE column = ?', [v])]: the first row,
    if any. *)
Definition get_where (column : string -> Row -> bool) (v : value) : M (option Row) :=
  bind (lift (bind_lookup v)) (fun v' =>
  fun w =>
    (Ok match v' with
        | Some s => find (column s) (table w)
        | None => None
        end, w)).

End Accounts.

Module UserModel.
Import JS Accounts.

Section Bcrypt.

(** [bcrypt.hash(password, saltRounds)] for the salt it has generated, and
    [bcrypt.compare(password, hash)]. *)
Variable bcrypt_hash : string -> Z -> string -> string.
Variable bcrypt_compare : string -> string -> bool.

(** An instance of [User]. *)
Record t : Type := mk {
  id : value;
  username : value;
  email : value;
  password_hash : value;
  created_at : value;
  updated_at : value
}.

(** The object the driver builds for a row. *)
Definition row_object (r : Row) : object :=
  [ ("id", VStr (Accounts.id r));
    ("username", VStr (Accounts.username r));
    ("email", VStr (Accounts.email r));
    ("password_hash", VStr (Accounts.password_hash r));
    ("created_at", VStr (Accounts.created_at r));
    ("updated_at", VStr (Accounts.updated_at r)) ].

(** [constructor(data)]. *)
Definition new (data : object) : M t :=
  bind (if truthy (get "id" data) then ret (get "id" data)
        else bind uuidv4 (fun u => ret (VStr u)))
       (fun i =>
          ret (mk i (get "username" data) (get "email" data)
                  (get "password_hash" data) (get "created_at" data)
                  (get "updated_at" data))).

(** [await bcrypt.hash(password, saltRounds)]. *)
Definition hash (password : value) (saltRounds : Z) : M string :=
  match password with
  | VStr p => bind gen_salt (fun salt => ret (bcrypt_hash p saltRounds salt))
  | _ => throw BcryptError
  end.

(** [static async create(userData)]. *)
Definition create (userData : object) : M t :=
  let saltRounds := 10 in
  bind (hash (get "password" userData) saltRounds) (fun hashed =>
  bind (new [ ("username", get "username" userData);
              ("email", get "email" userData);
              ("password_hash", VStr hashed) ]) (fun user =>
  bind (run_insert (id user) (username user) (email user) (password_hash user))
       (fun _ => ret user))).

(** [resolve(row ? new User(row) : null)]. *)
Definition resolve (row : option Row) : M (option t) :=
  match row with
  | Some r => bind (new (row_object r)) (fun user => ret (Some user))
  | None => ret None
  end.

(** [static async findByEmail(email)], [findByUsername(username)] and
    [findById(id)]: [None] is [null]. *)
Definition findByEmail (email : value) : M (option t) :=
  bind (get_where has_email email) resolve.

Definition findByUsername (username : value) : M (option t) :=
  bind (get_where has_username username) resolve.

Definition findById (i : value) : M (option t) :=
  bind (get_where has_id i) resolve.

(** [async verifyPassword(password)]. *)
Definition verifyPassword (this : t) (password : value) : M bool :=
  match password, password_hash this with
  | VStr p, VStr h => ret (bcrypt_compare p h)
  | _, _ => throw BcryptError
  end.

(** [toJSON()]. *)
Definition toJSON (this : t) : object :=
  [ ("id", id this);
    ("username", username this);
    ("email", email this);
    ("created_at", created_at this);
    ("updated_at", updated_at this) ].

(** [static async emailExists(email)] and [usernameExists(username)]. *)
Definition emailExists (email : value) : M bool :=
  bind (findByEmail email) (fun user =>
  ret (match user with Some _ => true | None => false end)).

Definition usernameExists (username : value) : M bool :=
  bind (findByUsername username) (fun user =>
  ret (match user with Some _ => true | None => false end)).

End Bcrypt.

End UserModel.

(** The three keys of [users]: no two rows share an id, a username or an
    email. *)
Definition accounts_unique (tbl : list Accounts.Row) : Prop :=
  NoDup (map Accounts.id tbl) /\
  NoDup (map Accounts.username tbl) /\
  NoDup (map Accounts.email tbl).

(** The world after a sequence of registrations, whatever their outcome. *)
Fixpoint register_all (bcrypt_hash : string -> Z -> string -> string)
         (requests : list JS.object) (w : Accounts.t) : Accounts.t :=
  match requests with
  | [] => w
  | userData :: rest =>
      register_all bcrypt_hash rest (snd (UserModel.create bcrypt_hash userData w))
  end.

(** The instance [new User(row)] builds for a row with a non-empty id. *)
Definition user_of_row (r : Accounts.Row) : UserModel.t :=
  UserModel.mk (JS.VStr (Accounts.id r)) (JS.VStr (Accounts.username r))
               (JS.VStr (Accounts.email r)) (JS.VStr (Accounts.password_hash r))
               (JS.VStr (Accounts.created_at r)) (JS.VStr (Accounts.updated_at r)).

(** Sample accounts. *)
Module Members.

(** A stand-in for [bcrypt]: the hash is the salt followed by the
    password, and a password is accepted by the hashes that end with it. *)
Definition tagged_hash (password : string) (saltRounds : Z) (salt : string) : string :=
  (salt ++ password)%string.

Fixpoint tagged_compare (password hash : string) : bool :=
  match hash with
  | EmptyString => (hash =? password)%string
  | String _ rest => (hash =? password)%string || tagged_compare password rest
  end.

Definition alice : Accounts.Row :=
  Accounts.mkRow "u-alice" "alice" "a@x.com" "s4lthunter22"
                 "2024-04-01 08:00:00" "2024-04-01 08:00:00".

Definition bob : Accounts.Row :=
  Accounts.mkRow "u-bob" "bob" "b@x.com" "s4ltletmein"
                 "2024-04-02 08:00:00" "2024-04-02 08:00:00".

Definition world : Accounts.t :=
  Accounts.mk [alice; bob] Sample.now Sample.uuids 0 (fun _ => "s4lt"%string) 0.

End Members.

(* ================================================================== *)
(** ** The todo manager of the frontend

    [TodoManager] is followed over its own state, [this.todos] and
    [this.filter], and the calls it makes to the API client; what it
    writes to the document is not part of the model.  The outcome of a
    call to the API, the answer to [confirm] and the order [Array.sort]
    gives with the comparator of the dates are parameters. *)

Module TodoManager.
Import JS.

Record t : Type := mk {
  todos : list object;     (* [this.todos], an array of todo objects *)
  filter : value           (* [this.filter] *)
}.

(** The calls to the API client. *)
Inductive call : Type :=
| ToggleTodo (id completed : value)    (* [api.toggleTodo(id, completed)] *)
| DeleteTodo (id : value).             (* [api.deleteTodo(id)] *)

(** [parseInt(event.target.dataset.todoId)]. *)
Definition todoId_of (dataset_todoId : value) : value :=
  of_number (parseInt dataset_todoId).

(** [todo.completed = v] on the todo [this.todos.find(t => t.id === todoId)]
    returns, if any: the first one. *)
Fixpoint assign_completed (todoId v : value) (todos : list object) : list object :=
  match todos with
  | [] => []
  | t :: rest =>
      if strict_eq (get "id" t) todoId then set "completed" v t :: rest
      else t :: assign_completed todoId v rest
  end.

(** [handleToggleTodo(event)]: the state, the calls made and whether an
    error is shown. *)
Definition handleToggleTodo (dataset_todoId checked : value) (api_succeeds : bool)
           (this : t) : t * list call * bool :=
  let todoId := todoId_of dataset_todoId in
  let completed := checked in
  let optimistic := assign_completed todoId completed (todos this) in
  if api_succeeds then
    (mk optimistic (filter this), [ToggleTodo todoId completed], false)
  else
    (mk (assign_completed todoId (VBool (negb (truthy completed))) optimistic)
        (filter this),
     [ToggleTodo todoId completed], true).

Section Sorting.

(** [todos.sort((a, b) => new Date(b.created_at) - new Date(a.created_at))]. *)
Variable sort_by_date : list object -> list object.

(** [handleDeleteTodo(event)]: the state and the calls made. *)
Definition handleDeleteTodo (dataset_todoId : value) (confirmed api_succeeds : bool)
           (this : t) : t * list call :=
  let todoId := todoId_of dataset_todoId in
  match find (fun t => strict_eq (get "id" t) todoId) (todos this) with
  | None => (this, [])
  | Some todo =>
      if negb confirmed then (this, [])
      else
        let kept := List.filter (fun t => negb (strict_eq (get "id" t) todoId))
                                (todos this) in
        if api_succeeds then (mk kept (filter this), [DeleteTodo todoId])
        else (mk (sort_by_date (kept ++ [todo])) (filter this), [DeleteTodo todoId])
  end.

End Sorting.

(** [getFilteredTodos()]. *)
Definition getFilteredTodos (this : t) : list object :=
  if strict_eq (filter this) (VStr "completed")
  then List.filter (fun todo => truthy (get "completed" todo)) (todos this)
  else if strict_eq (filter this) (VStr "pending")
  then List.filter (fun todo => negb (truthy (get "completed" todo))) (todos this)
  else todos this.

(** [getTodosCount()], [getCompletedCount()] and [getPendingCount()]. *)
Definition getTodosCount (this : t) : nat := List.length (todos this).

Definition getCompletedCount (this : t) : nat :=
  List.length (List.filter (fun todo => truthy (get "completed" todo)) (todos this)).

Definition getPendingCount (this : t) : nat :=
  List.length (List.filter (fun todo => negb (truthy (get "completed" todo))) (todos this)).

End TodoManager.

(** A todo as the API returns it has a string for its id. *)
Definition string_id (todo : JS.object) : Prop :=
  exists i, JS.get "id" todo = JS.VStr i.

(* ================================================================== *)
(** ** [isValidEmail] of the helpers, and the regular expressions it needs *)

Module RegExp.

(** Regular expressions without groups to remember: a character class,
    sequence, alternative and repetition.  [r+] is [r] followed by [r*]. *)
Inductive t : Type :=
| Void
| Eps
| Class (p : ascii -> bool)
| Seq (r s : t)
| Alt (r s : t)
| Star (r : t).

Definition Plus (r : t) : t := Seq r (Star r).

Fixpoint nullable (r : t) : bool :=
  match r with
  | Void => false
  | Eps => true
  | Class _ => false
  | Seq r s => nullable r && nullable s
  | Alt r s => nullable r || nullable s
  | Star _ => true
  end.

(** What is left of [r] to match once the character [c] has been read. *)
Fixpoint deriv (c : ascii) (r : t) : t :=
  match r with
  | Void => Void
  | Eps => Void
  | Class p => if p c then Eps else Void
  | Seq r s =>
      if nullable r then Alt (Seq (deriv c r) s) (deriv c s)
      else Seq (deriv c r) s
  | Alt r s => Alt (deriv c r) (deriv c s)
  | Star r => Seq (deriv c r) (Star r)
  end.

(** [/^r$/.test(s)]. *)
Fixpoint test (r : t) (s : string) : bool :=
  match s with
  | EmptyString => nullable r
  | String c rest => test (deriv c r) rest
  end.

End RegExp.

Module Email.

(** [[^\s@]]: white space is read as in [parseInt] above. *)
Definition no_space_no_at (c : ascii) : bool :=
  negb (JS.is_white_space c || Ascii.eqb c "@").

(** [/^[^\s@]+@[^\s@]+\.[^\s@]+$/]. *)
Definition emailRegex : RegExp.t :=
  RegExp.Seq (RegExp.Plus (RegExp.Class no_space_no_at))
    (RegExp.Seq (RegExp.Class (Ascii.eqb "@"))
       (RegExp.Seq (RegExp.Plus (RegExp.Class no_space_no_at))
          (RegExp.Seq (RegExp.Class (Ascii.eqb "."))
             (RegExp.Plus (RegExp.Class no_space_no_at))))).

(** A text of ASCII characters: the model does not follow the test on
    others, among which the expression knows further white space. *)
Definition is_ascii (s : string) : bool :=
  forallb (fun c => (nat_of_ascii c <? 128)%nat) (list_ascii_of_string s).

(** [isValidEmail(email)] for a string. *)
Definition isValidEmail (email : string) : option bool :=
  if is_ascii email then Some (RegExp.test emailRegex email) else None.

End Email.

(** The texts a regular expression stands for. *)
Inductive in_language : RegExp.t -> string -> Prop :=
| in_eps : in_language RegExp.Eps EmptyString
| in_class p c : p c = true -> in_language (RegExp.Class p) (String c EmptyString)
| in_seq r s a b :
    in_language r a -> in_language s b -> in_language (RegExp.Seq r s) (a ++ b)
| in_alt_l r s a : in_language r a -> in_language (RegExp.Alt r s) a
| in_alt_r r s a : in_language s a -> in_language (RegExp.Alt r s) a
| in_star_nil r : in_language (RegExp.Star r) EmptyString
| in_star_cons r a b :
    in_language r a -> in_language (RegExp.Star r) b ->
    in_language (RegExp.Star r) (a ++ b).

(** A part of an address: at least one character, none of them white
    space or [@]. *)
Definition address_part (s : string) : Prop :=
  s <> EmptyString /\
  forallb Email.no_space_no_at (list_ascii_of_string s) = true.

(** How often a character occurs in a text. *)
Fixpoint occurrences (c : ascii) (s : string) : nat :=
  match s with
  | EmptyString => O
  | String x rest => ((if Ascii.eqb x c then 1 else 0) + occurrences c rest)%nat
  end.

(* ================================================================== *)
(** ** [sanitizeString] of the helper utilities *)

Module HelpersText.
Import JS.

(** [s.trim()], white space being read as in [parseInt] above: the end
    first, then the beginning. *)
Fixpoint trim_end (s : string) : string :=
  match s with
  | EmptyString => EmptyString
  | String c rest =>
      match trim_end rest with
      | EmptyString => if is_white_space c then EmptyString else String c EmptyString
      | kept => String c kept
      end
  end.

Definition trim (s : string) : string := strip_leading_white_space (trim_end s).

(** [sanitizeString(input)]: the five replacements of the validation
    middleware, then [trim()]. *)
Definition sanitizeString (input : value) : value :=
  match input with
  | VStr s => VStr (trim (Sanitize.escape s))
  | _ => input
  end.

End HelpersText.

(* ================================================================== *)
(** ** Elementary facts *)

Lemma bind_ok {A B} (m : World.M A) (k : A -> World.M B) w a w' :
  m w = (Sql.Ok a, w') -> World.bind m k w = k a w'.
Proof. intros H. unfold World.bind. now rewrite H. Qed.

Lemma bind_err {A B} (m : World.M A) (k : A -> World.M B) w e w' :
  m w = (Sql.Err e, w') -> World.bind m k w = (Sql.Err e, w').
Proof. intros H. unfold World.bind. now rewrite H. Qed.

Lemma issue_logged s w : World.issue s w = (Sql.Ok tt, logged s w).
Proof. reflexivity. Qed.

Lemma same_store_refl w : same_store w w.
Proof. repeat split. Qed.

Lemma same_store_trans w1 w2 w3 :
  same_store w1 w2 -> same_store w2 w3 -> same_store w1 w3.
Proof.
  intros (T1 & I1 & C1 & U1) (T2 & I2 & C2 & U2).
  repeat split; congruence.
Qed.

Lemma string_eqb_false_neq (a b : string) : a <> b -> (a =? b)%string = false.
Proof. intros H. now apply String.eqb_neq. Qed.

Lemma truthy_str s : s <> ""%string -> JS.truthy (JS.VStr s) = true.
Proof. intros H. simpl. now rewrite (string_eqb_false_neq s "" H). Qed.

Lemma get_set_same k v o : JS.get k (JS.set k v o) = v.
Proof.
  induction o as [|[k' v'] o IH]; simpl.
  - now rewrite String.eqb_refl.
  - destruct (k' =? k)%string eqn:E; simpl.
    + now rewrite String.eqb_refl.
    + now rewrite E.
Qed.

Lemma get_set_other k k' v o : k <> k' -> JS.get k' (JS.set k v o) = JS.get k' o.
Proof.
  intros Hk. induction o as [|[k0 v0] o IH]; simpl.
  - now rewrite (string_eqb_false_neq k k' Hk).
  - destruct (k0 =? k)%string eqn:E; simpl.
    + apply String.eqb_eq in E. subst k0.
      now rewrite (string_eqb_false_neq k k' Hk).
    + destruct (k0 =? k')%string; auto.
Qed.

(* ================================================================== *)
(** ** The model methods, statement by statement *)

Ltac run_world :=
  unfold World.bind, World.lift, World.ret, World.throw, World.issue; simpl.

Lemma new_row_object r w :
  Sql.id r <> ""%string ->
  Todo.new (Todo.row_object r) w = (Sql.Ok (instance_of_row r), w).
Proof.
  intros Hid. unfold Todo.new, instance_of_row. run_world.
  rewrite (string_eqb_false_neq _ _ Hid). simpl.
  unfold JS.or. simpl.
  destruct (Sql.description r) as [d|]; simpl;
    [destruct (d =? "")%string; simpl|]; destruct (Sql.completed r); reflexivity.
Qed.

Lemma new_row_object_any r w :
  exists t w',
    Todo.new (Todo.row_object r) w = (Sql.Ok t, w') /\ reflects t r /\ same_store w w'.
Proof.
  destruct (string_dec (Sql.id r) "") as [E|N].
  - unfold Todo.new. run_world. rewrite E. simpl.
    eexists; eexists; split; [reflexivity|].
    split; [|repeat split].
    unfold reflects, instance_of_row, JS.or; simpl.
    repeat split; try (intros C; contradiction);
      destruct (Sql.description r) as [d|]; simpl;
      try destruct (d =? "")%string; destruct (Sql.completed r); reflexivity.
  - exists (instance_of_row r), w. split; [now apply new_row_object|].
    split; [|apply same_store_refl].
    unfold reflects. repeat split.
Qed.

Lemma map_new_rows rows : forall w,
  exists todos w',
    Todo.map_new rows w = (Sql.Ok todos, w') /\
    Forall2 reflects todos rows /\ same_store w w'.
Proof.
  induction rows as [|r rows IH]; intros w; simpl.
  - exists [], w. repeat split. constructor.
  - destruct (new_row_object_any r w) as (t & w1 & E1 & R1 & S1).
    destruct (IH w1) as (ts & w2 & E2 & R2 & S2).
    exists (t :: ts), w2. split.
    + rewrite (bind_ok _ _ _ _ _ E1). rewrite (bind_ok _ _ _ _ _ E2). reflexivity.
    + split; [now constructor | eapply same_store_trans; eauto].
Qed.

Lemma find_has_id i tbl r :
  find (Sql.has_id i) tbl = Some r -> In r tbl /\ Sql.id r = i.
Proof.
  intros H. apply find_some in H. destruct H as [Hin Hid].
  split; auto. now apply String.eqb_eq.
Qed.

Lemma findById_spec i w :
  i <> ""%string ->
  Todo.findById (JS.VStr i) w =
  (Sql.Ok (option_map instance_of_row (find (Sql.has_id i) (World.table w))),
   logged (Sql.SelectTodoById (JS.VStr i)) w).
Proof.
  intros Hi. unfold Todo.findById, Database.get_by_id. run_world.
  destruct (find (Sql.has_id i) (World.table w)) as [r|] eqn:F; simpl; auto.
  apply find_has_id in F. destruct F as [_ F].
  fold (logged (Sql.SelectTodoById (JS.VStr i)) w).
  rewrite new_row_object by congruence. reflexivity.
Qed.

Lemma findByUserId_spec u status lim off w :
  exists todos w',
    Todo.findByUserId (JS.VStr u) (list_options status lim off) w = (Sql.Ok todos, w') /\
    Forall2 reflects todos
            (Sql.select_by_user (filter_of_status status) u lim off (World.table w)) /\
    same_store
      (logged (Sql.SelectTodosByUser (filter_of_status status) (JS.VStr u)
                                     (JS.VNum lim) (JS.VNum off)) w) w'.
Proof.
  unfold Todo.findByUserId, Database.all_by_user, list_options. run_world.
  fold (filter_of_status status).
  match goal with
  | |- context [Todo.map_new ?rows ?w0] =>
      destruct (map_new_rows rows w0) as (ts & w2 & E & R & S)
  end.
  exists ts, w2. rewrite E. repeat split; try apply R; apply S.
Qed.

Lemma getCountByUserId_spec u status w :
  Todo.getCountByUserId (JS.VStr u) status w =
  (Sql.Ok (Sql.count_by_user (filter_of_status status) u (World.table w)),
   logged (Sql.CountTodosByUser (filter_of_status status) (JS.VStr u)) w).
Proof. reflexivity. Qed.

(* ================================================================== *)
(** ** The engine: ordering, paging and counting *)

Lemma string_leb_trans (a b c : string) :
  String.leb a b = true -> String.leb b c = true -> String.leb a c = true.
Proof.
  unfold String.leb. revert b c.
  induction a as [|x a IH]; intros [|y b] [|z c]; simpl; try congruence.
  unfold Ascii.compare.
  destruct (N.compare_spec (N_of_ascii x) (N_of_ascii y)) as [Exy|Lxy|Gxy];
    destruct (N.compare_spec (N_of_ascii y) (N_of_ascii z)) as [Eyz|Lyz|Gyz];
    try congruence; intros H1 H2.
  - rewrite Exy, Eyz, N.compare_refl. now apply (IH b c).
  - rewrite Exy. now rewrite (proj2 (N.compare_lt_iff _ _) Lyz).
  - rewrite <- Eyz. now rewrite (proj2 (N.compare_lt_iff _ _) Lxy).
  - now rewrite (proj2 (N.compare_lt_iff _ _) (N.lt_trans _ _ _ Lxy Lyz)).
Qed.

Lemma not_older_trans a b c : not_older a b -> not_older b c -> not_older a c.
Proof. unfold not_older. intros H1 H2. eapply string_leb_trans; eauto. Qed.

Lemma insert_desc_perm r l : Permutation (Sql.insert_desc r l) (r :: l).
Proof.
  induction l as [|h t IH]; simpl; auto.
  destruct (String.leb (Sql.created_at h) (Sql.created_at r)); auto.
  rewrite IH. apply perm_swap.
Qed.

Lemma order_perm l : Permutation (Sql.order_by_created_at_desc l) l.
Proof.
  induction l as [|h t IH]; simpl; auto.
  rewrite insert_desc_perm. now constructor.
Qed.

Lemma insert_desc_sorted r l :
  StronglySorted not_older l -> StronglySorted not_older (Sql.insert_desc r l).
Proof.
  induction l as [|h t IH]; intros Hs; simpl.
  - repeat constructor.
  - apply StronglySorted_inv in Hs. destruct Hs as [Ht Hh].
    destruct (String.leb (Sql.created_at h) (Sql.created_at r)) eqn:E.
    + constructor; [constructor; assumption|].
      constructor; [exact E|].
      eapply Forall_impl; [|exact Hh].
      intros x Hx. eapply not_older_trans; eauto.
    + constructor; [now apply IH|].
      rewrite (insert_desc_perm r t). constructor; auto.
      unfold not_older.
      destruct (String.leb_total (Sql.created_at h) (Sql.created_at r)); congruence.
Qed.

Lemma order_sorted l : StronglySorted not_older (Sql.order_by_created_at_desc l).
Proof.
  induction l as [|h t IH]; simpl; [constructor | now apply insert_desc_sorted].
Qed.

Lemma In_firstn {A} n (l : list A) x : In x (firstn n l) -> In x l.
Proof.
  intros H. rewrite <- (firstn_skipn n l). apply in_or_app. now left.
Qed.

Lemma In_skipn {A} n (l : list A) x : In x (skipn n l) -> In x l.
Proof.
  intros H. rewrite <- (firstn_skipn n l). apply in_or_app. now right.
Qed.

Lemma sorted_firstn {A} (R : A -> A -> Prop) n : forall l,
  StronglySorted R l -> StronglySorted R (firstn n l).
Proof.
  induction n as [|n IH]; intros [|h t] Hs; simpl; try constructor.
  - apply IH. now apply StronglySorted_inv in Hs.
  - apply StronglySorted_inv in Hs. destruct Hs as [_ Hh].
    rewrite Forall_forall in *. intros x Hx. apply Hh. eapply In_firstn; eauto.
Qed.

Lemma sorted_skipn {A} (R : A -> A -> Prop) n : forall l,
  StronglySorted R l -> StronglySorted R (skipn n l).
Proof.
  induction n as [|n IH]; intros [|h t] Hs; simpl; auto.
  apply IH. now apply StronglySorted_inv in Hs.
Qed.

Lemma limit_offset_sorted lim off l :
  StronglySorted not_older l -> StronglySorted not_older (Sql.limit_offset lim off l).
Proof.
  intros Hs. unfold Sql.limit_offset.
  destruct (lim <? 0); [|apply sorted_firstn]; now apply sorted_skipn.
Qed.

Lemma limit_offset_In lim off l r : In r (Sql.limit_offset lim off l) -> In r l.
Proof.
  unfold Sql.limit_offset.
  destruct (lim <? 0); intros H; [|apply In_firstn in H]; eapply In_skipn; eauto.
Qed.

Lemma limit_offset_length lim off l :
  0 <= lim -> 0 <= off ->
  Z.of_nat (List.length (Sql.limit_offset lim off l)) =
  Z.min lim (Z.max 0 (Z.of_nat (List.length l) - off)).
Proof.
  intros Hl Ho. unfold Sql.limit_offset.
  destruct (lim <? 0) eqn:E; [apply Z.ltb_lt in E; lia|].
  rewrite length_firstn, length_skipn. lia.
Qed.

Lemma limit_offset_all lim l :
  lim < 0 \/ Z.of_nat (List.length l) <= lim -> Sql.limit_offset lim 0 l = l.
Proof.
  intros H. unfold Sql.limit_offset. simpl.
  destruct (lim <? 0) eqn:E; auto.
  apply Z.ltb_ge in E. apply firstn_all2. lia.
Qed.

Lemma select_by_user_In flt u lim off tbl r :
  In r (Sql.select_by_user flt u lim off tbl) ->
  In r tbl /\ Sql.matches flt u r = true.
Proof.
  unfold Sql.select_by_user. intros H.
  apply limit_offset_In in H.
  apply (Permutation_in _ (order_perm _)) in H.
  now apply filter_In in H.
Qed.

Lemma select_by_user_sorted flt u lim off tbl :
  StronglySorted not_older (Sql.select_by_user flt u lim off tbl).
Proof. apply limit_offset_sorted, order_sorted. Qed.

Lemma count_by_user_length flt u tbl :
  Sql.count_by_user flt u tbl =
  Z.of_nat (List.length (Sql.order_by_created_at_desc (filter (Sql.matches flt u) tbl))).
Proof.
  unfold Sql.count_by_user. now rewrite (Permutation_length (order_perm _)).
Qed.

Lemma matches_split u tbl :
  boolean_typed tbl ->
  Permutation (filter (Sql.matches None u) tbl)
              (filter (Sql.matches (Some false) u) tbl ++
               filter (Sql.matches (Some true) u) tbl).
Proof.
  induction 1 as [|r tbl Hr _ IH]; simpl; auto.
  assert (E : forall flt, Sql.matches flt u r =
                          Sql.owned_by u r &&
                          match flt with
                          | None => true
                          | Some b => Sql.cell_is b (Sql.completed r)
                          end) by reflexivity.
  rewrite !E. unfold flagged in Hr.
  destruct (Sql.owned_by u r); simpl; auto.
  destruct (Sql.completed r) as [[|]|s]; simpl; [| |discriminate Hr].
  - apply Permutation_cons_app. exact IH.
  - now constructor.
Qed.

Lemma Forall2_length_eq {A B} (R : A -> B -> Prop) l1 l2 :
  Forall2 R l1 l2 -> List.length l1 = List.length l2.
Proof. induction 1; simpl; auto. Qed.

Lemma reflects_completed t r b :
  reflects t r -> Sql.completed r = Sql.Flag b -> JS.truthy (Todo.completed t) = b.
Proof.
  intros (_ & _ & _ & C & _) F. rewrite C. simpl. rewrite F. now destruct b.
Qed.

Lemma reflects_created t r : reflects t r -> created_text t = Sql.created_at r.
Proof.
  intros (_ & _ & _ & _ & C & _). unfold created_text. now rewrite C.
Qed.

Lemma reflects_user_id t r : reflects t r -> Todo.user_id t = JS.VStr (Sql.user_id r).
Proof. now intros (U & _). Qed.

Lemma reflects_sorted todos rows :
  Forall2 reflects todos rows ->
  StronglySorted not_older rows -> StronglySorted listed_not_older todos.
Proof.
  induction 1 as [|t r todos rows Htr Hrest IH]; intros Hs; constructor.
  - apply IH. now apply StronglySorted_inv in Hs.
  - apply StronglySorted_inv in Hs. destruct Hs as [_ Hh].
    clear IH. induction Hrest as [|t' r' todos rows Htr' Hrest IH']; constructor.
    + unfold listed_not_older.
      rewrite (reflects_created _ _ Htr), (reflects_created _ _ Htr').
      now inversion Hh.
    + apply IH'. now inversion Hh.
Qed.

Lemma reflects_forall (P : Todo.t -> Prop) (Q : Sql.Row -> Prop) todos rows :
  (forall t r, reflects t r -> Q r -> P t) ->
  Forall2 reflects todos rows -> Forall Q rows -> Forall P todos.
Proof.
  intros HPQ. induction 1; intros HQ; constructor; inversion HQ; subst; eauto.
Qed.

Lemma select_completed (b : bool) u lim off tbl :
  Forall (fun r => Sql.completed r = b) (Sql.select_by_user (Some b) u lim off tbl).
Proof.
  apply Forall_forall. intros r Hr.
  apply select_by_user_In in Hr. destruct Hr as [_ Hm].
  unfold Sql.matches in Hm. apply andb_prop in Hm. destruct Hm as [_ Hm].
  destruct (Sql.completed r) as [x|s]; [|discriminate Hm].
  cbn in Hm. apply Bool.eqb_prop in Hm. now subst.
Qed.

(* ================================================================== *)
(** ** Listing and counting the todos of a user *)

(** What holds of [Todo.findByUserId] on every table, for every owner,
    limit and offset: with status [pending] it returns no todo that is
    completed, with status [completed] no todo that is not, and each
    returned sequence is the page [limit]/[offset] of the owner's matching
    rows taken newest first by creation time.  The selection for [all] is
    the union of the two others on the tables in which every [completed]
    is the integer 1 or 0. *)
Lemma findByUserId_filters_and_orders w u lim off :
  let full flt :=
    Sql.order_by_created_at_desc (filter (Sql.matches flt u) (World.table w)) in
  (exists todos w',
      Todo.findByUserId (JS.VStr u) (list_options (JS.VStr "pending") lim off) w
      = (Sql.Ok todos, w') /\
      Forall2 reflects todos (Sql.limit_offset lim off (full (Some false))) /\
      Forall (fun t => JS.truthy (Todo.completed t) = false) todos /\
      StronglySorted listed_not_older todos) /\
  (exists todos w',
      Todo.findByUserId (JS.VStr u) (list_options (JS.VStr "completed") lim off) w
      = (Sql.Ok todos, w') /\
      Forall2 reflects todos (Sql.limit_offset lim off (full (Some true))) /\
      Forall (fun t => JS.truthy (Todo.completed t) = true) todos /\
      StronglySorted listed_not_older todos) /\
  (exists todos w',
      Todo.findByUserId (JS.VStr u) (list_options (JS.VStr "all") lim off) w
      = (Sql.Ok todos, w') /\
      Forall2 reflects todos (Sql.limit_offset lim off (full None)) /\
      StronglySorted listed_not_older todos) /\
  (boolean_typed (World.table w) ->
   Permutation (full None) (full (Some false) ++ full (Some true))) /\
  (forall flt, StronglySorted not_older (full flt)).
Proof.
  intros full.
  assert (Hgen : forall status,
             exists todos w',
               Todo.findByUserId (JS.VStr u) (list_options status lim off) w
               = (Sql.Ok todos, w') /\
               Forall2 reflects todos
                       (Sql.limit_offset lim off (full (filter_of_status status))) /\
               StronglySorted listed_not_older todos).
  { intros status.
    destruct (findByUserId_spec u status lim off w) as (ts & w' & E & R & _).
    exists ts, w'. repeat split; auto.
    eapply reflects_sorted; [exact R | apply select_by_user_sorted]. }
  repeat split.
  - destruct (Hgen (JS.VStr "pending")) as (ts & w' & E & R & S).
    exists ts, w'. repeat split; auto.
    eapply reflects_forall; [|exact R | apply (select_completed false u lim off)].
    intros t r Htr Hr. simpl in Hr. exact (reflects_completed _ _ _ Htr Hr).
  - destruct (Hgen (JS.VStr "completed")) as (ts & w' & E & R & S).
    exists ts, w'. repeat split; auto.
    eapply reflects_forall; [|exact R | apply (select_completed true u lim off)].
    intros t r Htr Hr. simpl in Hr. exact (reflects_completed _ _ _ Htr Hr).
  - destruct (Hgen (JS.VStr "all")) as (ts & w' & E & R & S).
    exists ts, w'. repeat split; auto.
  - intros Hb. unfold full. rewrite !order_perm. now apply matches_split.
  - intros flt. apply order_sorted.
Qed.

(** C4.  The listing for [all] is not the union of the two others once a
    [completed] holds a text.  On the sample table the owner's
    [PUT /api/todos/t-milk] with the body [{completed: 'true'}], a value
    the rule [isBoolean] lets through, is answered 200 with [completed]
    true and leaves the text in the column; from then on
    [Todo.findByUserId] returns that todo, which reads as completed, for
    status [all] and for neither [pending] nor [completed], and
    [Todo.getCountByUserId] counts 2, 0 and 1. *)
Lemma text_completed_is_listed_under_no_status :
  let put := Sample.request_of Http.PUT ["t-milk"] (Some "token-alice") []
                               [("completed", JS.VStr "true")] in
  let listed status w :=
    fst (Todo.findByUserId (JS.VStr "u-alice") (list_options (JS.VStr status) 50 0) w) in
  let counted status w :=
    fst (Todo.getCountByUserId (JS.VStr "u-alice") (JS.VStr status) w) in
  exists j w' all completed,
    Sample.router put Sample.world
    = (Http.Respond (Http.ok 200 "Todo updated successfully" (Http.TodoData j)), w') /\
    JS.get "completed" j = JS.VBool true /\
    map Sql.id (World.table w') = ["t-milk"; "t-taxes"; "t-bread"] /\
    map Sql.completed (World.table w')
    = [Sql.Text "true"; Sql.Flag true; Sql.Flag true] /\
    listed "all" w' = Sql.Ok all /\
    map Todo.id all = [JS.VStr "t-bread"; JS.VStr "t-milk"] /\
    map (fun t => JS.truthy (Todo.completed t)) all = [true; true] /\
    listed "pending" w' = Sql.Ok [] /\
    listed "completed" w' = Sql.Ok completed /\
    map Todo.id completed = [JS.VStr "t-bread"] /\
    counted "all" w' = Sql.Ok 2 /\
    counted "pending" w' = Sql.Ok 0 /\
    counted "completed" w' = Sql.Ok 1.
Proof.
  intros put listed counted.
  eexists; eexists; eexists; eexists.
  split; [vm_compute; reflexivity|].
  split; [reflexivity|]. split; [reflexivity|]. split; [reflexivity|].
  split; [vm_compute; reflexivity|].
  split; [reflexivity|]. split; [reflexivity|].
  split; [vm_compute; reflexivity|].
  split; [vm_compute; reflexivity|].
  split; [reflexivity|].
  repeat split.
Qed.

(** C8.  For every owner and status, [Todo.getCountByUserId] returns the
    number of rows of that owner matching the status, which is the length
    of what [Todo.findByUserId] returns for the same owner and status once
    paging is removed: with no limit, or with a limit as large as the
    count, and no offset. *)
Theorem getCountByUserId_counts_listed w u status :
  exists n w1,
    Todo.getCountByUserId (JS.VStr u) status w = (Sql.Ok n, w1) /\
    n = Z.of_nat (List.length
                    (filter (Sql.matches (filter_of_status status) u) (World.table w))) /\
    (exists todos w2,
        Todo.findByUserId (JS.VStr u) (list_options status (-1) 0) w
        = (Sql.Ok todos, w2) /\
        Z.of_nat (List.length todos) = n) /\
    (exists todos w2,
        Todo.findByUserId (JS.VStr u) (list_options status n 0) w
        = (Sql.Ok todos, w2) /\
        Z.of_nat (List.length todos) = n).
Proof.
  rewrite getCountByUserId_spec.
  eexists; eexists; split; [reflexivity|].
  split; [reflexivity|].
  assert (Hlen : forall lim,
             lim < 0 \/ Sql.count_by_user (filter_of_status status) u (World.table w) <= lim ->
             exists todos w2,
               Todo.findByUserId (JS.VStr u) (list_options status lim 0) w
               = (Sql.Ok todos, w2) /\
               Z.of_nat (List.length todos)
               = Sql.count_by_user (filter_of_status status) u (World.table w)).
  { intros lim Hlim.
    destruct (findByUserId_spec u status lim 0 w) as (ts & w' & E & R & _).
    exists ts, w'. split; auto.
    rewrite (Forall2_length_eq _ _ _ R).
    unfold Sql.select_by_user. rewrite limit_offset_all.
    - symmetry. apply count_by_user_length.
    - rewrite <- count_by_user_length. exact Hlim. }
  split; apply Hlen; lia.
Qed.

(* ================================================================== *)
(** ** Updating a todo *)

Lemma includes_In xs k : JS.includes xs (JS.VStr k) = true <-> In k xs.
Proof.
  unfold JS.includes. rewrite existsb_exists. simpl. split.
  - intros (x & Hx & E). apply String.eqb_eq in E. now subst.
  - intros H. exists k. split; auto. apply String.eqb_refl.
Qed.

Lemma strict_eq_undefined v : JS.strict_eq v JS.VUndefined = true <-> v = JS.VUndefined.
Proof. destruct v; simpl; split; congruence. Qed.

Lemma collect_updates_In payload k v :
  In (k, v) (Todo.collect_updates payload) <->
  In (k, v) payload /\ In k Todo.allowedFields /\ v <> JS.VUndefined.
Proof.
  unfold Todo.collect_updates. rewrite filter_In. cbn [fst snd].
  rewrite andb_true_iff, includes_In, negb_true_iff.
  split; intros (H1 & H2 & H3); repeat split; auto.
  - intros E. apply strict_eq_undefined in E. congruence.
  - destruct (JS.strict_eq v JS.VUndefined) eqn:E; auto.
    apply strict_eq_undefined in E. contradiction.
Qed.

Lemma collect_updates_nil payload :
  (forall k v, In (k, v) payload -> In k Todo.allowedFields -> v = JS.VUndefined) ->
  Todo.collect_updates payload = [].
Proof.
  intros H. destruct (Todo.collect_updates payload) as [|[k v] rest] eqn:E; auto.
  assert (Hin : In (k, v) (Todo.collect_updates payload)) by (rewrite E; now left).
  apply collect_updates_In in Hin. destruct Hin as (H1 & H2 & H3).
  elim H3. eauto.
Qed.

(** C10.  For every todo, [update] with a payload that carries no defined
    value for [title], [description] or [completed] hands no statement to
    the database, leaves the world as it is and returns the todo with every
    property unchanged. *)
Theorem update_without_defined_field this payload w :
  (forall k v, In (k, v) payload -> In k Todo.allowedFields -> v = JS.VUndefined) ->
  Todo.update this payload w = (Sql.Ok this, w).
Proof.
  intros H. unfold Todo.update. now rewrite (collect_updates_nil payload H).
Qed.

Lemma get_absent k o : ~ In k (map fst o) -> JS.get k o = JS.VUndefined.
Proof.
  induction o as [|[k' v'] o IH]; simpl; auto.
  intros H. destruct (String.eqb_spec k' k) as [E|N].
  - elim H. now left.
  - apply IH. intros C. apply H. now right.
Qed.

Lemma partial_update_nil r : partial_update [] (Sql.updated_at r) r = r.
Proof. now destruct r. Qed.

Lemma touch_partial_update payload now r :
  Sql.touch now (partial_update payload (Sql.updated_at r) r) = partial_update payload now r.
Proof. reflexivity. Qed.

Lemma payload_typed_tail kv payload :
  payload_typed (kv :: payload) -> payload_typed payload.
Proof.
  intros H x Hx. apply H. unfold Todo.collect_updates in *. cbn [filter].
  destruct (JS.includes Todo.allowedFields (JS.VStr (fst kv))
            && negb (JS.strict_eq (snd kv) JS.VUndefined)); auto.
  now right.
Qed.

Lemma assign_columns_partial payload : forall r,
  NoDup (map fst payload) ->
  payload_typed payload ->
  Sql.assign_columns (Todo.collect_updates payload) r
  = Sql.Ok (partial_update payload (Sql.updated_at r) r).
Proof.
  induction payload as [|[k v] rest IH]; intros r Hnd Hty.
  - simpl. now rewrite partial_update_nil.
  - inversion Hnd as [|? ? Hk Hrest]; subst.
    pose proof (payload_typed_tail _ _ Hty) as Hty'.
    simpl in Hk.
    assert (Habs : JS.get k rest = JS.VUndefined) by now apply get_absent.
    unfold Todo.collect_updates. cbn [filter fst snd].
    fold (Todo.collect_updates rest).
    destruct (JS.includes Todo.allowedFields (JS.VStr k)
              && negb (JS.strict_eq v JS.VUndefined)) eqn:T.
    + assert (Hf : field_typed (k, v) = true).
      { apply Hty. unfold Todo.collect_updates. cbn [filter fst snd].
        rewrite T. now left. }
      apply andb_prop in T. destruct T as [Ha _].
      apply includes_In in Ha. simpl in Ha.
      destruct Ha as [E|[E|[E|[]]]]; subst k; simpl in Hf;
        destruct v; try discriminate Hf;
        cbn [Sql.assign_columns Sql.assign_column String.eqb Ascii.eqb Bool.eqb
             Sql.bind_text_not_null Sql.bind_text Sql.bind_boolean];
        rewrite IH by assumption;
        unfold partial_update; cbn [JS.get String.eqb Ascii.eqb Bool.eqb];
        rewrite ?Habs; destruct r; reflexivity.
    + rewrite IH by assumption.
      apply andb_false_iff in T.
      assert (Hv : In k Todo.allowedFields -> v = JS.VUndefined).
      { intros Hin. destruct T as [T|T].
        - apply includes_In in Hin. congruence.
        - now apply negb_false_iff, strict_eq_undefined in T. }
      assert (G : forall f, In f Todo.allowedFields ->
                            JS.get f ((k, v) :: rest) = JS.get f rest).
      { intros f Hf. cbn [JS.get]. destruct (String.eqb_spec k f) as [E|N]; auto.
        subst f. rewrite Habs. now apply Hv. }
      unfold partial_update.
      rewrite (G "title"), (G "description"), (G "completed");
        simpl; auto.
Qed.

Lemma update_where_id_map sets now i (f : Sql.Row -> Sql.Row) tbl :
  (forall r, Sql.assign_columns sets r = Sql.Ok (f r)) ->
  Sql.update_where_id sets now i tbl
  = Sql.Ok (map (fun r => if Sql.has_id i r then Sql.touch now (f r) else r) tbl).
Proof.
  intros Hf. induction tbl as [|r tbl IH]; simpl; auto.
  rewrite IH. destruct (Sql.has_id i r); auto. now rewrite Hf.
Qed.

Ltac split_keys :=
  repeat match goal with
         | |- context [String.eqb ?a ?b] =>
             destruct (String.eqb_spec a b); subst; try congruence; simpl
         end.

Lemma set_property_other k k' v t :
  k' <> k -> property k (Todo.set_property t (k', v)) = property k t.
Proof.
  intros Hk. unfold Todo.set_property.
  destruct (String.eqb_spec k' "id");
    [|destruct (String.eqb_spec k' "user_id");
      [|destruct (String.eqb_spec k' "title");
        [|destruct (String.eqb_spec k' "description");
          [|destruct (String.eqb_spec k' "completed");
            [|destruct (String.eqb_spec k' "created_at");
              [|destruct (String.eqb_spec k' "updated_at");
                [|destruct (String.eqb_spec k' "toJSON");
                  [|destruct (String.eqb_spec k' "__proto__");
                    [destruct v|]]]]]]]]];
    subst; unfold property; simpl; split_keys; reflexivity.
Qed.

Lemma set_property_same k v t :
  In k ("updated_at" :: framed_properties) ->
  property k (Todo.set_property t (k, v)) = v.
Proof.
  simpl. intros [E|[E|[E|[E|[E|[E|[E|[]]]]]]]]; subst k; reflexivity.
Qed.

Lemma assign_cons t kv rest :
  Todo.assign t (kv :: rest) = Todo.assign (Todo.set_property t kv) rest.
Proof. reflexivity. Qed.

Lemma assign_frame k payload : forall t,
  ~ In k (map fst payload) -> property k (Todo.assign t payload) = property k t.
Proof.
  induction payload as [|[k' v'] rest IH]; intros t Hk; auto.
  simpl in Hk. rewrite assign_cons, IH by tauto. apply set_property_other. tauto.
Qed.

Lemma assign_supplied k v payload : forall t,
  NoDup (map fst payload) ->
  In (k, v) payload ->
  In k ("updated_at" :: framed_properties) ->
  property k (Todo.assign t payload) = v.
Proof.
  induction payload as [|[k' v'] rest IH]; intros t Hnd Hin Hk; [contradiction|].
  inversion Hnd as [|? ? Hk' Hrest]; subst.
  rewrite assign_cons. destruct Hin as [E|Hin].
  - inversion E; subst.
    rewrite assign_frame by assumption. now apply set_property_same.
  - now apply IH.
Qed.

Lemma run_update_typed payload i w :
  NoDup (map fst payload) ->
  payload_typed payload ->
  Database.run_update (Todo.collect_updates payload) (JS.VStr i) w
  = (Sql.Ok tt,
     World.with_table
       (map (fun r => if Sql.has_id i r
                      then partial_update payload (World.clock w) r else r)
            (World.table w))
       (logged (Sql.UpdateTodo (Todo.collect_updates payload) (JS.VStr i)) w)).
Proof.
  intros Hnd Hty. unfold Database.run_update. run_world.
  rewrite (update_where_id_map _ _ _
             (fun r => partial_update payload (Sql.updated_at r) r)).
  - reflexivity.
  - intros r. now apply assign_columns_partial.
Qed.

Lemma update_typed this i w payload :
  Todo.id this = JS.VStr i ->
  NoDup (map fst payload) ->
  payload_typed payload ->
  Todo.collect_updates payload <> [] ->
  Todo.update this payload w
  = (Sql.Ok (Todo.assign this payload),
     World.with_table
       (map (fun r => if Sql.has_id i r
                      then partial_update payload (World.clock w) r else r)
            (World.table w))
       (logged (Sql.UpdateTodo (Todo.collect_updates payload) (JS.VStr i)) w)).
Proof.
  intros Hid Hnd Hty Hne. unfold Todo.update.
  destruct (Todo.collect_updates payload) as [|kv sets] eqn:E; [congruence|].
  rewrite <- E, Hid.
  now rewrite (bind_ok _ _ _ _ _ (run_update_typed payload i w Hnd Hty)).
Qed.

Lemma only_completed_typed :
  NoDup (map fst [("completed", JS.VBool true)]) /\
  payload_typed [("completed", JS.VBool true)] /\
  Todo.collect_updates [("completed", JS.VBool true)] <> [].
Proof.
  split; [repeat constructor; simpl; tauto|].
  split; [|discriminate].
  intros kv [E|[]]; subst kv; reflexivity.
Qed.

(** C6, as amended.  For every todo and every update payload with distinct
    keys, values of the types of the data model and at least one defined
    value for [title], [description] or [completed]: [update] issues one
    UPDATE statement that changes, in the stored record, only the supplied
    fields and sets the updated timestamp to the current time, leaving every
    other column and every other record as it was; in the returned todo
    every supplied field holds the supplied value and every property other
    than [updated_at] that the payload does not name is untouched.  In
    particular a payload of only [completed: true] leaves title and
    description as they were, in the record and in the returned todo. *)
Theorem update_changes_only_supplied this i w payload :
  Todo.id this = JS.VStr i ->
  NoDup (map fst payload) ->
  payload_typed payload ->
  Todo.collect_updates payload <> [] ->
  (exists t' w',
      Todo.update this payload w = (Sql.Ok t', w') /\
      World.table w'
      = map (fun r => if Sql.has_id i r
                      then partial_update payload (World.clock w) r else r)
            (World.table w) /\
      World.issued w'
      = (World.issued w ++ [Sql.UpdateTodo (Todo.collect_updates payload) (JS.VStr i)])%list /\
      (forall k, In k framed_properties -> ~ In k (map fst payload) ->
                 property k t' = property k this) /\
      (forall k v, In (k, v) payload -> In k Todo.allowedFields ->
                   v <> JS.VUndefined -> property k t' = v)) /\
  (exists t' w',
      Todo.update this [("completed", JS.VBool true)] w = (Sql.Ok t', w') /\
      Todo.title t' = Todo.title this /\
      Todo.description t' = Todo.description this /\
      Todo.completed t' = JS.VBool true /\
      World.table w'
      = map (fun r => if Sql.has_id i r
                      then Sql.mkRow (Sql.id r) (Sql.user_id r) (Sql.title r)
                                     (Sql.description r) true (Sql.created_at r)
                                     (World.clock w)
                      else r)
            (World.table w)).
Proof.
  intros Hid Hnd Hty Hne. split.
  - rewrite (update_typed this i w payload Hid Hnd Hty Hne).
    eexists; eexists; split; [reflexivity|].
    repeat split.
    + intros k _ Hk. now apply assign_frame.
    + intros k v Hin Hk _. apply (assign_supplied k v payload this Hnd Hin).
      simpl in Hk. simpl. tauto.
  - destruct only_completed_typed as (Cnd & Cty & Cne).
    rewrite (update_typed this i w _ Hid Cnd Cty Cne).
    eexists; eexists; split; [reflexivity|].
    repeat split.
Qed.

(** C6, as stated, fails on the empty payload: nothing is written and the
    stored updated timestamp stays what it was, in the model method and
    through [PUT /api/todos/:id] with an empty body. *)
Lemma update_empty_payload_no_refresh :
  Todo.update (instance_of_row Sample.milk) [] Sample.world
  = (Sql.Ok (instance_of_row Sample.milk), Sample.world) /\
  In Sample.milk (World.table Sample.world) /\
  Sql.updated_at Sample.milk <> World.clock Sample.world /\
  (exists j w',
      Sample.router
        (Sample.request_of Http.PUT ["t-milk"] (Some "token-alice") [] [])
        Sample.world
      = (Http.Respond (Http.ok 200 "Todo updated successfully" (Http.TodoData j)), w') /\
      World.table w' = World.table Sample.world /\
      JS.get "updated_at" j = JS.VStr (Sql.updated_at Sample.milk)).
Proof.
  split; [reflexivity|]. split; [now left|]. split; [discriminate|].
  eexists; eexists. split; [vm_compute; reflexivity|]. split; reflexivity.
Qed.

Lemma update_changes_only_supplied_witness :
  let payload := [("title", JS.VStr "Buy oat milk"); ("completed", JS.VBool true)] in
  Todo.id (instance_of_row Sample.milk) = JS.VStr "t-milk" /\
  NoDup (map fst payload) /\
  payload_typed payload /\
  Todo.collect_updates payload <> [] /\
  exists t' w',
    Todo.update (instance_of_row Sample.milk) payload Sample.world = (Sql.Ok t', w') /\
    World.table w'
    = [ Sql.mkRow "t-milk" "u-alice" "Buy oat milk" (Some "2 litres") true
                  "2024-05-01 09:00:00" Sample.now;
        Sample.taxes; Sample.bread ].
Proof.
  intros payload.
  assert (H1 : Todo.id (instance_of_row Sample.milk) = JS.VStr "t-milk") by reflexivity.
  assert (H2 : NoDup (map fst payload)).
  { repeat constructor; simpl; intuition discriminate. }
  assert (H3 : payload_typed payload).
  { intros kv [E|[E|[]]]; subst kv; reflexivity. }
  assert (H4 : Todo.collect_updates payload <> []) by discriminate.
  repeat (split; [assumption|]).
  destruct (update_changes_only_supplied _ _ Sample.world payload H1 H2 H3 H4)
    as [(t' & w' & E & T & _) _].
  exists t', w'. split; [exact E|]. rewrite T. reflexivity.
Defined.

Lemma update_without_defined_field_witness :
  let payload := [("title", JS.VUndefined); ("owner", JS.VStr "u-bob")] in
  (forall k v, In (k, v) payload -> In k Todo.allowedFields -> v = JS.VUndefined) /\
  Todo.update (instance_of_row Sample.milk) payload Sample.world
  = (Sql.Ok (instance_of_row Sample.milk), Sample.world).
Proof.
  intros payload.
  assert (H : forall k v, In (k, v) payload -> In k Todo.allowedFields ->
                          v = JS.VUndefined).
  { intros k v [E|[E|[]]] Hk; inversion E; subst; auto.
    simpl in Hk. intuition discriminate. }
  split; [exact H|].
  apply (update_without_defined_field _ payload Sample.world H).
Defined.

(* ================================================================== *)
(** ** Creating a todo *)

Lemma create_fresh w uid title description :
  description = JS.VUndefined \/ (exists d, description = JS.VStr d) ->
  let i := World.uuid_stream w (World.uuid_drawn w) in
  existsb (Sql.has_id i) (World.table w) = false ->
  exists todo w',
    Todo.create [("user_id", JS.VStr uid); ("title", JS.VStr title);
                 ("description", description)] w
    = (Sql.Ok todo, w') /\
    Todo.id todo = JS.VStr i /\
    (forall r, In r (World.table w) -> JS.VStr (Sql.id r) <> Todo.id todo) /\
    Todo.user_id todo = JS.VStr uid /\
    Todo.title todo = JS.VStr title /\
    Todo.completed todo = JS.VBool false /\
    (exists row,
        World.table w' = (World.table w ++ [row])%list /\
        Sql.id row = i /\ Sql.user_id row = uid /\ Sql.title row = title /\
        Sql.completed row = false /\
        Sql.created_at row = World.clock w /\ Sql.updated_at row = World.clock w).
Proof.
  intros Hd i Hfresh.
  assert (Hnot : forall r, In r (World.table w) -> JS.VStr (Sql.id r) <> JS.VStr i).
  { intros r Hr E. inversion E as [E'].
    assert (C : existsb (Sql.has_id i) (World.table w) = true).
    { apply existsb_exists. exists r. split; auto.
      unfold Sql.has_id. rewrite E'. apply String.eqb_refl. }
    congruence. }
  unfold Todo.create, Todo.new, Database.run_insert. run_world.
  fold i.
  destruct Hd as [Hd|[d Hd]]; subst description; unfold JS.or; simpl.
  - rewrite Hfresh.
    eexists; eexists; split; [reflexivity|]. simpl.
    repeat split; auto. eexists; split; [reflexivity|]. repeat split.
  - destruct (d =? "")%string; simpl; rewrite Hfresh;
      (eexists; eexists; split; [reflexivity|]); simpl;
      repeat split; auto; (eexists; split; [reflexivity|]); repeat split.
Qed.

(** C7 at a concrete request: the todo [create] returns, and the response
    of [POST /api/todos] built from it, carry no creation or update
    timestamp, while the stored record has both set to the current time. *)
Lemma create_returns_no_timestamps :
  let data := [("user_id", JS.VStr "u-alice"); ("title", JS.VStr "Buy milk");
               ("description", JS.VUndefined)] in
  let stored := Sql.mkRow (Sample.uuids 0) "u-alice" "Buy milk" None false
                          Sample.now Sample.now in
  (exists todo w',
      Todo.create data (Sample.world_of []) = (Sql.Ok todo, w') /\
      Todo.id todo = JS.VStr (Sample.uuids 0) /\
      Todo.completed todo = JS.VBool false /\
      Todo.created_at todo = JS.VUndefined /\
      Todo.updated_at todo = JS.VUndefined /\
      World.table w' = [stored]) /\
  (exists j w',
      Sample.router
        (Sample.request_of Http.POST [] (Some "token-alice") []
                           [("title", JS.VStr "Buy milk")])
        (Sample.world_of [])
      = (Http.Respond (Http.ok 201 "Todo created successfully" (Http.TodoData j)), w') /\
      JS.get "created_at" j = JS.VUndefined /\
      JS.get "updated_at" j = JS.VUndefined /\
      World.table w' = [stored]).
Proof.
  split.
  - eexists; eexists. split; [vm_compute; reflexivity|]. repeat split.
  - eexists; eexists. split; [vm_compute; reflexivity|]. repeat split.
Qed.

(* ================================================================== *)
(** ** Which computations leave the table alone *)

Lemma keeps_ret {A} (a : A) : keeps_table (World.ret a).
Proof. intros w r w' H. inversion H. reflexivity. Qed.

Lemma keeps_throw {A} e : keeps_table (@World.throw A e).
Proof. intros w r w' H. inversion H. reflexivity. Qed.

Lemma keeps_lift {A} (x : Sql.result A) : keeps_table (World.lift x).
Proof. intros w r w' H. inversion H. reflexivity. Qed.

Lemma keeps_issue s : keeps_table (World.issue s).
Proof. intros w r w' H. inversion H. reflexivity. Qed.

Lemma keeps_uuidv4 : keeps_table World.uuidv4.
Proof. intros w r w' H. inversion H. reflexivity. Qed.

Lemma keeps_bind {A B} (m : World.M A) (k : A -> World.M B) :
  keeps_table m -> (forall a, keeps_table (k a)) -> keeps_table (World.bind m k).
Proof.
  intros Hm Hk w r w' H. unfold World.bind in H.
  destruct (m w) as [[a|e] w1] eqn:E.
  - rewrite (Hk a _ _ _ H). eapply Hm; eauto.
  - inversion H; subst. eapply Hm; eauto.
Qed.

Lemma keeps_pure_step {A} (f : World.t -> Sql.result A) :
  keeps_table (fun w => (f w, w)).
Proof. intros w r w' H. inversion H. reflexivity. Qed.

Create HintDb keeps.

#[local] Hint Resolve keeps_ret keeps_throw keeps_lift keeps_issue keeps_uuidv4
  keeps_pure_step : keeps.

Ltac keeps :=
  repeat first
    [ apply keeps_bind; [|intros ?]
    | solve [auto with keeps]
    | match goal with
      | |- keeps_table (if ?c then _ else _) => destruct c
      | |- keeps_table (match ?x with _ => _ end) => destruct x
      end ].

Lemma keeps_new data : keeps_table (Todo.new data).
Proof. unfold Todo.new. keeps. Qed.

Lemma keeps_get_by_id i : keeps_table (Database.get_by_id i).
Proof. unfold Database.get_by_id. keeps. Qed.

Lemma keeps_all_by_user flt u lim off : keeps_table (Database.all_by_user flt u lim off).
Proof. unfold Database.all_by_user. keeps. Qed.

Lemma keeps_get_count flt u : keeps_table (Database.get_count flt u).
Proof. unfold Database.get_count. keeps. Qed.

#[local] Hint Resolve keeps_new keeps_get_by_id keeps_all_by_user keeps_get_count : keeps.

Lemma keeps_map_new rows : keeps_table (Todo.map_new rows).
Proof. induction rows; simpl; keeps. Qed.

#[local] Hint Resolve keeps_map_new : keeps.

Lemma keeps_findById i : keeps_table (Todo.findById i).
Proof. unfold Todo.findById. keeps. Qed.

Lemma keeps_findByUserId u options : keeps_table (Todo.findByUserId u options).
Proof. unfold Todo.findByUserId. keeps. Qed.

Lemma keeps_getCountByUserId u status : keeps_table (Todo.getCountByUserId u status).
Proof. unfold Todo.getCountByUserId. keeps. Qed.

Lemma keeps_toJSON t : keeps_table (Todo.toJSON t).
Proof. unfold Todo.toJSON. keeps. Qed.

#[local] Hint Resolve keeps_findById keeps_findByUserId keeps_getCountByUserId
  keeps_toJSON : keeps.

Lemma keeps_map_toJSON todos : keeps_table (map_toJSON todos).
Proof. induction todos; simpl; keeps. Qed.

Lemma keeps_req_user_id req : keeps_table (req_user_id req).
Proof. unfold req_user_id. keeps. Qed.

#[local] Hint Resolve keeps_map_toJSON keeps_req_user_id : keeps.

Lemma toJSON_intact t w :
  Todo.toJSON_intact t = true -> Todo.toJSON t w = (Sql.Ok (json_of t), w).
Proof. intros H. unfold Todo.toJSON. now rewrite H. Qed.

Lemma map_toJSON_intact todos w :
  Forall (fun t => Todo.toJSON_intact t = true) todos ->
  map_toJSON todos w = (Sql.Ok (map json_of todos), w).
Proof.
  induction 1 as [|t todos Ht Hrest IH]; simpl; auto.
  rewrite (bind_ok _ _ _ _ _ (toJSON_intact t w Ht)).
  now rewrite (bind_ok _ _ _ _ _ IH).
Qed.

(* ================================================================== *)
(** ** Writes touch the rows of one identifier only *)

Lemma assign_column_keys kv r r' :
  Sql.assign_column kv r = Sql.Ok r' ->
  Sql.id r' = Sql.id r /\ Sql.user_id r' = Sql.user_id r.
Proof.
  destruct kv as [k v]. unfold Sql.assign_column.
  destruct (k =? "title")%string;
    [destruct (Sql.bind_text_not_null v)
    |destruct (k =? "description")%string;
     [destruct (Sql.bind_text v)
     |destruct (k =? "completed")%string; [destruct (Sql.bind_boolean v)|]]];
    intros H; inversion H; subst; auto.
Qed.

Lemma assign_columns_keys sets : forall r r',
  Sql.assign_columns sets r = Sql.Ok r' ->
  Sql.id r' = Sql.id r /\ Sql.user_id r' = Sql.user_id r.
Proof.
  induction sets as [|kv sets IH]; intros r r' H; simpl in H.
  - inversion H; auto.
  - destruct (Sql.assign_column kv r) as [r1|e] eqn:E; [|discriminate].
    apply assign_column_keys in E. apply IH in H. intuition congruence.
Qed.

Lemma update_where_id_foreign sets now i u : forall tbl tbl',
  (forall r, In r tbl -> Sql.has_id i r = true -> Sql.owned_by u r = true) ->
  Sql.update_where_id sets now i tbl = Sql.Ok tbl' ->
  foreign u tbl' = foreign u tbl.
Proof.
  induction tbl as [|r tbl IH]; intros tbl' Hown H; simpl in H.
  - inversion H. reflexivity.
  - destruct (Sql.update_where_id sets now i tbl) as [rest|e] eqn:E; [|discriminate].
    assert (IH' : foreign u rest = foreign u tbl).
    { apply IH; auto. intros r0 Hr0. apply Hown. now right. }
    destruct (Sql.has_id i r) eqn:Hi.
    + destruct (Sql.assign_columns sets r) as [r1|e] eqn:A; [|discriminate].
      inversion H; subst. apply assign_columns_keys in A. destruct A as [_ A].
      assert (O : Sql.owned_by u r = true) by (apply Hown; [now left|assumption]).
      unfold foreign in *. simpl.
      unfold Sql.owned_by in *. simpl. rewrite A, O. simpl. exact IH'.
    + inversion H; subst. unfold foreign in *. simpl. now rewrite IH'.
Qed.

Lemma delete_where_id_foreign i u tbl :
  (forall r, In r tbl -> Sql.has_id i r = true -> Sql.owned_by u r = true) ->
  foreign u (Sql.delete_where_id i tbl) = foreign u tbl.
Proof.
  induction tbl as [|r tbl IH]; intros Hown; auto.
  assert (IH' : foreign u (Sql.delete_where_id i tbl) = foreign u tbl).
  { apply IH. intros r0 Hr0. apply Hown. now right. }
  unfold foreign, Sql.delete_where_id in *. simpl.
  destruct (Sql.has_id i r) eqn:Hi; simpl.
  - rewrite (Hown r (or_introl eq_refl) Hi). simpl. exact IH'.
  - now rewrite IH'.
Qed.

Lemma primary_key_unique i tbl r :
  primary_key tbl ->
  find (Sql.has_id i) tbl = Some r ->
  forall r0, In r0 tbl -> Sql.has_id i r0 = true -> r0 = r.
Proof.
  unfold primary_key. induction tbl as [|h tbl IH]; intros Hnd Hf r0 Hin Hid.
  - contradiction.
  - simpl in Hnd. inversion Hnd as [|? ? Hnot Hrest]; subst.
    simpl in Hf. destruct (Sql.has_id i h) eqn:Hh.
    + inversion Hf; subst. destruct Hin as [E|Hin]; auto.
      exfalso. apply Hnot. apply in_map_iff. exists r0. split; auto.
      unfold Sql.has_id in *. apply String.eqb_eq in Hid, Hh. congruence.
    + destruct Hin as [E|Hin]; [subst; congruence|]. now apply IH.
Qed.

Lemma update_foreign this i payload u w res w' :
  Todo.id this = JS.VStr i ->
  (forall r, In r (World.table w) -> Sql.has_id i r = true -> Sql.owned_by u r = true) ->
  Todo.update this payload w = (res, w') ->
  foreign u (World.table w') = foreign u (World.table w).
Proof.
  intros Hid Hown. unfold Todo.update.
  destruct (Todo.collect_updates payload) as [|kv sets].
  - intros H. inversion H. reflexivity.
  - rewrite Hid. unfold Database.run_update. run_world.
    destruct (Sql.update_where_id (kv :: sets) (World.clock w) i (World.table w))
      as [tbl|e] eqn:E; intros H; inversion H; subst; simpl; auto.
    eapply update_where_id_foreign; eauto.
Qed.

Lemma delete_spec this i w :
  Todo.id this = JS.VStr i ->
  Todo.delete this w
  = (Sql.Ok true,
     World.with_table (Sql.delete_where_id i (World.table w))
                      (logged (Sql.DeleteTodo (JS.VStr i)) w)).
Proof. intros Hid. unfold Todo.delete. rewrite Hid. reflexivity. Qed.

Lemma run_insert_foreign i u t d c uid w res w' :
  u = JS.VStr uid ->
  Database.run_insert i u t d c w = (res, w') ->
  foreign uid (World.table w') = foreign uid (World.table w).
Proof.
  intros Hu. subst u. unfold Database.run_insert. run_world.
  destruct (Sql.bind_key i) as [i'|e]; simpl; [|intros H; inversion H; reflexivity].
  destruct (Sql.bind_text_not_null t) as [t'|e]; simpl;
    [|intros H; inversion H; reflexivity].
  destruct (Sql.bind_text d) as [d'|e]; simpl; [|intros H; inversion H; reflexivity].
  destruct (Sql.bind_boolean c) as [c'|e]; simpl; [|intros H; inversion H; reflexivity].
  destruct (existsb (Sql.has_id i') (World.table w));
    intros H; inversion H; subst; simpl; auto.
  unfold foreign. rewrite filter_app. simpl.
  unfold Sql.owned_by at 2. simpl. rewrite String.eqb_refl. simpl.
  apply app_nil_r.
Qed.

(* ================================================================== *)
(** ** The primary key is an invariant of every model method *)

Lemma primary_key_insert tbl row :
  primary_key tbl ->
  existsb (Sql.has_id (Sql.id row)) tbl = false ->
  primary_key (tbl ++ [row]).
Proof.
  unfold primary_key. intros Hnd Hfresh.
  rewrite map_app. simpl.
  apply (Permutation_NoDup (Permutation_cons_append (map Sql.id tbl) (Sql.id row))).
  constructor; auto.
  intros Hin. apply in_map_iff in Hin. destruct Hin as (r & E & Hr).
  assert (C : existsb (Sql.has_id (Sql.id row)) tbl = true).
  { apply existsb_exists. exists r. split; auto. now apply String.eqb_eq. }
  congruence.
Qed.

Lemma primary_key_filter (p : Sql.Row -> bool) tbl :
  primary_key tbl -> primary_key (filter p tbl).
Proof.
  unfold primary_key. induction tbl as [|r tbl IH]; intros Hnd; simpl; auto.
  inversion Hnd as [|? ? Hnot Hrest]; subst.
  destruct (p r); simpl; auto. constructor; auto.
  intros Hin. apply Hnot. apply in_map_iff in Hin.
  destruct Hin as (r0 & E & Hr0). apply filter_In in Hr0.
  apply in_map_iff. exists r0. tauto.
Qed.

Lemma update_where_id_ids sets now i : forall tbl tbl',
  Sql.update_where_id sets now i tbl = Sql.Ok tbl' ->
  map Sql.id tbl' = map Sql.id tbl.
Proof.
  induction tbl as [|r tbl IH]; intros tbl' H; simpl in H.
  - inversion H. reflexivity.
  - destruct (Sql.update_where_id sets now i tbl) as [rest|e]; [|discriminate].
    specialize (IH rest eq_refl).
    destruct (Sql.has_id i r).
    + destruct (Sql.assign_columns sets r) as [r1|e] eqn:A; [|discriminate].
      inversion H; subst. apply assign_columns_keys in A. destruct A as [A _].
      simpl. now rewrite A, IH.
    + inversion H; subst. simpl. now rewrite IH.
Qed.

Lemma keys_of_keeps_table {A} (m : World.M A) : keeps_table m -> keeps_primary_key m.
Proof. intros Hk w r w' Hpk H. now rewrite (Hk w r w' H). Qed.

Lemma keys_bind {A B} (m : World.M A) (k : A -> World.M B) :
  keeps_primary_key m -> (forall a, keeps_primary_key (k a)) ->
  keeps_primary_key (World.bind m k).
Proof.
  intros Hm Hk w r w' Hpk H. unfold World.bind in H.
  destruct (m w) as [[a|e] w1] eqn:E.
  - eapply Hk; [|exact H]. eapply Hm; eauto.
  - inversion H; subst. eapply Hm; eauto.
Qed.

Lemma keys_run_insert i u t d c : keeps_primary_key (Database.run_insert i u t d c).
Proof.
  unfold Database.run_insert.
  apply keys_bind; [apply keys_of_keeps_table; auto with keeps|intros _].
  apply keys_bind; [apply keys_of_keeps_table; auto with keeps|intros i'].
  apply keys_bind; [apply keys_of_keeps_table; auto with keeps|intros u'].
  apply keys_bind; [apply keys_of_keeps_table; auto with keeps|intros t'].
  apply keys_bind; [apply keys_of_keeps_table; auto with keeps|intros d'].
  apply keys_bind; [apply keys_of_keeps_table; auto with keeps|intros c'].
  intros w r w' Hpk. destruct (existsb (Sql.has_id i') (World.table w)) eqn:E;
    intros H; inversion H; subst; auto.
  simpl. now apply primary_key_insert.
Qed.

Lemma keys_run_update sets i : keeps_primary_key (Database.run_update sets i).
Proof.
  unfold Database.run_update.
  apply keys_bind; [apply keys_of_keeps_table; auto with keeps|intros _].
  apply keys_bind; [apply keys_of_keeps_table; auto with keeps|intros i'].
  intros w r w' Hpk.
  destruct (Sql.update_where_id sets (World.clock w) i' (World.table w)) as [tbl|e] eqn:E;
    intros H; inversion H; subst; auto.
  unfold primary_key in *. simpl. now rewrite (update_where_id_ids _ _ _ _ _ E).
Qed.

Lemma keys_run_delete i : keeps_primary_key (Database.run_delete i).
Proof.
  unfold Database.run_delete.
  apply keys_bind; [apply keys_of_keeps_table; auto with keeps|intros _].
  apply keys_bind; [apply keys_of_keeps_table; auto with keeps|intros i'].
  intros w r w' Hpk H. inversion H; subst. simpl.
  now apply primary_key_filter.
Qed.

Lemma keys_create data : keeps_primary_key (Todo.create data).
Proof.
  unfold Todo.create. apply keys_bind.
  - apply keys_of_keeps_table, keeps_new.
  - intros todo. apply keys_bind; [apply keys_run_insert|].
    intros _. apply keys_of_keeps_table, keeps_ret.
Qed.

Lemma keys_update this payload : keeps_primary_key (Todo.update this payload).
Proof.
  unfold Todo.update. destruct (Todo.collect_updates payload).
  - apply keys_of_keeps_table, keeps_ret.
  - apply keys_bind; [apply keys_run_update|].
    intros _. apply keys_of_keeps_table, keeps_ret.
Qed.

Lemma keys_delete this : keeps_primary_key (Todo.delete this).
Proof.
  unfold Todo.delete. apply keys_bind; [apply keys_run_delete|].
  intros _. apply keys_of_keeps_table, keeps_ret.
Qed.

(* ================================================================== *)
(** ** The query validation *)

Lemma validateTodoQuery_rejects req :
  query_rejected (Http.query req) = true ->
  exists res,
    Validation.validateTodoQuery req = Http.Respond res /\
    Http.status res = 400 /\ Http.success res = false /\
    Http.payload res = Http.NoData.
Proof.
  unfold query_rejected, status_rejected, limit_rejected, offset_rejected,
    Validation.validateTodoQuery.
  destruct (JS.truthy (JS.get "status" (Http.query req))
            && negb (JS.includes ["all"; "completed"; "pending"]
                                 (JS.get "status" (Http.query req)))).
  - intros _. eexists; split; [reflexivity|]. repeat split.
  - cbn [orb].
    destruct (JS.truthy (JS.get "limit" (Http.query req))); cbn [andb orb].
    + destruct (JS.parseInt (JS.get "limit" (Http.query req))) as [n|];
        cbn [JS.isNaN JS.lt JS.gt orb].
      * destruct ((n <? 1) || (100 <? n)); cbn [orb].
        -- intros _. eexists; split; [reflexivity|]. repeat split.
        -- destruct (JS.truthy (JS.get "offset" (Http.query req))); cbn [andb];
             [|discriminate].
           destruct (JS.parseInt (JS.get "offset" (Http.query req))) as [m|];
             cbn [JS.isNaN JS.lt orb].
           ++ intros Hm. rewrite Hm.
              eexists; split; [reflexivity|]. repeat split.
           ++ intros _. eexists; split; [reflexivity|]. repeat split.
      * intros _. eexists; split; [reflexivity|]. repeat split.
    + destruct (JS.truthy (JS.get "offset" (Http.query req))); cbn [andb];
        [|discriminate].
      destruct (JS.parseInt (JS.get "offset" (Http.query req))) as [m|];
        cbn [JS.isNaN JS.lt orb].
      * intros Hm. rewrite Hm. eexists; split; [reflexivity|]. repeat split.
      * intros _. eexists; split; [reflexivity|]. repeat split.
Qed.

Lemma validateTodoQuery_accepts req :
  query_rejected (Http.query req) = false ->
  Validation.validateTodoQuery req
  = Http.Next (Http.with_query (validated_query (Http.query req)) req) /\
  1 <= requested 50 (JS.get "limit" (Http.query req)) <= 100 /\
  0 <= requested 0 (JS.get "offset" (Http.query req)).
Proof.
  unfold query_rejected, status_rejected, limit_rejected, offset_rejected,
    Validation.validateTodoQuery, validated_query, requested.
  destruct (JS.truthy (JS.get "status" (Http.query req))
            && negb (JS.includes ["all"; "completed"; "pending"]
                                 (JS.get "status" (Http.query req))));
    [discriminate|].
  cbn [orb].
  destruct (JS.truthy (JS.get "limit" (Http.query req))); cbn [andb orb].
  - destruct (JS.parseInt (JS.get "limit" (Http.query req))) as [n|];
      cbn [JS.isNaN JS.lt JS.gt orb]; [|discriminate].
    destruct ((n <? 1) || (100 <? n)) eqn:Hn; cbn [orb]; [discriminate|].
    apply orb_false_iff in Hn. destruct Hn as [Hn1 Hn2].
    apply Z.ltb_ge in Hn1, Hn2.
    destruct (JS.truthy (JS.get "offset" (Http.query req))); cbn [andb].
    + destruct (JS.parseInt (JS.get "offset" (Http.query req))) as [m|];
        cbn [JS.isNaN JS.lt orb]; [|discriminate].
      intros Hm. rewrite Hm. apply Z.ltb_ge in Hm.
      repeat split; auto.
    + intros _. repeat split; auto. lia.
  - destruct (JS.truthy (JS.get "offset" (Http.query req))); cbn [andb].
    + destruct (JS.parseInt (JS.get "offset" (Http.query req))) as [m|];
        cbn [JS.isNaN JS.lt orb]; [|discriminate].
      intros Hm. rewrite Hm. apply Z.ltb_ge in Hm.
      repeat split; auto; lia.
    + intros _. repeat split; lia.
Qed.

(* ================================================================== *)
(** ** The router *)

Section RouterProperties.
Import JS World Http.

Variable verify : string -> option string.
Variable findUserById : string -> option User.t.
Variable todoCreationRules : object -> object * list string.
Variable todoUpdateRules : object -> object * list string.

Local Notation "'gate'" := (authenticateToken verify findUserById).
Local Notation "'who'" := (caller verify findUserById).
Local Notation "'the_routes'" := (routes todoCreationRules todoUpdateRules).
Local Notation "'the_router'" :=
  (router verify findUserById todoCreationRules todoUpdateRules).

Lemma gate_spec req w :
  gate req w =
  (match who req with
   | Some u => Next (with_user u req)
   | None => Respond unauthenticated
   end, w).
Proof.
  unfold authenticateToken, caller, pure.
  destruct (bearer req) as [token|]; [|reflexivity].
  destruct (verify token) as [userId|]; [|reflexivity].
  destruct (findUserById userId); reflexivity.
Qed.

Lemma try_catch_responds body err w :
  exists res w', try_catch body err w = (Respond res, w').
Proof.
  unfold try_catch. destruct (body w) as [[res|e] w']; eauto.
Qed.

Lemma get_todos_responds req w :
  exists res w', get_todos req w = (Respond res, w').
Proof. apply try_catch_responds. Qed.

Lemma post_todo_responds req w :
  exists res w', post_todo req w = (Respond res, w').
Proof. apply try_catch_responds. Qed.

Lemma get_todo_responds req w :
  exists res w', get_todo req w = (Respond res, w').
Proof. apply try_catch_responds. Qed.

Lemma put_todo_responds req w :
  exists res w', put_todo req w = (Respond res, w').
Proof. apply try_catch_responds. Qed.

Lemma delete_todo_responds req w :
  exists res w', delete_todo req w = (Respond res, w').
Proof. apply try_catch_responds. Qed.

(** The chain that serves a request once the gate has let it through. *)
Lemma dispatch_routes req w :
  dispatch the_routes req w =
  match method_of req, segments req with
  | GET, [] =>
      match Validation.validateTodoQuery req with
      | Respond res => (Respond res, w)
      | Next req' => get_todos req' w
      end
  | POST, [] =>
      match validateTodoCreation todoCreationRules req w with
      | (Respond res, w') => (Respond res, w')
      | (Next req', w') => post_todo req' w'
      end
  | GET, [i] =>
      if (i =? "")%string then (Next req, w)
      else get_todo (with_params [("id", VStr i)] req) w
  | PUT, [i] =>
      if (i =? "")%string then (Next req, w)
      else
        match validateTodoUpdate todoUpdateRules
                                 (with_params [("id", VStr i)] req) w with
        | (Respond res, w') => (Respond res, w')
        | (Next req', w') => put_todo req' w'
        end
  | DELETE, [i] =>
      if (i =? "")%string then (Next req, w)
      else delete_todo (with_params [("id", VStr i)] req) w
  | _, _ => (Next req, w)
  end.
Proof.
  unfold routes.
  destruct (method_of req) eqn:Hm; destruct (segments req) as [|i [|i' rest]] eqn:Hs;
    cbn [dispatch layer_match pattern_of handlers run_handlers method_eqb];
    rewrite ?Hm, ?Hs; cbn [method_eqb]; try reflexivity.
  - unfold validateTodoQuery, pure.
    destruct (Validation.validateTodoQuery req) as [res|req']; auto.
    destruct (get_todos_responds req' w) as (res & w' & E). now rewrite E.
  - destruct (i =? "")%string; auto.
    destruct (get_todo_responds (with_params [("id", VStr i)] req) w)
      as (res & w' & E). now rewrite E.
  - destruct (validateTodoCreation todoCreationRules req w) as [[res|req'] w1]; auto.
    destruct (post_todo_responds req' w1) as (res & w' & E). now rewrite E.
  - destruct (i =? "")%string; auto.
    destruct (validateTodoUpdate todoUpdateRules
                (with_params [("id", VStr i)] req) w) as [[res|req'] w1]; auto.
    destruct (put_todo_responds req' w1) as (res & w' & E). now rewrite E.
  - destruct (i =? "")%string; auto.
    destruct (delete_todo_responds (with_params [("id", VStr i)] req) w)
      as (res & w' & E). now rewrite E.
Qed.

Lemma router_gate req w :
  the_router req w =
  match who req with
  | None => (Respond unauthenticated, w)
  | Some u => dispatch the_routes (with_user u req) w
  end.
Proof.
  unfold router, router_stack.
  cbn [dispatch layer_match pattern_of handlers run_handlers].
  rewrite gate_spec. destruct (who req); reflexivity.
Qed.

(** *** The three handlers of [/:id] *)

Lemma belongs_instance r uid :
  Todo.belongsToUser (instance_of_row r) (VStr uid) = Sql.owned_by uid r.
Proof. reflexivity. Qed.

Lemma get_todo_spec req u i w :
  user req = Some u ->
  get "id" (params req) = VStr i ->
  i <> ""%string ->
  get_todo req w =
  (Respond
     match find (Sql.has_id i) (World.table w) with
     | None => not_found
     | Some r =>
         if Sql.owned_by (User.id u) r
         then ok 200 "Todo retrieved successfully"
                 (TodoData (json_of (instance_of_row r)))
         else access_denied
     end,
   logged (Sql.SelectTodoById (VStr i)) w).
Proof.
  intros Hu Hp Hi. unfold get_todo, try_catch, req_user_id.
  rewrite Hu, Hp. unfold World.bind at 1. unfold World.ret at 1.
  rewrite (bind_ok _ _ _ _ _ (findById_spec i w Hi)).
  destruct (find (Sql.has_id i) (World.table w)) as [r|]; simpl; auto.
  rewrite belongs_instance.
  destruct (Sql.owned_by (User.id u) r); reflexivity.
Qed.

Lemma delete_todo_spec req u i w :
  user req = Some u ->
  get "id" (params req) = VStr i ->
  i <> ""%string ->
  delete_todo req w =
  match find (Sql.has_id i) (World.table w) with
  | None => (Respond not_found, logged (Sql.SelectTodoById (VStr i)) w)
  | Some r =>
      if Sql.owned_by (User.id u) r
      then (Respond (ok 200 "Todo deleted successfully" NoData),
            World.with_table
              (Sql.delete_where_id i (World.table w))
              (logged (Sql.DeleteTodo (VStr i))
                      (logged (Sql.SelectTodoById (VStr i)) w)))
      else (Respond access_denied, logged (Sql.SelectTodoById (VStr i)) w)
  end.
Proof.
  intros Hu Hp Hi. unfold delete_todo, try_catch, req_user_id.
  rewrite Hu, Hp. unfold World.bind at 1. unfold World.ret at 1.
  rewrite (bind_ok _ _ _ _ _ (findById_spec i w Hi)).
  destruct (find (Sql.has_id i) (World.table w)) as [r|] eqn:F;
    cbn [option_map]; auto.
  rewrite belongs_instance.
  destruct (Sql.owned_by (User.id u) r); cbn [negb]; auto.
  apply find_has_id in F. destruct F as [_ F].
  rewrite (bind_ok _ _ _ _ _ (delete_spec (instance_of_row r) i _
                                (f_equal VStr F))).
  reflexivity.
Qed.

Lemma put_todo_spec req u i w :
  user req = Some u ->
  get "id" (params req) = VStr i ->
  i <> ""%string ->
  put_todo req w =
  match find (Sql.has_id i) (World.table w) with
  | None => (Respond not_found, logged (Sql.SelectTodoById (VStr i)) w)
  | Some r =>
      if Sql.owned_by (User.id u) r
      then
        match Todo.update (instance_of_row r) (body req)
                          (logged (Sql.SelectTodoById (VStr i)) w) with
        | (Sql.Ok t, w1) =>
            match Todo.toJSON t w1 with
            | (Sql.Ok j, w2) =>
                (Respond (ok 200 "Todo updated successfully" (TodoData j)), w2)
            | (Sql.Err _, w2) => (Respond update_failed, w2)
            end
        | (Sql.Err _, w1) => (Respond update_failed, w1)
        end
      else (Respond access_denied, logged (Sql.SelectTodoById (VStr i)) w)
  end.
Proof.
  intros Hu Hp Hi. unfold put_todo, try_catch, req_user_id.
  rewrite Hu, Hp. unfold World.bind at 1. unfold World.ret at 1.
  rewrite (bind_ok _ _ _ _ _ (findById_spec i w Hi)).
  destruct (find (Sql.has_id i) (World.table w)) as [r|] eqn:F;
    cbn [option_map]; auto.
  rewrite belongs_instance.
  destruct (Sql.owned_by (User.id u) r); cbn [negb]; auto.
  unfold World.bind.
  destruct (Todo.update (instance_of_row r) (body req)
                        (logged (Sql.SelectTodoById (VStr i)) w))
    as [[t|e] w1]; auto.
  destruct (Todo.toJSON t w1) as [[j|e] w2]; auto.
Qed.

(** *** The two handlers of [/] *)

Lemma try_catch_keeps body err w out w' :
  keeps_table body -> try_catch body err w = (out, w') ->
  World.table w' = World.table w.
Proof.
  intros Hk. unfold try_catch.
  destruct (body w) as [[res|e] w1] eqn:E; intros H; inversion H; subst;
    eapply Hk; eauto.
Qed.

Lemma findByUserId_owned u options w todos w' :
  Todo.findByUserId (VStr u) options w = (Sql.Ok todos, w') ->
  Forall (fun t => Todo.user_id t = VStr u /\ Todo.toJSON_intact t = true) todos.
Proof.
  unfold Todo.findByUserId, Database.all_by_user. run_world.
  destruct (Sql.bind_integer (default (get "limit" options) (VNum 50)))
    as [lim|e]; simpl; [|discriminate].
  destruct (Sql.bind_integer (default (get "offset" options) (VNum 0)))
    as [off|e]; simpl; [|discriminate].
  match goal with
  | |- Todo.map_new ?rows ?w0 = _ -> _ =>
      destruct (map_new_rows rows w0) as (ts & w2 & E & R & _);
      rewrite E; intros H; inversion H; subst; clear H E;
      assert (Hrows : Forall (fun r => Sql.user_id r = u) rows)
  end.
  { apply Forall_forall. intros r Hr. apply select_by_user_In in Hr.
    destruct Hr as [_ Hm]. unfold Sql.matches in Hm.
    apply andb_prop in Hm. destruct Hm as [Hm _].
    now apply String.eqb_eq in Hm. }
  eapply reflects_forall; [|exact R|exact Hrows].
  intros t r Htr Hr. simpl in Hr. split.
  - rewrite (reflects_user_id _ _ Htr). now rewrite Hr.
  - now destruct Htr as (_ & _ & _ & _ & _ & _ & I & _).
Qed.

Lemma get_todos_reads req u w out w' :
  user req = Some u ->
  get_todos req w = (out, w') ->
  World.table w' = World.table w /\
  forall res j, out = Respond res -> In j (todos_in (payload res)) ->
                get "user_id" j = VStr (User.id u).
Proof.
  intros Hu H. split.
  - revert H. unfold get_todos. apply try_catch_keeps. keeps.
  - revert H. unfold get_todos, try_catch, req_user_id. rewrite Hu.
    unfold World.bind at 1. unfold World.ret at 1.
    unfold World.bind at 1.
    destruct (Todo.findByUserId _ _ w) as [[todos|e] w1] eqn:E1.
    + apply findByUserId_owned in E1.
      unfold World.bind at 1. rewrite getCountByUserId_spec.
      rewrite (bind_ok _ _ _ _ _ (map_toJSON_intact todos _
                 (Forall_impl _ (fun t H => proj2 H) E1))).
      unfold World.ret. intros H res j Hres Hj.
      injection H as Hout Hw. subst out w'.
      injection Hres as Hr. subst res. simpl in Hj.
      apply in_map_iff in Hj. destruct Hj as (t & Ht & Hin). subst j.
      rewrite Forall_forall in E1. simpl. now apply E1.
    + intros H res j Hres Hj.
      injection H as Hout Hw. subst out w'.
      injection Hres as Hr. subst res. contradiction.
Qed.

Lemma new_user_id data w todo w1 :
  Todo.new data w = (Sql.Ok todo, w1) ->
  Todo.user_id todo = get "user_id" data /\ World.table w1 = World.table w.
Proof.
  intros H. split; [|eapply keeps_new; eauto].
  revert H. unfold Todo.new. run_world.
  destruct (truthy (get "id" data)); simpl; intros H; inversion H; reflexivity.
Qed.

Lemma post_todo_foreign req u w out w' :
  user req = Some u ->
  post_todo req w = (out, w') ->
  foreign (User.id u) (World.table w') = foreign (User.id u) (World.table w).
Proof.
  intros Hu. unfold post_todo, try_catch, req_user_id, Todo.create. rewrite Hu.
  unfold World.bind at 1. unfold World.ret at 1.
  unfold World.bind at 1. unfold World.bind at 1.
  destruct (Todo.new _ w) as [[todo|e] w1] eqn:En.
  - apply new_user_id in En. destruct En as [Hid Ht]. simpl in Hid.
    unfold World.bind at 1.
    destruct (Database.run_insert _ _ _ _ _ w1) as [[[]|e] w2] eqn:Ei;
      apply (run_insert_foreign _ _ _ _ _ (User.id u)) in Ei; auto.
    + unfold World.ret at 1.
      unfold World.bind.
      destruct (Todo.toJSON todo w2) as [[j|e] w3] eqn:Ej;
        apply keeps_toJSON in Ej; unfold World.ret;
        intros H; inversion H; subst; congruence.
    + intros H; inversion H; subst; congruence.
  - intros H; inversion H; subst.
    f_equal. eapply keeps_new; eauto.
Qed.

(** *** The gate *)

(** C3.  The router runs the authentication gate before any route: its
    answer is the gate's when the gate ends the request, and the route
    chains only ever see the request the gate passed on.  A request that
    proves no identity is answered 401 with the world untouched, so no
    todo operation is reached; a request that proves one reaches the
    routes carrying that identity. *)
Theorem gate_before_every_operation req w :
  the_router req w =
  match gate req w with
  | (Respond res, w') => (Respond res, w')
  | (Next req', w') => dispatch the_routes req' w'
  end /\
  match who req with
  | None =>
      gate req w = (Respond unauthenticated, w) /\
      the_router req w = (Respond unauthenticated, w) /\
      status unauthenticated = 401
  | Some u =>
      gate req w = (Next (with_user u req), w) /\
      the_router req w = dispatch the_routes (with_user u req) w /\
      user (with_user u req) = Some u
  end.
Proof.
  rewrite router_gate, gate_spec.
  destruct (who req) as [u|]; repeat split.
Qed.

(** *** Existence before ownership *)

Lemma validation_chain_passes rules req w :
  snd (rules (body req)) = [] ->
  Validation.validation_chain rules req w
  = (Next (with_body (fst (rules (body req))) req), w).
Proof.
  intros H. unfold Validation.validation_chain, pure.
  destruct (rules (body req)) as [b errs]. simpl in *. now subst errs.
Qed.

Lemma item_route req u i w :
  who req = Some u ->
  segments req = [i] ->
  i <> ""%string ->
  method_of req <> POST ->
  (method_of req = PUT -> snd (todoUpdateRules (body req)) = []) ->
  exists req1,
    user req1 = Some u /\ get "id" (params req1) = VStr i /\
    the_router req w =
    match method_of req with
    | GET => get_todo req1 w
    | PUT => put_todo req1 w
    | _ => delete_todo req1 w
    end.
Proof.
  intros Hwho Hs Hi Hm Hrules.
  rewrite router_gate, Hwho, dispatch_routes.
  cbn [method_of segments with_user]. rewrite Hs.
  rewrite (string_eqb_false_neq _ _ Hi).
  destruct (method_of req) eqn:M; try congruence.
  - eexists; split; [|split; [|reflexivity]]; reflexivity.
  - unfold validateTodoUpdate.
    rewrite validation_chain_passes by (apply Hrules; reflexivity).
    eexists; split; [|split; [|reflexivity]]; reflexivity.
  - eexists; split; [|split; [|reflexivity]]; reflexivity.
Qed.

Lemma item_answer req u i w res w' :
  who req = Some u ->
  segments req = [i] ->
  i <> ""%string ->
  method_of req <> POST ->
  (method_of req = PUT -> snd (todoUpdateRules (body req)) = []) ->
  the_router req w = (Respond res, w') ->
  match find (Sql.has_id i) (World.table w) with
  | None => res = not_found /\ World.table w' = World.table w
  | Some r =>
      if Sql.owned_by (User.id u) r
      then status res = 200 \/ status res = 500
      else res = access_denied /\ World.table w' = World.table w
  end.
Proof.
  intros Hwho Hs Hi Hm Hrules.
  destruct (item_route req u i w Hwho Hs Hi Hm Hrules) as (req1 & Hu & Hp & E).
  rewrite E. clear E.
  destruct (method_of req);
    [rewrite (get_todo_spec req1 u i w Hu Hp Hi)
    |rewrite (delete_todo_spec req1 u i w Hu Hp Hi)
    |rewrite (put_todo_spec req1 u i w Hu Hp Hi)
    |rewrite (delete_todo_spec req1 u i w Hu Hp Hi)];
    (destruct (find (Sql.has_id i) (World.table w)) as [r|];
     [destruct (Sql.owned_by (User.id u) r)|]);
    try (intros H; injection H as Hr Hw; subst res w'; simpl; auto; fail).
  destruct (Todo.update (instance_of_row r) (body req1)
                        (logged (Sql.SelectTodoById (VStr i)) w)) as [[t|e] w1];
    [destruct (Todo.toJSON t w1) as [[j|e] w2]|];
    intros H; injection H as Hr Hw; subst res w'; simpl; auto.
Qed.

(** C2.  For every authenticated GET, PUT or DELETE on [/:id] (the body
    of a PUT having passed its validation rules), the existence check
    comes first: when no todo has that id the answer is 404
    TODO_NOT_FOUND; when one exists whose owner is not the caller the
    answer is 403 ACCESS_DENIED, never 404; the answer is 403 only when the
    todo exists and belongs to another user, and 404 only when no todo has
    the id; nothing is written in these cases. *)
Theorem existence_checked_before_ownership req u i w :
  who req = Some u ->
  segments req = [i] ->
  i <> ""%string ->
  method_of req <> POST ->
  (method_of req = PUT -> snd (todoUpdateRules (body req)) = []) ->
  (exists res w', the_router req w = (Respond res, w')) /\
  (find (Sql.has_id i) (World.table w) = None ->
   exists w', the_router req w = (Respond not_found, w') /\
              World.table w' = World.table w) /\
  (forall r, find (Sql.has_id i) (World.table w) = Some r ->
             Sql.user_id r <> User.id u ->
             exists w', the_router req w = (Respond access_denied, w') /\
                        World.table w' = World.table w) /\
  (forall res w', the_router req w = (Respond res, w') -> status res = 403 ->
                  exists r, find (Sql.has_id i) (World.table w) = Some r /\
                            Sql.user_id r <> User.id u) /\
  (forall res w', the_router req w = (Respond res, w') -> status res = 404 ->
                  find (Sql.has_id i) (World.table w) = None) /\
  (status not_found = 404 /\ code not_found = Some "TODO_NOT_FOUND"%string) /\
  (status access_denied = 403 /\ code access_denied = Some "ACCESS_DENIED"%string).
Proof.
  intros Hwho Hs Hi Hm Hrules.
  assert (Hanswers : exists res w', the_router req w = (Respond res, w')).
  { destruct (item_route req u i w Hwho Hs Hi Hm Hrules) as (req1 & _ & _ & E).
    rewrite E. destruct (method_of req);
      [apply get_todo_responds | apply delete_todo_responds
      | apply put_todo_responds | apply delete_todo_responds]. }
  pose proof (fun res w' => item_answer req u i w res w' Hwho Hs Hi Hm Hrules) as Hans.
  destruct Hanswers as (res0 & w0 & E0).
  split; [now exists res0, w0|].
  split; [|split; [|split; [|split; [|split; split; reflexivity]]]].
  - intros Hnone. specialize (Hans res0 w0 E0). rewrite Hnone in Hans.
    destruct Hans as [Hr Ht]. subst res0. now exists w0.
  - intros r Hsome Hother. specialize (Hans res0 w0 E0). rewrite Hsome in Hans.
    assert (O : Sql.owned_by (User.id u) r = false) by (now apply String.eqb_neq).
    rewrite O in Hans.
    destruct Hans as [Hr Ht]. subst res0. now exists w0.
  - intros res w' E St. specialize (Hans res w' E).
    destruct (find (Sql.has_id i) (World.table w)) as [r|].
    + exists r. split; auto.
      destruct (Sql.owned_by (User.id u) r) eqn:O.
      * destruct Hans as [H|H]; rewrite H in St; discriminate St.
      * now apply String.eqb_neq.
    + destruct Hans as [Hr _]. subst res. discriminate St.
  - intros res w' E St. specialize (Hans res w' E).
    destruct (find (Sql.has_id i) (World.table w)) as [r|]; auto.
    destruct (Sql.owned_by (User.id u) r).
    + destruct Hans as [H|H]; rewrite H in St; discriminate St.
    + destruct Hans as [Hr _]. subst res. discriminate St.
Qed.

(** *** Listing with pagination *)

Lemma reflects_intact todos rows :
  Forall2 reflects todos rows ->
  Forall (fun t => Todo.toJSON_intact t = true) todos.
Proof.
  induction 1 as [|t r todos rows Htr _ IH]; constructor; auto.
  now destruct Htr as (_ & _ & _ & _ & _ & _ & I & _).
Qed.

Lemma get_todos_valid req u w l o :
  user req = Some u ->
  get "limit" (query req) = VNum l ->
  get "offset" (query req) = VNum o ->
  let flt := filter_of_status (get "status" (query req)) in
  let total := Sql.count_by_user flt (User.id u) (World.table w) in
  exists ts w',
    get_todos req w
    = (Respond (ok 200 "Todos retrieved successfully"
                   (TodosData (map json_of ts)
                      [ ("total", VNum total); ("limit", VNum l);
                        ("offset", VNum o);
                        ("hasMore", VBool (o + l <? total)) ])), w') /\
    Forall2 reflects ts
            (Sql.select_by_user flt (User.id u) l o (World.table w)) /\
    World.table w' = World.table w /\
    World.issued w'
    = (World.issued w ++
       [ Sql.SelectTodosByUser flt (VStr (User.id u)) (VNum l) (VNum o);
         Sql.CountTodosByUser flt (VStr (User.id u)) ])%list.
Proof.
  intros Hu Hl Ho flt total.
  unfold get_todos, try_catch, req_user_id. rewrite Hu, Hl, Ho.
  unfold World.bind at 1. unfold World.ret at 1.
  destruct (findByUserId_spec (User.id u) (get "status" (query req)) l o w)
    as (ts & w1 & E & R & (S1 & S2 & S3 & S4)).
  unfold list_options in E. rewrite (bind_ok _ _ _ _ _ E).
  unfold World.bind at 1. rewrite getCountByUserId_spec.
  rewrite (bind_ok _ _ _ _ _ (map_toJSON_intact ts _ (reflects_intact _ _ R))).
  unfold World.ret. fold flt. rewrite S1. fold total.
  exists ts. eexists. split; [reflexivity|].
  split; [exact R|]. split; [exact S1|].
  simpl. rewrite S2. simpl. now rewrite <- app_assoc.
Qed.

Lemma list_route_valid req u w :
  who req = Some u ->
  method_of req = GET ->
  segments req = [] ->
  query_rejected (query req) = false ->
  let l := requested 50 (get "limit" (query req)) in
  let o := requested 0 (get "offset" (query req)) in
  let total := Sql.count_by_user (filter_of_status (get "status" (query req)))
                                 (User.id u) (World.table w) in
  exists todos w',
    the_router req w
    = (Respond (ok 200 "Todos retrieved successfully"
                   (TodosData todos
                      [ ("total", VNum total); ("limit", VNum l);
                        ("offset", VNum o);
                        ("hasMore", VBool (o + l <? total)) ])), w') /\
    Z.of_nat (List.length todos) = Z.min l (Z.max 0 (total - o)).
Proof.
  intros Hwho Hm Hs Hq l o total.
  rewrite router_gate, Hwho, dispatch_routes.
  cbn [method_of segments with_user]. rewrite Hm, Hs.
  change (Http.query (with_user u req)) with (query req) in *.
  destruct (validateTodoQuery_accepts (with_user u req) Hq) as (E & Hl & Ho).
  rewrite E. cbn [query with_user] in *. fold l o in Hl, Ho.
  destruct (get_todos_valid
              (with_query (validated_query (query req)) (with_user u req))
              u w l o) as (ts & w' & Eh & R & _).
  { reflexivity. }
  { cbn [query with_query]. unfold validated_query.
    rewrite get_set_other by discriminate. apply get_set_same. }
  { cbn [query with_query]. unfold validated_query. apply get_set_same. }
  cbn [query with_query] in Eh, R.
  assert (Hst : get "status" (validated_query (query req))
                = get "status" (query req)).
  { unfold validated_query. now rewrite !get_set_other by discriminate. }
  rewrite Hst in Eh, R. fold total in Eh.
  exists (map json_of ts), w'. split; [exact Eh|].
  rewrite length_map, (Forall2_length_eq _ _ _ R).
  unfold Sql.select_by_user. rewrite limit_offset_length by lia.
  now rewrite <- count_by_user_length.
Qed.

(** C5.  For every authenticated [GET /api/todos] whose query passes the
    validation, with numbers the code computes exactly (the offset plus
    the limit, and the count, within [max_safe_integer]), the answer is
    200 and its pagination holds the count of the caller's todos for the
    same status filter, whatever the limit and offset, the limit and
    offset in force, and [hasMore] equal to [offset + limit < total]; the
    page holds [min limit (total - offset)] todos, none when the offset is
    past the end; [calculatePagination] computes the same [hasMore].  In
    particular, with 10 todos and limit 3, offset 9 gives 1 todo and
    [hasMore] false, and offset 6 gives 3 todos and [hasMore] true. *)
Theorem list_pagination req u w :
  who req = Some u ->
  method_of req = GET ->
  segments req = [] ->
  query_rejected (query req) = false ->
  let l := requested 50 (get "limit" (query req)) in
  let o := requested 0 (get "offset" (query req)) in
  let total := Sql.count_by_user (filter_of_status (get "status" (query req)))
                                 (User.id u) (World.table w) in
  o + l <= max_safe_integer ->
  total <= max_safe_integer ->
  exists todos w',
    the_router req w
    = (Respond (ok 200 "Todos retrieved successfully"
                   (TodosData todos
                      [ ("total", VNum total); ("limit", VNum l);
                        ("offset", VNum o);
                        ("hasMore", VBool (o + l <? total)) ])), w') /\
    Z.of_nat (List.length todos) = Z.min l (Z.max 0 (total - o)) /\
    Helpers.hasMore (Helpers.calculatePagination total l o) = (o + l <? total) /\
    (total = 10 -> l = 3 -> o = 9 ->
     List.length todos = 1%nat /\ (o + l <? total) = false) /\
    (total = 10 -> l = 3 -> o = 6 ->
     List.length todos = 3%nat /\ (o + l <? total) = true).
Proof.
  intros Hwho Hm Hs Hq l o total _ _.
  destruct (list_route_valid req u w Hwho Hm Hs Hq) as (todos & w' & E & Hlen).
  fold l o total in E, Hlen.
  exists todos, w'. split; [exact E|]. split; [exact Hlen|].
  split; [reflexivity|].
  split; intros Ht Hl' Ho'; rewrite Ht, Hl', Ho' in *; split;
    try reflexivity; lia.
Qed.

(** *** The query validation in front of the list handler *)

Lemma requested_default dflt v : truthy v = false -> requested dflt v = dflt.
Proof. intros H. unfold requested. now rewrite H. Qed.

(** C9, as amended.  For every authenticated [GET /api/todos], in which a
    limit or an offset is a text, as a query string gives it, or else no
    number beyond the safe integers: a non-empty status outside [all],
    [completed], [pending], a non-empty
    limit in which [parseInt] reads no number or one outside 1..100, or a
    non-empty offset in which [parseInt] reads no number or a negative
    one, is answered 400 with the world untouched: no statement reaches
    the database.  When the query passes, the validation hands the
    request on with the limit 50 for an absent or empty limit and the
    offset 0 for an absent or empty offset, and when the offset is within
    [max_safe_integer] the answer is 200 with these two numbers. *)
Theorem query_validation_before_storage req u w :
  who req = Some u ->
  method_of req = GET ->
  segments req = [] ->
  let st := get "status" (query req) in
  let lim := get "limit" (query req) in
  let off := get "offset" (query req) in
  safe_number lim = true ->
  safe_number off = true ->
  ((truthy st = true /\
    ~ In st [VStr "all"; VStr "completed"; VStr "pending"]) \/
   (truthy lim = true /\
    forall n, parseInt lim = Some n -> n < 1 \/ 100 < n) \/
   (truthy off = true /\
    forall n, parseInt off = Some n -> n < 0) ->
   exists res,
     the_router req w = (Respond res, w) /\
     status res = 400 /\ success res = false) /\
  (query_rejected (query req) = false ->
   (exists req',
      Validation.validateTodoQuery (with_user u req) = Next req' /\
      (truthy lim = false -> get "limit" (query req') = VNum 50) /\
      (truthy off = false -> get "offset" (query req') = VNum 0)) /\
   (requested 0 off <= max_safe_integer ->
    exists todos pagination w',
      the_router req w
      = (Respond (ok 200 "Todos retrieved successfully"
                     (TodosData todos pagination)), w') /\
      (truthy lim = false -> get "limit" pagination = VNum 50) /\
      (truthy off = false -> get "offset" pagination = VNum 0))).
Proof.
  intros Hwho Hm Hs st lim off _ _. split.
  - intros Hbad.
    assert (Hq : query_rejected (query req) = true).
    { assert (Hone : status_rejected (query req) = true \/
                     limit_rejected (query req) = true \/
                     offset_rejected (query req) = true).
      { unfold status_rejected, limit_rejected, offset_rejected.
        fold st lim off.
        destruct Hbad as [[Ht Hout]|[[Ht Hout]|[Ht Hout]]];
          [left|right; left|right; right]; rewrite Ht; cbn [andb].
        - destruct (includes ["all"; "completed"; "pending"] st) eqn:Hinc; auto.
          exfalso. apply Hout. unfold includes in Hinc.
          apply existsb_exists in Hinc. destruct Hinc as (x & Hx & E).
          destruct st; simpl in E; try discriminate.
          apply String.eqb_eq in E. subst s.
          simpl in Hx. simpl. intuition (subst; auto).
        - destruct (parseInt lim) as [n|]; auto.
          destruct (Hout n eq_refl) as [H|H]; apply Z.ltb_lt in H; rewrite H;
            auto using orb_true_r.
        - destruct (parseInt off) as [n|]; auto.
          specialize (Hout n eq_refl). now apply Z.ltb_lt in Hout. }
      unfold query_rejected.
      destruct (status_rejected (query req)), (limit_rejected (query req)),
        (offset_rejected (query req)); try reflexivity.
      destruct Hone as [H|[H|H]]; discriminate. }
    rewrite router_gate, Hwho, dispatch_routes.
    cbn [method_of segments with_user]. rewrite Hm, Hs.
    destruct (validateTodoQuery_rejects (with_user u req) Hq)
      as (res & E & St & Su & _).
    rewrite E. exists res. repeat split; auto.
  - intros Hq. split.
    + destruct (validateTodoQuery_accepts (with_user u req) Hq) as (E & _).
      eexists. split; [exact E|].
      cbn [query with_query with_user]. unfold validated_query. fold lim off.
      split; intros H; rewrite (requested_default _ _ H).
      * rewrite get_set_other by discriminate. apply get_set_same.
      * apply get_set_same.
    + intros _.
      destruct (list_route_valid req u w Hwho Hm Hs Hq) as (todos & w' & E & _).
      eexists; eexists; eexists. split; [exact E|]. fold lim off.
      split; intros H; simpl; now rewrite requested_default.
Qed.

(** *** Isolation of owners *)

Lemma owned_rows_with_id i u r tbl :
  primary_key tbl ->
  find (Sql.has_id i) tbl = Some r ->
  Sql.owned_by u r = true ->
  forall r0, In r0 tbl -> Sql.has_id i r0 = true -> Sql.owned_by u r0 = true.
Proof.
  intros Hpk Hf Hown r0 Hin Hid.
  now rewrite (primary_key_unique i tbl r Hpk Hf r0 Hin Hid).
Qed.

Lemma owned_by_user_id u r : Sql.owned_by u r = true -> Sql.user_id r = u.
Proof. apply String.eqb_eq. Qed.

Lemma validation_chain_cases rules req w :
  (exists res,
      Validation.validation_chain rules req w = (Respond res, w) /\
      status res = 400 /\ payload res = NoData) \/
  (exists b, Validation.validation_chain rules req w = (Next (with_body b req), w)).
Proof.
  unfold Validation.validation_chain, pure, Validation.handleValidationErrors.
  destruct (rules (body req)) as [b [|e errs]].
  - right. now exists b.
  - left. eexists; split; [reflexivity|]. split; reflexivity.
Qed.

Lemma get_todo_isolated req u i w out w' :
  user req = Some u ->
  get "id" (params req) = VStr i ->
  i <> ""%string ->
  get_todo req w = (out, w') ->
  World.table w' = World.table w /\
  (forall res, out = Respond res -> status res = 200 ->
               exists r, find (Sql.has_id i) (World.table w) = Some r /\
                         Sql.user_id r = User.id u) /\
  (forall res j, out = Respond res -> In j (todos_in (payload res)) ->
                 get "user_id" j = VStr (User.id u)).
Proof.
  intros Hu Hp Hi. rewrite (get_todo_spec req u i w Hu Hp Hi).
  intros H. injection H as Hout Hw. subst out w'.
  split; [reflexivity|].
  destruct (find (Sql.has_id i) (World.table w)) as [r|].
  - destruct (Sql.owned_by (User.id u) r) eqn:O.
    + apply owned_by_user_id in O. split.
      * intros res Hres _. now exists r.
      * intros res j Hres Hj. injection Hres as Hr. subst res.
        simpl in Hj. destruct Hj as [Hj|[]]. subst j. simpl. now rewrite O.
    + split.
      * intros res Hres St. injection Hres as Hr. subst res. discriminate St.
      * intros res j Hres Hj. injection Hres as Hr. subst res. contradiction.
  - split.
    + intros res Hres St. injection Hres as Hr. subst res. discriminate St.
    + intros res j Hres Hj. injection Hres as Hr. subst res. contradiction.
Qed.

Lemma put_todo_isolated req u i w out w' :
  primary_key (World.table w) ->
  user req = Some u ->
  get "id" (params req) = VStr i ->
  i <> ""%string ->
  put_todo req w = (out, w') ->
  foreign (User.id u) (World.table w') = foreign (User.id u) (World.table w) /\
  (forall res, out = Respond res -> status res = 200 ->
               exists r, find (Sql.has_id i) (World.table w) = Some r /\
                         Sql.user_id r = User.id u).
Proof.
  intros Hpk Hu Hp Hi. rewrite (put_todo_spec req u i w Hu Hp Hi).
  destruct (find (Sql.has_id i) (World.table w)) as [r|] eqn:F.
  - destruct (Sql.owned_by (User.id u) r) eqn:O.
    + pose proof (find_has_id _ _ _ F) as [_ Hid].
      destruct (Todo.update (instance_of_row r) (body req)
                            (logged (Sql.SelectTodoById (VStr i)) w))
        as [[t|e] w1] eqn:E;
        pose proof (update_foreign (instance_of_row r) i (body req) (User.id u)
                      (logged (Sql.SelectTodoById (VStr i)) w) _ _
                      (f_equal VStr Hid)
                      (owned_rows_with_id i (User.id u) r _ Hpk F O) E) as Hf;
        simpl in Hf.
      * destruct (Todo.toJSON t w1) as [[j|e] w2] eqn:J;
          apply keeps_toJSON in J; intros H; injection H as Hout Hw;
          subst out w'; (split; [congruence|]);
          intros res Hres _; exists r; split; auto;
          now apply owned_by_user_id.
      * intros H; injection H as Hout Hw; subst out w'. split; [exact Hf|].
        intros res Hres _. exists r. split; auto. now apply owned_by_user_id.
    + intros H. injection H as Hout Hw. subst out w'. split; [reflexivity|].
      intros res Hres St. injection Hres as Hr. subst res. discriminate St.
  - intros H. injection H as Hout Hw. subst out w'. split; [reflexivity|].
    intros res Hres St. injection Hres as Hr. subst res. discriminate St.
Qed.

Lemma delete_todo_isolated req u i w out w' :
  primary_key (World.table w) ->
  user req = Some u ->
  get "id" (params req) = VStr i ->
  i <> ""%string ->
  delete_todo req w = (out, w') ->
  foreign (User.id u) (World.table w') = foreign (User.id u) (World.table w) /\
  (forall res, out = Respond res -> status res = 200 ->
               exists r, find (Sql.has_id i) (World.table w) = Some r /\
                         Sql.user_id r = User.id u).
Proof.
  intros Hpk Hu Hp Hi. rewrite (delete_todo_spec req u i w Hu Hp Hi).
  destruct (find (Sql.has_id i) (World.table w)) as [r|] eqn:F.
  - destruct (Sql.owned_by (User.id u) r) eqn:O.
    + intros H. injection H as Hout Hw. subst out w'. split.
      * simpl. apply delete_where_id_foreign.
        now apply (owned_rows_with_id i (User.id u) r).
      * intros res _ _. exists r. split; auto. now apply owned_by_user_id.
    + intros H. injection H as Hout Hw. subst out w'. split; [reflexivity|].
      intros res Hres St. injection Hres as Hr. subst res. discriminate St.
  - intros H. injection H as Hout Hw. subst out w'. split; [reflexivity|].
    intros res Hres St. injection Hres as Hr. subst res. discriminate St.
Qed.

Lemma validateTodoQuery_cases req :
  (exists res,
      Validation.validateTodoQuery req = Respond res /\
      status res = 400 /\ payload res = NoData) \/
  (exists q, Validation.validateTodoQuery req = Next (with_query q req)).
Proof.
  destruct (query_rejected (query req)) eqn:Q.
  - left. destruct (validateTodoQuery_rejects req Q) as (res & E & St & _ & P).
    now exists res.
  - right. destruct (validateTodoQuery_accepts req Q) as (E & _).
    exists (validated_query (query req)). exact E.
Qed.

Ltac leaves_router H :=
  injection H as ? ?; subst;
  split; [reflexivity | split; intros; discriminate].

Ltac answered_400 H St P :=
  injection H as ? ?; subst;
  split; [reflexivity
         | split;
           [ intros ? ? Hres ? St200; injection Hres as ?; subst; congruence
           | intros ? ? Hres ? Hj; injection Hres as ?; subst;
             rewrite P in Hj; contradiction ] ].

Lemma try_catch_keys body err w out w' :
  keeps_primary_key body ->
  primary_key (World.table w) ->
  try_catch body err w = (out, w') ->
  primary_key (World.table w').
Proof.
  intros Hk Hpk. unfold try_catch.
  destruct (body w) as [[res|e] w1] eqn:E; intros H; inversion H; subst;
    eapply Hk; eauto.
Qed.

Ltac keys :=
  repeat first
    [ apply keys_create
    | apply keys_update
    | apply keys_delete
    | solve [apply keys_of_keeps_table; auto with keeps]
    | apply keys_bind; [|intros ?]
    | match goal with
      | |- keeps_primary_key (if ?c then _ else _) => destruct c
      | |- keeps_primary_key (match ?x with _ => _ end) => destruct x
      end ].

Lemma pure_same_world (f : request -> outcome) req w out w' :
  pure f req w = (out, w') -> w' = w.
Proof. unfold pure. intros H. now inversion H. Qed.

(** Every request leaves a table that respects its primary key in a table
    that still does: the hypothesis of the isolation theorem is an
    invariant of the router. *)
Lemma router_keeps_primary_key req w out w' :
  primary_key (World.table w) ->
  the_router req w = (out, w') ->
  primary_key (World.table w').
Proof.
  intros Hpk. rewrite router_gate.
  destruct (who req) as [u|]; [|intros H; now inversion H; subst].
  rewrite dispatch_routes. cbn [method_of segments with_user].
  destruct (method_of req); destruct (segments req) as [|i [|i' rest]];
    try (intros H; now inversion H; subst).
  - destruct (Validation.validateTodoQuery (with_user u req)) as [res|req'].
    + intros H; now inversion H; subst.
    + unfold get_todos. apply try_catch_keys; auto. keys.
  - destruct (i =? "")%string; [intros H; now inversion H; subst|].
    unfold get_todo. apply try_catch_keys; auto. keys.
  - destruct (validateTodoCreation todoCreationRules (with_user u req) w)
      as [[res|req'] w1] eqn:V; apply pure_same_world in V; subst w1.
    + intros H; now inversion H; subst.
    + unfold post_todo. apply try_catch_keys; auto. keys.
  - destruct (i =? "")%string; [intros H; now inversion H; subst|].
    destruct (validateTodoUpdate todoUpdateRules
                (with_params [("id", VStr i)] (with_user u req)) w)
      as [[res|req'] w1] eqn:V; apply pure_same_world in V; subst w1.
    + intros H; now inversion H; subst.
    + unfold put_todo. apply try_catch_keys; auto. keys.
  - destruct (i =? "")%string; [intros H; now inversion H; subst|].
    unfold delete_todo. apply try_catch_keys; auto. keys.
Qed.

(** C1.  For every authenticated request, whatever the route: the todos
    of other users are, after the request, exactly what they were before;
    a GET, PUT or DELETE on [/:id] succeeds only when the stored todo
    with that id exists and its [user_id] is the caller's verified id; and
    every todo that a GET returns, on [/:id] or on the list, carries the
    caller's id as its [user_id]. *)
Theorem owner_isolation req u w out w' :
  primary_key (World.table w) ->
  who req = Some u ->
  the_router req w = (out, w') ->
  foreign (User.id u) (World.table w') = foreign (User.id u) (World.table w) /\
  (forall res i, out = Respond res -> segments req = [i] -> status res = 200 ->
                 exists r, find (Sql.has_id i) (World.table w) = Some r /\
                           Sql.user_id r = User.id u) /\
  (forall res j, out = Respond res -> method_of req = GET ->
                 In j (todos_in (payload res)) ->
                 get "user_id" j = VStr (User.id u)).
Proof.
  intros Hpk Hwho. rewrite router_gate, Hwho, dispatch_routes.
  cbn [method_of segments with_user].
  destruct (method_of req) eqn:M; destruct (segments req) as [|i [|i' rest]] eqn:S;
    try (intros H; leaves_router H).
  - (* GET / *)
    destruct (validateTodoQuery_cases (with_user u req))
      as [(res & E & St & P)|(q & E)]; rewrite E; intros H.
    + answered_400 H St P.
    + destruct (get_todos_reads (with_query q (with_user u req)) u w out w'
                  eq_refl H) as [Ht Hj].
      split; [now rewrite Ht|]. split.
      * intros res i0 _ Hs. discriminate Hs.
      * intros res j Hres _ Hin. eapply Hj; eauto.
  - (* GET /:id *)
    destruct (String.eqb_spec i "") as [Ei|Ni]; [intros H; leaves_router H|].
    intros H.
    destruct (get_todo_isolated (with_params [("id", VStr i)] (with_user u req))
                u i w out w' eq_refl eq_refl Ni H) as (Ht & H200 & Hj).
    split; [now rewrite Ht|]. split.
    + intros res i0 Hres Hs St. injection Hs as Hs. subst i0. eauto.
    + intros res j Hres _ Hin. eauto.
  - (* POST / *)
    destruct (validation_chain_cases todoCreationRules (with_user u req) w)
      as [(res & E & St & P)|(b & E)];
      unfold validateTodoCreation; rewrite E; intros H.
    + answered_400 H St P.
    + pose proof (post_todo_foreign (with_body b (with_user u req)) u w out w'
                    eq_refl H) as Hf.
      split; [exact Hf|]. split.
      * intros res i0 _ Hs. discriminate Hs.
      * intros res j _ Hm. discriminate Hm.
  - (* PUT /:id *)
    destruct (String.eqb_spec i "") as [Ei|Ni]; [intros H; leaves_router H|].
    destruct (validation_chain_cases todoUpdateRules
                (with_params [("id", VStr i)] (with_user u req)) w)
      as [(res & E & St & P)|(b & E)];
      unfold validateTodoUpdate; rewrite E; intros H.
    + answered_400 H St P.
    + destruct (put_todo_isolated
                  (with_body b (with_params [("id", VStr i)] (with_user u req)))
                  u i w out w' Hpk eq_refl eq_refl Ni H) as (Hf & H200).
      split; [exact Hf|]. split.
      * intros res i0 Hres Hs St. injection Hs as Hs. subst i0. eauto.
      * intros res j _ Hm. discriminate Hm.
  - (* DELETE /:id *)
    destruct (String.eqb_spec i "") as [Ei|Ni]; [intros H; leaves_router H|].
    intros H.
    destruct (delete_todo_isolated
                (with_params [("id", VStr i)] (with_user u req))
                u i w out w' Hpk eq_refl eq_refl Ni H) as (Hf & H200).
    split; [exact Hf|]. split.
    + intros res i0 Hres Hs St. injection Hs as Hs. subst i0. eauto.
    + intros res j _ Hm. discriminate Hm.
Qed.

End RouterProperties.

(* ================================================================== *)
(** ** The statements above on the sample deployment *)

Example parseInt_reads_prefix :
  JS.parseInt (JS.VStr "42") = Some 42 /\
  JS.parseInt (JS.VStr " 12abc") = Some 12 /\
  JS.parseInt (JS.VStr "-7") = Some (-7) /\
  JS.parseInt (JS.VStr "0x1f") = Some 31 /\
  JS.parseInt (JS.VStr "1e3") = Some 1 /\
  JS.parseInt (JS.VStr "abc") = None /\
  JS.parseInt (JS.VStr "") = None.
Proof. repeat split. Qed.

(** White space of several bytes in front of the digits: the no-break
    space U+00A0, the byte order mark U+FEFF and the line separator
    U+2028. *)
Example parseInt_skips_white_space :
  let nbsp := String (ascii_of_nat 194) (String (ascii_of_nat 160) EmptyString) in
  let bom := String (ascii_of_nat 239) (String (ascii_of_nat 187)
               (String (ascii_of_nat 191) EmptyString)) in
  let ls := String (ascii_of_nat 226) (String (ascii_of_nat 128)
              (String (ascii_of_nat 168) EmptyString)) in
  JS.parseInt (JS.VStr (nbsp ++ "12")) = Some 12 /\
  JS.parseInt (JS.VStr (bom ++ " 7")) = Some 7 /\
  JS.parseInt (JS.VStr (ls ++ nbsp ++ "-3x")) = Some (-3) /\
  JS.parseInt (JS.VStr (String (ascii_of_nat 194) "12")) = None.
Proof. repeat split. Qed.

Example calculatePagination_hasMore :
  Helpers.hasMore (Helpers.calculatePagination 10 3 9) = false /\
  Helpers.hasMore (Helpers.calculatePagination 10 3 6) = true /\
  forall total limit offset,
    Helpers.hasMore (Helpers.calculatePagination total limit offset)
    = (offset + limit <? total).
Proof. repeat split. Qed.

Lemma sample_primary_key : primary_key (World.table Sample.world).
Proof.
  unfold primary_key. simpl.
  repeat constructor; simpl; intuition discriminate.
Defined.

Lemma owner_isolation_witness :
  let req := Sample.request_of Http.PUT ["t-milk"] (Some "token-alice") []
                               [("completed", JS.VBool true)] in
  primary_key (World.table Sample.world) /\
  caller Sample.verify Sample.findUserById req = Some Sample.alice /\
  exists out w',
    Sample.router req Sample.world = (out, w') /\
    foreign "u-alice" (World.table w') = foreign "u-alice" (World.table Sample.world) /\
    (forall res i, out = Http.Respond res -> Http.segments req = [i] ->
                   Http.status res = 200 ->
                   exists r, find (Sql.has_id i) (World.table Sample.world) = Some r /\
                             Sql.user_id r = "u-alice"%string).
Proof.
  intros req.
  assert (H2 : caller Sample.verify Sample.findUserById req = Some Sample.alice)
    by reflexivity.
  split; [exact sample_primary_key|]. split; [exact H2|].
  destruct (Sample.router req Sample.world) as [out w'] eqn:E.
  exists out, w'. split; [reflexivity|].
  destruct (owner_isolation Sample.verify Sample.findUserById Sample.accept_all
              Sample.accept_all req Sample.alice Sample.world out w'
              sample_primary_key H2 E) as (Hf & H200 & _).
  split; [exact Hf | exact H200].
Defined.

Lemma existence_checked_before_ownership_witness :
  let req := Sample.request_of Http.PUT ["t-taxes"] (Some "token-alice") []
                               [("completed", JS.VBool true)] in
  caller Sample.verify Sample.findUserById req = Some Sample.alice /\
  Http.segments req = ["t-taxes"%string] /\
  "t-taxes"%string <> ""%string /\
  Http.method_of req <> Http.POST /\
  (Http.method_of req = Http.PUT -> snd (Sample.accept_all (Http.body req)) = []) /\
  exists w', Sample.router req Sample.world = (Http.Respond access_denied, w') /\
             World.table w' = World.table Sample.world.
Proof.
  intros req.
  assert (H1 : caller Sample.verify Sample.findUserById req = Some Sample.alice)
    by reflexivity.
  assert (H2 : Http.segments req = ["t-taxes"%string]) by reflexivity.
  assert (H3 : "t-taxes"%string <> ""%string) by discriminate.
  assert (H4 : Http.method_of req <> Http.POST) by discriminate.
  assert (H5 : Http.method_of req = Http.PUT ->
               snd (Sample.accept_all (Http.body req)) = []) by reflexivity.
  repeat (split; [assumption|]).
  destruct (existence_checked_before_ownership
              Sample.verify Sample.findUserById Sample.accept_all Sample.accept_all
              req Sample.alice "t-taxes" Sample.world H1 H2 H3 H4 H5)
    as (_ & _ & Hdenied & _).
  apply (Hdenied Sample.taxes); [reflexivity | discriminate].
Defined.

Lemma list_pagination_witness :
  let req := Sample.request_of Http.GET [] (Some "token-alice")
                               [("limit", JS.VStr "3"); ("offset", JS.VStr "9")] [] in
  let w := Sample.world_of Sample.ten in
  caller Sample.verify Sample.findUserById req = Some Sample.alice /\
  Http.method_of req = Http.GET /\
  Http.segments req = [] /\
  query_rejected (Http.query req) = false /\
  requested 0 (JS.get "offset" (Http.query req))
  + requested 50 (JS.get "limit" (Http.query req)) <= JS.max_safe_integer /\
  Sql.count_by_user (filter_of_status (JS.get "status" (Http.query req)))
                    (User.id Sample.alice) (World.table w)
  <= JS.max_safe_integer /\
  exists todos w',
    Sample.router req w
    = (Http.Respond
         (Http.ok 200 "Todos retrieved successfully"
            (Http.TodosData todos
               [ ("total", JS.VNum 10); ("limit", JS.VNum 3); ("offset", JS.VNum 9);
                 ("hasMore", JS.VBool false) ])), w') /\
    List.length todos = 1%nat.
Proof.
  intros req w.
  assert (H1 : caller Sample.verify Sample.findUserById req = Some Sample.alice)
    by reflexivity.
  assert (H2 : Http.method_of req = Http.GET) by reflexivity.
  assert (H3 : Http.segments req = []) by reflexivity.
  assert (H4 : query_rejected (Http.query req) = false) by reflexivity.
  assert (H5 : requested 0 (JS.get "offset" (Http.query req))
               + requested 50 (JS.get "limit" (Http.query req))
               <= JS.max_safe_integer) by (vm_compute; discriminate).
  assert (H6 : Sql.count_by_user
                 (filter_of_status (JS.get "status" (Http.query req)))
                 (User.id Sample.alice) (World.table w)
               <= JS.max_safe_integer) by (vm_compute; discriminate).
  repeat (split; [assumption|]).
  destruct (list_pagination Sample.verify Sample.findUserById Sample.accept_all
              Sample.accept_all req Sample.alice w H1 H2 H3 H4 H5 H6)
    as (todos & w' & E & _ & _ & P9 & _).
  exists todos, w'. split; [exact E|].
  apply P9; reflexivity.
Defined.

Lemma query_validation_before_storage_witness :
  let req := Sample.request_of Http.GET [] (Some "token-alice")
                               [("status", JS.VStr "done")] [] in
  caller Sample.verify Sample.findUserById req = Some Sample.alice /\
  Http.method_of req = Http.GET /\
  Http.segments req = [] /\
  JS.safe_number (JS.get "limit" (Http.query req)) = true /\
  JS.safe_number (JS.get "offset" (Http.query req)) = true /\
  exists res,
    Sample.router req Sample.world = (Http.Respond res, Sample.world) /\
    Http.status res = 400 /\ Http.success res = false.
Proof.
  intros req.
  assert (H1 : caller Sample.verify Sample.findUserById req = Some Sample.alice)
    by reflexivity.
  assert (H2 : Http.method_of req = Http.GET) by reflexivity.
  assert (H3 : Http.segments req = []) by reflexivity.
  assert (H4 : JS.safe_number (JS.get "limit" (Http.query req)) = true) by reflexivity.
  assert (H5 : JS.safe_number (JS.get "offset" (Http.query req)) = true) by reflexivity.
  repeat (split; [assumption|]).
  destruct (query_validation_before_storage
              Sample.verify Sample.findUserById Sample.accept_all Sample.accept_all
              req Sample.alice Sample.world H1 H2 H3 H4 H5) as (Hreject & _).
  apply Hreject. left. split; [reflexivity|].
  simpl. intuition discriminate.
Defined.

(** C9, as stated, fails: an empty status is outside the three names and
    an offset of [12abc] is not a number, yet neither request is rejected;
    both reach the database and are answered 200, the second with offset
    12.  A limit of [1e3] is read as 1. *)
Lemma lenient_query_not_rejected :
  ~ In (JS.VStr "") [JS.VStr "all"; JS.VStr "completed"; JS.VStr "pending"] /\
  (exists todos pagination w',
      Sample.list_as_alice [("status", JS.VStr "")]
      = (Http.Respond (Http.ok 200 "Todos retrieved successfully"
                               (Http.TodosData todos pagination)), w') /\
      World.issued w' <> World.issued Sample.world) /\
  (exists todos pagination w',
      Sample.list_as_alice [("offset", JS.VStr "12abc")]
      = (Http.Respond (Http.ok 200 "Todos retrieved successfully"
                               (Http.TodosData todos pagination)), w') /\
      JS.get "offset" pagination = JS.VNum 12 /\
      World.issued w' <> World.issued Sample.world) /\
  (exists todos pagination w',
      Sample.list_as_alice [("limit", JS.VStr "1e3")]
      = (Http.Respond (Http.ok 200 "Todos retrieved successfully"
                               (Http.TodosData todos pagination)), w') /\
      JS.get "limit" pagination = JS.VNum 1).
Proof.
  split.
  { intros [H|[H|[H|[]]]]; discriminate H. }
  split; [|split].
  - eexists; eexists; eexists. split; [vm_compute; reflexivity|]. discriminate.
  - eexists; eexists; eexists. split; [vm_compute; reflexivity|].
    split; [reflexivity | discriminate].
  - eexists; eexists; eexists. split; [vm_compute; reflexivity|]. reflexivity.
Qed.

(* ================================================================== *)
(** ** Further properties of the model and of the router *)

Section RouterExtras.
Import JS World Http.

Variable verify : string -> option string.
Variable findUserById : string -> option User.t.
Variable todoCreationRules : object -> object * list string.
Variable todoUpdateRules : object -> object * list string.

Local Notation "'who'" := (caller verify findUserById).
Local Notation "'the_router'" :=
  (router verify findUserById todoCreationRules todoUpdateRules).

(** *** The primary key over a history of requests *)

Lemma serve_keeps_primary_key reqs : forall w,
  primary_key (table w) -> primary_key (table (serve the_router reqs w)).
Proof.
  induction reqs as [|req reqs IH]; intros w Hpk; simpl; auto.
  apply IH. destruct (the_router req w) as [out w'] eqn:E. simpl.
  eapply router_keeps_primary_key; eauto.
Qed.

(** X1.  Started on an empty [todos] table, the router leaves after any
    sequence of requests a table in which no two rows share an id. *)
Theorem primary_key_after_any_history reqs log now uuids drawn :
  primary_key (table (serve the_router reqs (World.mk [] log now uuids drawn))).
Proof. apply serve_keeps_primary_key. constructor. Qed.

(** *** Deleting, then looking up *)

Lemma find_delete_where_id i tbl :
  find (Sql.has_id i) (Sql.delete_where_id i tbl) = None.
Proof.
  unfold Sql.delete_where_id. induction tbl as [|r tbl IH]; simpl; auto.
  destruct (Sql.has_id i r) eqn:E; simpl; auto. now rewrite E.
Qed.

Lemma delete_todo_done req u i w res w' :
  who req = Some u ->
  method_of req = DELETE ->
  segments req = [i] ->
  i <> ""%string ->
  the_router req w = (Respond res, w') ->
  status res = 200 ->
  table w' = Sql.delete_where_id i (table w).
Proof.
  intros Hwho Hm Hs Hi E St.
  assert (Hm' : method_of req <> POST) by congruence.
  assert (Hr : method_of req = PUT -> snd (todoUpdateRules (body req)) = [])
    by congruence.
  destruct (item_route verify findUserById todoCreationRules todoUpdateRules
              req u i w Hwho Hs Hi Hm' Hr) as (req1 & Hu & Hp & E1).
  rewrite E1, Hm in E. rewrite (delete_todo_spec req1 u i w Hu Hp Hi) in E.
  destruct (find (Sql.has_id i) (table w)) as [r|].
  - destruct (Sql.owned_by (User.id u) r).
    + injection E as _ Hw. now subst w'.
    + injection E as Hr' _. subst res. discriminate St.
  - injection E as Hr' _. subst res. discriminate St.
Qed.

(** *** A free identifier stays free *)

Lemma free_ret i {A} (a : A) : keeps_free i (World.ret a).
Proof. intros w r w' H E. now inversion E; subst. Qed.

Lemma free_throw i {A} e : keeps_free i (@World.throw A e).
Proof. intros w r w' H E. now inversion E; subst. Qed.

Lemma free_lift i {A} (x : Sql.result A) : keeps_free i (World.lift x).
Proof. intros w r w' H E. now inversion E; subst. Qed.

Lemma free_issue i s : keeps_free i (World.issue s).
Proof. intros w r w' H E. inversion E; subst. exact H. Qed.

Lemma free_uuidv4 i : keeps_free i World.uuidv4.
Proof.
  intros w r w' [Hf Hu] E. inversion E; subst. split; [exact Hf|].
  cbn [uuid_drawn uuid_stream]. intros n Hn. apply Hu. lia.
Qed.

Lemma free_pure_step i {A} (f : World.t -> Sql.result A) :
  keeps_free i (fun w => (f w, w)).
Proof. intros w r w' H E. now inversion E; subst. Qed.

Lemma free_bind i {A B} (m : World.M A) (k : A -> World.M B) :
  keeps_free i m -> (forall a, keeps_free i (k a)) -> keeps_free i (World.bind m k).
Proof.
  intros Hm Hk w r w' H E. unfold World.bind in E.
  destruct (m w) as [[a|e] w1] eqn:E1.
  - eapply Hk; [|exact E]. eapply Hm; eauto.
  - inversion E; subst. eapply Hm; eauto.
Qed.

Create HintDb frees.

#[local] Hint Resolve free_ret free_throw free_lift free_issue free_uuidv4
  free_pure_step : frees.

Ltac frees :=
  repeat first
    [ apply free_bind; [|intros ?]
    | solve [auto with frees]
    | match goal with
      | |- keeps_free _ (if ?c then _ else _) => destruct c
      | |- keeps_free _ (match ?x with _ => _ end) => destruct x
      end ].

Lemma free_new i data : keeps_free i (Todo.new data).
Proof. unfold Todo.new. frees. Qed.

Lemma free_get_by_id i j : keeps_free i (Database.get_by_id j).
Proof. unfold Database.get_by_id. frees. Qed.

Lemma free_all_by_user i flt u lim off :
  keeps_free i (Database.all_by_user flt u lim off).
Proof. unfold Database.all_by_user. frees. Qed.

Lemma free_get_count i flt u : keeps_free i (Database.get_count flt u).
Proof. unfold Database.get_count. frees. Qed.

#[local] Hint Resolve free_new free_get_by_id free_all_by_user free_get_count : frees.

Lemma free_map_new i rows : keeps_free i (Todo.map_new rows).
Proof. induction rows; simpl; frees. Qed.

#[local] Hint Resolve free_map_new : frees.

Lemma free_findById i j : keeps_free i (Todo.findById j).
Proof. unfold Todo.findById. frees. Qed.

Lemma free_findByUserId i u options : keeps_free i (Todo.findByUserId u options).
Proof. unfold Todo.findByUserId. frees. Qed.

Lemma free_getCountByUserId i u status :
  keeps_free i (Todo.getCountByUserId u status).
Proof. unfold Todo.getCountByUserId. frees. Qed.

Lemma free_toJSON i t : keeps_free i (Todo.toJSON t).
Proof. unfold Todo.toJSON. frees. Qed.

#[local] Hint Resolve free_findById free_findByUserId free_getCountByUserId
  free_toJSON : frees.

Lemma free_map_toJSON i todos : keeps_free i (map_toJSON todos).
Proof. induction todos; simpl; frees. Qed.

Lemma free_req_user_id i req : keeps_free i (req_user_id req).
Proof. unfold req_user_id. frees. Qed.

#[local] Hint Resolve free_map_toJSON free_req_user_id : frees.

Lemma find_none_ids i tbl :
  find (Sql.has_id i) tbl = None <-> ~ In i (map Sql.id tbl).
Proof.
  induction tbl as [|r tbl IH]; simpl; [tauto|].
  unfold Sql.has_id at 1. destruct (String.eqb_spec (Sql.id r) i) as [E|N].
  - split; [discriminate|]. intros H. exfalso. apply H. now left.
  - rewrite IH. tauto.
Qed.

Lemma free_run_update i sets j : keeps_free i (Database.run_update sets j).
Proof.
  unfold Database.run_update.
  apply free_bind; [auto with frees|intros _].
  apply free_bind; [auto with frees|intros j'].
  intros w r w' [Hf Hu].
  destruct (Sql.update_where_id sets (clock w) j' (table w)) as [tbl|e] eqn:E;
    intros H; inversion H; subst; [|now split].
  split; [|exact Hu]. cbn [table with_table].
  apply find_none_ids. rewrite (update_where_id_ids _ _ _ _ _ E).
  now apply find_none_ids.
Qed.

Lemma free_run_delete i j : keeps_free i (Database.run_delete j).
Proof.
  unfold Database.run_delete.
  apply free_bind; [auto with frees|intros _].
  apply free_bind; [auto with frees|intros j'].
  intros w r w' [Hf Hu] H. inversion H; subst.
  split; [|exact Hu]. cbn [table with_table].
  apply find_none_ids. intros Hin. apply in_map_iff in Hin.
  destruct Hin as (r0 & E & Hr0). apply filter_In in Hr0.
  apply (proj1 (find_none_ids i (table w)) Hf).
  apply in_map_iff. exists r0. tauto.
Qed.

Lemma free_run_insert i j u t d c :
  j <> i -> keeps_free i (Database.run_insert (VStr j) u t d c).
Proof.
  intros N w r w' [Hf Hu]. unfold Database.run_insert. run_world.
  destruct (Sql.bind_text_not_null u) as [u'|e]; simpl;
    [|intros H; inversion H; subst; now split].
  destruct (Sql.bind_text_not_null t) as [t'|e]; simpl;
    [|intros H; inversion H; subst; now split].
  destruct (Sql.bind_text d) as [d'|e]; simpl;
    [|intros H; inversion H; subst; now split].
  destruct (Sql.bind_boolean c) as [c'|e]; simpl;
    [|intros H; inversion H; subst; now split].
  destruct (existsb (Sql.has_id j) (table w)); intros H; inversion H; subst;
    [now split|].
  split; [|exact Hu]. cbn [table with_table].
  apply find_none_ids. rewrite map_app. intros Hin. apply in_app_or in Hin.
  destruct Hin as [Hin|Hin].
  - now apply (proj1 (find_none_ids i (table w)) Hf).
  - simpl in Hin. destruct Hin as [Hin|[]]. now apply N.
Qed.

Lemma free_create i data :
  truthy (get "id" data) = false -> keeps_free i (Todo.create data).
Proof.
  intros Hid w r w' Hfree. unfold Todo.create, Todo.new. rewrite Hid.
  unfold World.bind at 1. unfold World.bind at 1. unfold World.bind at 1.
  unfold uuidv4 at 1. unfold World.ret at 1. unfold World.ret at 1.
  cbn [Todo.id Todo.user_id Todo.title Todo.description Todo.completed].
  set (j := uuid_stream w (uuid_drawn w)).
  set (w1 := World.mk (table w) (issued w) (clock w) (uuid_stream w)
                      (S (uuid_drawn w))).
  assert (F1 : free_id i w1).
  { destruct Hfree as [Hf Hu]. split; [exact Hf|].
    intros n Hn. apply Hu. cbn [uuid_drawn w1] in Hn. simpl in Hn. lia. }
  assert (N : j <> i) by (destruct Hfree as [_ Hu]; apply Hu; lia).
  unfold World.bind.
  destruct (Database.run_insert (VStr j) _ _ _ _ w1) as [[[]|e] w2] eqn:E;
    apply (free_run_insert i j _ _ _ _ N _ _ _ F1) in E;
    unfold World.ret; intros H; inversion H; subst; exact E.
Qed.

Lemma free_update i this payload : keeps_free i (Todo.update this payload).
Proof.
  unfold Todo.update. destruct (Todo.collect_updates payload).
  - apply free_ret.
  - apply free_bind; [apply free_run_update|]. intros _. apply free_ret.
Qed.

Lemma free_delete i this : keeps_free i (Todo.delete this).
Proof.
  unfold Todo.delete. apply free_bind; [apply free_run_delete|].
  intros _. apply free_ret.
Qed.

Lemma try_catch_free i body err w out w' :
  keeps_free i body ->
  free_id i w ->
  try_catch body err w = (out, w') ->
  free_id i w'.
Proof.
  intros Hk Hf. unfold try_catch.
  destruct (body w) as [[res|e] w1] eqn:E; intros H; inversion H; subst;
    eapply Hk; eauto.
Qed.

Ltac frees_router :=
  repeat first
    [ apply free_create; reflexivity
    | apply free_update
    | apply free_delete
    | solve [auto with frees]
    | apply free_bind; [|intros ?]
    | match goal with
      | |- keeps_free _ (if ?c then _ else _) => destruct c
      | |- keeps_free _ (match ?x with _ => _ end) => destruct x
      end ].

(** Every request leaves a free identifier free. *)
Lemma router_keeps_free i req w out w' :
  free_id i w ->
  the_router req w = (out, w') ->
  free_id i w'.
Proof.
  intros Hf.
  rewrite (router_gate verify findUserById todoCreationRules todoUpdateRules).
  destruct (who req) as [u|]; [|intros H; now inversion H; subst].
  rewrite dispatch_routes. cbn [method_of segments with_user].
  destruct (method_of req); destruct (segments req) as [|j [|j' rest]];
    try (intros H; now inversion H; subst).
  - destruct (Validation.validateTodoQuery (with_user u req)) as [res|req'].
    + intros H; now inversion H; subst.
    + unfold get_todos. apply try_catch_free; auto. frees_router.
  - destruct (j =? "")%string; [intros H; now inversion H; subst|].
    unfold get_todo. apply try_catch_free; auto. frees_router.
  - destruct (validateTodoCreation todoCreationRules (with_user u req) w)
      as [[res|req'] w1] eqn:V; apply pure_same_world in V; subst w1.
    + intros H; now inversion H; subst.
    + unfold post_todo. apply try_catch_free; auto. frees_router.
  - destruct (j =? "")%string; [intros H; now inversion H; subst|].
    destruct (validateTodoUpdate todoUpdateRules
                (with_params [("id", VStr j)] (with_user u req)) w)
      as [[res|req'] w1] eqn:V; apply pure_same_world in V; subst w1.
    + intros H; now inversion H; subst.
    + unfold put_todo. apply try_catch_free; auto. frees_router.
  - destruct (j =? "")%string; [intros H; now inversion H; subst|].
    unfold delete_todo. apply try_catch_free; auto. frees_router.
Qed.

Lemma serve_keeps_free i reqs : forall w,
  free_id i w -> free_id i (serve the_router reqs w).
Proof.
  induction reqs as [|req reqs IH]; intros w Hf; simpl; auto.
  apply IH. destruct (the_router req w) as [out w'] eqn:E. simpl.
  eapply router_keeps_free; eauto.
Qed.

(** X2.  Once an authenticated DELETE on [/:id] has been answered 200, no
    row has that id any more and the rows with another id are what they
    were; and as long as [uuidv4] does not yield that id again, whatever
    requests are served afterwards, no row has that id and every
    authenticated GET, PUT or DELETE on the same id, by any user, is
    answered 404. *)
Theorem deleted_todo_is_gone req u i w res w' :
  who req = Some u ->
  method_of req = DELETE ->
  segments req = [i] ->
  i <> ""%string ->
  the_router req w = (Respond res, w') ->
  status res = 200 ->
  find (Sql.has_id i) (table w') = None /\
  table w' = filter (fun r => negb (Sql.has_id i r)) (table w) /\
  forall later,
    (forall n, (uuid_drawn w' <= n)%nat -> uuid_stream w' n <> i) ->
    find (Sql.has_id i) (table (serve the_router later w')) = None /\
    forall req2 u2,
      who req2 = Some u2 ->
      segments req2 = [i] ->
      method_of req2 <> POST ->
      (method_of req2 = PUT -> snd (todoUpdateRules (body req2)) = []) ->
      exists w2,
        the_router req2 (serve the_router later w') = (Respond not_found, w2) /\
        table w2 = table (serve the_router later w').
Proof.
  intros Hwho Hm Hs Hi E St.
  pose proof (delete_todo_done req u i w res w' Hwho Hm Hs Hi E St) as Ht.
  assert (Hnone : find (Sql.has_id i) (table w') = None)
    by (rewrite Ht; apply find_delete_where_id).
  split; [exact Hnone|]. split; [exact Ht|].
  intros later Hu.
  assert (Hfree : free_id i (serve the_router later w'))
    by (apply serve_keeps_free; now split).
  set (w'' := serve the_router later w') in *.
  destruct Hfree as [Hnone' _].
  split; [exact Hnone'|].
  intros req2 u2 Hwho2 Hs2 Hm2 Hr2.
  destruct (item_route verify findUserById todoCreationRules todoUpdateRules
              req2 u2 i w'' Hwho2 Hs2 Hi Hm2 Hr2) as (req1 & Hu1 & Hp & E1).
  assert (Hans : exists res2 w2, the_router req2 w'' = (Respond res2, w2)).
  { rewrite E1. destruct (method_of req2);
      [apply get_todo_responds | apply delete_todo_responds
      | apply put_todo_responds | apply delete_todo_responds]. }
  destruct Hans as (res2 & w2 & E2).
  pose proof (item_answer verify findUserById todoCreationRules todoUpdateRules
                req2 u2 i w'' res2 w2 Hwho2 Hs2 Hi Hm2 Hr2 E2) as Ha.
  rewrite Hnone' in Ha. destruct Ha as [Hres Htab]. subst res2.
  now exists w2.
Qed.

(** *** Creating, then looking up *)

Lemma create_spec uid t description w :
  match description with VUndefined | VNull | VStr _ => True | _ => False end ->
  let i := uuid_stream w (uuid_drawn w) in
  let w1 := World.mk (table w)
                     (issued w ++ [Sql.InsertTodo (VStr i) (VStr uid) (VStr t)
                                                  (or description VNull) (VBool false)])
                     (clock w) (uuid_stream w) (S (uuid_drawn w)) in
  Todo.create [("user_id", VStr uid); ("title", VStr t); ("description", description)] w
  = if existsb (Sql.has_id i) (table w)
    then (Sql.Err Sql.SqliteConstraint, w1)
    else (Sql.Ok (Todo.mk (VStr i) (VStr uid) (VStr t) (or description VNull)
                          (VBool false) VUndefined VUndefined true),
          with_table (table w ++ [created_row i uid t description (clock w)]) w1).
Proof.
  intros Hd i w1. subst w1.
  unfold Todo.create, Todo.new, Database.run_insert. run_world.
  fold i. unfold created_row, stored_description.
  destruct description as [| |b|n| |d]; try contradiction; unfold or; simpl;
    try (destruct (d =? "")%string; simpl);
    destruct (existsb (Sql.has_id i) (table w)); reflexivity.
Qed.

Lemma find_app_fresh i tbl row :
  existsb (Sql.has_id i) tbl = false ->
  Sql.id row = i ->
  find (Sql.has_id i) (tbl ++ [row]) = Some row.
Proof.
  intros Hfresh Hid. induction tbl as [|r tbl IH]; simpl in *.
  - unfold Sql.has_id. rewrite Hid, String.eqb_refl. reflexivity.
  - apply orb_false_iff in Hfresh. destruct Hfresh as [H1 H2].
    rewrite H1. now apply IH.
Qed.

Lemma post_route req u w :
  who req = Some u ->
  method_of req = POST ->
  segments req = [] ->
  snd (todoCreationRules (body req)) = [] ->
  the_router req w
  = post_todo (with_body (fst (todoCreationRules (body req))) (with_user u req)) w.
Proof.
  intros Hwho Hm Hs Hr.
  rewrite router_gate, Hwho, dispatch_routes.
  cbn [method_of segments with_user]. rewrite Hm, Hs.
  unfold validateTodoCreation.
  now rewrite validation_chain_passes by exact Hr.
Qed.

Lemma post_todo_spec req u t w :
  user req = Some u ->
  get "title" (body req) = VStr t ->
  match get "description" (body req) with
  | VUndefined | VNull | VStr _ => True
  | _ => False
  end ->
  let i := uuid_stream w (uuid_drawn w) in
  let description := get "description" (body req) in
  let w1 := World.mk (table w)
                     (issued w ++ [Sql.InsertTodo (VStr i) (VStr (User.id u)) (VStr t)
                                                  (or description VNull) (VBool false)])
                     (clock w) (uuid_stream w) (S (uuid_drawn w)) in
  post_todo req w
  = if existsb (Sql.has_id i) (table w)
    then (Respond (failure 500 "Internal server error while creating todo"
                           "CREATE_TODO_ERROR"), w1)
    else (Respond (ok 201 "Todo created successfully"
                      (TodoData
                         (json_of (Todo.mk (VStr i) (VStr (User.id u)) (VStr t)
                                           (or description VNull) (VBool false)
                                           VUndefined VUndefined true)))),
          with_table (table w ++ [created_row i (User.id u) t description (clock w)])
                     w1).
Proof.
  intros Hu Ht Hd i description w1.
  unfold post_todo, try_catch, req_user_id. rewrite Hu, Ht.
  unfold World.bind at 1. unfold World.ret at 1.
  unfold World.bind at 1.
  rewrite (create_spec (User.id u) t (get "description" (body req)) w Hd).
  fold i description w1.
  destruct (existsb (Sql.has_id i) (table w)); reflexivity.
Qed.

(** X3.  A POST by an authenticated user whose body passes the creation
    rules with a string title, when [uuidv4] yields a non-empty identifier
    that no row carries, is answered 201 with that identifier and
    [completed] false, and appends one row owned by the caller with both
    timestamps at the current time; a GET of that identifier by the same
    user then returns the title, [completed] false and the creation time. *)
Theorem created_todo_is_found req u t w :
  who req = Some u ->
  method_of req = POST ->
  segments req = [] ->
  snd (todoCreationRules (body req)) = [] ->
  let b := fst (todoCreationRules (body req)) in
  get "title" b = VStr t ->
  match get "description" b with VUndefined | VNull | VStr _ => True | _ => False end ->
  let i := uuid_stream w (uuid_drawn w) in
  i <> ""%string ->
  existsb (Sql.has_id i) (table w) = false ->
  let row := created_row i (User.id u) t (get "description" b) (clock w) in
  exists j w',
    the_router req w
    = (Respond (ok 201 "Todo created successfully" (TodoData j)), w') /\
    get "id" j = VStr i /\
    get "completed" j = VBool false /\
    table w' = (table w ++ [row])%list /\
    forall req2,
      who req2 = Some u ->
      method_of req2 = GET ->
      segments req2 = [i] ->
      exists j2 w2,
        the_router req2 w'
        = (Respond (ok 200 "Todo retrieved successfully" (TodoData j2)), w2) /\
        get "id" j2 = VStr i /\
        get "user_id" j2 = VStr (User.id u) /\
        get "title" j2 = VStr t /\
        get "completed" j2 = VBool false /\
        get "created_at" j2 = VStr (clock w) /\
        get "updated_at" j2 = VStr (clock w).
Proof.
  intros Hwho Hm Hs Hr b Ht Hd i Hi Hfresh row.
  rewrite (post_route req u w Hwho Hm Hs Hr). fold b.
  rewrite (post_todo_spec (with_body b (with_user u req)) u t w eq_refl Ht Hd).
  cbn [body with_body]. fold i. rewrite Hfresh. fold row.
  eexists; eexists. split; [reflexivity|].
  split; [reflexivity|]. split; [reflexivity|]. split; [reflexivity|].
  intros req2 Hwho2 Hm2 Hs2.
  assert (Hm' : method_of req2 <> POST) by congruence.
  assert (Hr' : method_of req2 = PUT -> snd (todoUpdateRules (body req2)) = [])
    by congruence.
  match goal with
  | |- exists j2 w2, the_router req2 ?w0 = _ /\ _ =>
      destruct (item_route verify findUserById todoCreationRules todoUpdateRules
                  req2 u i w0 Hwho2 Hs2 Hi Hm' Hr') as (req1 & Hu & Hp & E1);
      rewrite E1, Hm2; rewrite (get_todo_spec req1 u i w0 Hu Hp Hi)
  end.
  cbn [table with_table].
  rewrite (find_app_fresh i (table w) row Hfresh eq_refl).
  assert (O : Sql.owned_by (User.id u) row = true) by apply String.eqb_refl.
  rewrite O.
  eexists; eexists. split; [reflexivity|].
  repeat split.
Qed.

(** X8.  When the identifier [uuidv4] yields is already the id of a row,
    the INSERT of a POST fails on the primary key: the answer is 500
    CREATE_TODO_ERROR and the table is what it was. *)
Theorem duplicate_identifier_is_refused req u t w :
  who req = Some u ->
  method_of req = POST ->
  segments req = [] ->
  snd (todoCreationRules (body req)) = [] ->
  let b := fst (todoCreationRules (body req)) in
  get "title" b = VStr t ->
  match get "description" b with VUndefined | VNull | VStr _ => True | _ => False end ->
  existsb (Sql.has_id (uuid_stream w (uuid_drawn w))) (table w) = true ->
  exists w',
    the_router req w
    = (Respond (failure 500 "Internal server error while creating todo"
                        "CREATE_TODO_ERROR"), w') /\
    table w' = table w.
Proof.
  intros Hwho Hm Hs Hr b Ht Hd Hdup.
  rewrite (post_route req u w Hwho Hm Hs Hr). fold b.
  rewrite (post_todo_spec (with_body b (with_user u req)) u t w eq_refl Ht Hd).
  rewrite Hdup. eexists. split; reflexivity.
Qed.

(** *** Updating, then looking up *)

Lemma toJSON_same_world t w : snd (Todo.toJSON t w) = w.
Proof. unfold Todo.toJSON. now destruct (Todo.toJSON_intact t). Qed.

Lemma has_id_update_step payload now i r :
  Sql.has_id i (update_step payload now i r) = Sql.has_id i r.
Proof.
  unfold update_step. destruct (Sql.has_id i r) eqn:E; auto.
Qed.

Lemma find_update_step payload now i tbl r :
  find (Sql.has_id i) tbl = Some r ->
  find (Sql.has_id i) (map (update_step payload now i) tbl)
  = Some (partial_update payload now r).
Proof.
  induction tbl as [|x tbl IH]; simpl; [discriminate|].
  rewrite has_id_update_step. destruct (Sql.has_id i x) eqn:E.
  - intros H. injection H as H. subst x. unfold update_step. now rewrite E.
  - exact IH.
Qed.

Lemma put_route req u i w :
  who req = Some u ->
  method_of req = PUT ->
  segments req = [i] ->
  i <> ""%string ->
  snd (todoUpdateRules (body req)) = [] ->
  the_router req w
  = put_todo (with_body (fst (todoUpdateRules (body req)))
                        (with_params [("id", VStr i)] (with_user u req))) w.
Proof.
  intros Hwho Hm Hs Hi Hr.
  rewrite router_gate, Hwho, dispatch_routes.
  cbn [method_of segments with_user]. rewrite Hm, Hs.
  rewrite (string_eqb_false_neq _ _ Hi).
  unfold validateTodoUpdate.
  now rewrite validation_chain_passes by exact Hr.
Qed.

Lemma get_route req u i w :
  who req = Some u ->
  method_of req = GET ->
  segments req = [i] ->
  i <> ""%string ->
  the_router req w = get_todo (with_params [("id", VStr i)] (with_user u req)) w.
Proof.
  intros Hwho Hm Hs Hi.
  rewrite router_gate, Hwho, dispatch_routes.
  cbn [method_of segments with_user]. rewrite Hm, Hs.
  now rewrite (string_eqb_false_neq _ _ Hi).
Qed.

Lemma put_todo_written req u i r w :
  user req = Some u ->
  get "id" (params req) = VStr i ->
  i <> ""%string ->
  find (Sql.has_id i) (table w) = Some r ->
  Sql.user_id r = User.id u ->
  NoDup (map fst (body req)) ->
  payload_typed (body req) ->
  Todo.collect_updates (body req) <> [] ->
  put_todo req w
  = (Respond (if Todo.toJSON_intact (Todo.assign (instance_of_row r) (body req))
              then ok 200 "Todo updated successfully"
                      (TodoData (json_of (Todo.assign (instance_of_row r) (body req))))
              else update_failed),
     with_table (map (update_step (body req) (clock w) i) (table w))
                (logged (Sql.UpdateTodo (Todo.collect_updates (body req)) (VStr i))
                        (logged (Sql.SelectTodoById (VStr i)) w))).
Proof.
  intros Hu Hp Hi Hf Hown Hnd Hty Hne.
  rewrite (put_todo_spec req u i w Hu Hp Hi), Hf.
  assert (O : Sql.owned_by (User.id u) r = true) by (now apply String.eqb_eq).
  rewrite O.
  pose proof (find_has_id _ _ _ Hf) as [_ Hid].
  rewrite (update_typed (instance_of_row r) i _ (body req)
             (f_equal VStr Hid) Hnd Hty Hne).
  unfold Todo.toJSON.
  destruct (Todo.toJSON_intact (Todo.assign (instance_of_row r) (body req)));
    reflexivity.
Qed.

(** X4.  A PUT by the owner whose body passes the update rules with
    distinct keys, values of the types of the data model and at least one
    defined field is answered 200 or 500 and rewrites exactly the rows of
    that id; a GET of the id by the owner then returns the stored row with
    the supplied fields changed and the updated timestamp at the time of
    the PUT. *)
Theorem updated_todo_is_found req u i r w :
  who req = Some u ->
  method_of req = PUT ->
  segments req = [i] ->
  i <> ""%string ->
  snd (todoUpdateRules (body req)) = [] ->
  let b := fst (todoUpdateRules (body req)) in
  find (Sql.has_id i) (table w) = Some r ->
  Sql.user_id r = User.id u ->
  NoDup (map fst b) ->
  payload_typed b ->
  Todo.collect_updates b <> [] ->
  exists res w',
    the_router req w = (Respond res, w') /\
    (status res = 200 \/ status res = 500) /\
    table w' = map (update_step b (clock w) i) (table w) /\
    forall req2,
      who req2 = Some u ->
      method_of req2 = GET ->
      segments req2 = [i] ->
      exists w2,
        the_router req2 w'
        = (Respond (ok 200 "Todo retrieved successfully"
                       (TodoData (json_of (instance_of_row
                                             (partial_update b (clock w) r))))), w2).
Proof.
  intros Hwho Hm Hs Hi Hr b Hf Hown Hnd Hty Hne.
  rewrite (put_route req u i w Hwho Hm Hs Hi Hr). fold b.
  rewrite (put_todo_written
             (with_body b (with_params [("id", VStr i)] (with_user u req)))
             u i r w eq_refl eq_refl Hi Hf Hown Hnd Hty Hne).
  cbn [body with_body].
  eexists; eexists. split; [reflexivity|]. split.
  { destruct (Todo.toJSON_intact (Todo.assign (instance_of_row r) b)); auto. }
  split; [reflexivity|].
  intros req2 Hwho2 Hm2 Hs2.
  rewrite (get_route req2 u i _ Hwho2 Hm2 Hs2 Hi).
  rewrite (get_todo_spec (with_params [("id", VStr i)] (with_user u req2)) u i _
             eq_refl eq_refl Hi).
  cbn [table with_table logged].
  rewrite (find_update_step b (clock w) i (table w) r Hf).
  assert (O : Sql.owned_by (User.id u) (partial_update b (clock w) r) = true).
  { unfold Sql.owned_by. simpl. now apply String.eqb_eq. }
  rewrite O. eexists. reflexivity.
Qed.

(** *** What an update never touches *)

Lemma assign_column_fixed kv r r' :
  Sql.assign_column kv r = Sql.Ok r' ->
  Sql.id r' = Sql.id r /\ Sql.user_id r' = Sql.user_id r /\
  Sql.created_at r' = Sql.created_at r.
Proof.
  destruct kv as [k v]. unfold Sql.assign_column.
  destruct (k =? "title")%string;
    [destruct (Sql.bind_text_not_null v)
    |destruct (k =? "description")%string;
     [destruct (Sql.bind_text v)
     |destruct (k =? "completed")%string; [destruct (Sql.bind_boolean v)|]]];
    intros H; inversion H; subst; auto.
Qed.

Lemma assign_columns_fixed sets : forall r r',
  Sql.assign_columns sets r = Sql.Ok r' ->
  Sql.id r' = Sql.id r /\ Sql.user_id r' = Sql.user_id r /\
  Sql.created_at r' = Sql.created_at r.
Proof.
  induction sets as [|kv sets IH]; intros r r' H; simpl in H.
  - inversion H; auto.
  - destruct (Sql.assign_column kv r) as [r1|e] eqn:E; [|discriminate].
    apply assign_column_fixed in E. apply IH in H. intuition congruence.
Qed.

Lemma update_where_id_fixed sets now i : forall tbl tbl',
  Sql.update_where_id sets now i tbl = Sql.Ok tbl' ->
  map Sql.id tbl' = map Sql.id tbl /\
  map Sql.user_id tbl' = map Sql.user_id tbl /\
  map Sql.created_at tbl' = map Sql.created_at tbl.
Proof.
  induction tbl as [|r tbl IH]; intros tbl' H; simpl in H.
  - inversion H. auto.
  - destruct (Sql.update_where_id sets now i tbl) as [rest|e]; [|discriminate].
    destruct (IH rest eq_refl) as (I1 & I2 & I3).
    destruct (Sql.has_id i r).
    + destruct (Sql.assign_columns sets r) as [r1|e] eqn:A; [|discriminate].
      inversion H; subst. apply assign_columns_fixed in A.
      destruct A as (A1 & A2 & A3). simpl. now rewrite A1, A2, A3, I1, I2, I3.
    + inversion H; subst. simpl. now rewrite I1, I2, I3.
Qed.

(** X7.  Whatever the instance and the payload, and whether it succeeds or
    fails, [update] leaves the id, the owner and the creation time of every
    stored row as they were, and with them the number of rows: a payload
    naming [id], [user_id] or [created_at] never reaches those columns. *)
Theorem update_never_moves_a_todo this payload w :
  let w' := snd (Todo.update this payload w) in
  map Sql.id (table w') = map Sql.id (table w) /\
  map Sql.user_id (table w') = map Sql.user_id (table w) /\
  map Sql.created_at (table w') = map Sql.created_at (table w) /\
  List.length (table w') = List.length (table w).
Proof.
  intros w'.
  assert (H : map Sql.id (table w') = map Sql.id (table w) /\
              map Sql.user_id (table w') = map Sql.user_id (table w) /\
              map Sql.created_at (table w') = map Sql.created_at (table w)).
  { subst w'. unfold Todo.update.
    destruct (Todo.collect_updates payload) as [|kv sets]; [repeat split|].
    unfold Database.run_update. run_world.
    destruct (Sql.bind_key (Todo.id this)) as [i|e]; simpl; [|repeat split].
    destruct (Sql.update_where_id (kv :: sets) (clock w) i (table w))
      as [tbl|e] eqn:E; simpl; [|repeat split].
    now apply update_where_id_fixed in E. }
  destruct H as (H1 & H2 & H3). repeat split; auto.
  rewrite <- (length_map Sql.id (table w')), H1. apply length_map.
Qed.

(** *** Keys of the body that are no column *)

Lemma set_property_detached t kv :
  Todo.toJSON_intact t = false ->
  Todo.toJSON_intact (Todo.set_property t kv) = false.
Proof.
  intros H. destruct kv as [k v]. unfold Todo.set_property.
  repeat match goal with
         | |- context [if ?c then _ else _] => destruct c; try exact H; try reflexivity
         end.
  destruct v; try exact H; reflexivity.
Qed.

Lemma assign_detached payload : forall t,
  Todo.toJSON_intact t = false ->
  Todo.toJSON_intact (Todo.assign t payload) = false.
Proof.
  induction payload as [|kv rest IH]; intros t H; [exact H|].
  rewrite assign_cons. apply IH. now apply set_property_detached.
Qed.

Lemma assign_own_toJSON payload : forall t,
  In "toJSON"%string (map fst payload) ->
  Todo.toJSON_intact (Todo.assign t payload) = false.
Proof.
  induction payload as [|[k v] rest IH]; intros t H; [contradiction|].
  rewrite assign_cons. destruct H as [E|H]; [|now apply IH].
  simpl in E. subst k. apply assign_detached. reflexivity.
Qed.




(** X9.  A PUT by the owner whose validated body has an own key [toJSON]
    beside a defined field is answered 500 with UPDATE_TODO_ERROR although
    the update has been carried out: the record stored under the id is the
    updated one. *)
Theorem own_toJSON_key_fails_after_the_write req u i r w :
  who req = Some u ->
  method_of req = PUT ->
  segments req = [i] ->
  i <> ""%string ->
  snd (todoUpdateRules (body req)) = [] ->
  let b := fst (todoUpdateRules (body req)) in
  find (Sql.has_id i) (table w) = Some r ->
  Sql.user_id r = User.id u ->
  NoDup (map fst b) ->
  payload_typed b ->
  Todo.collect_updates b <> [] ->
  In "toJSON"%string (map fst b) ->
  exists w',
    the_router req w = (Respond update_failed, w') /\
    table w' = map (update_step b (clock w) i) (table w) /\
    find (Sql.has_id i) (table w') = Some (partial_update b (clock w) r).
Proof.
  intros Hwho Hm Hs Hi Hr b Hf Hown Hnd Hty Hne Hkey.
  rewrite (put_route req u i w Hwho Hm Hs Hi Hr). fold b.
  rewrite (put_todo_written
             (with_body b (with_params [("id", VStr i)] (with_user u req)))
             u i r w eq_refl eq_refl Hi Hf Hown Hnd Hty Hne).
  cbn [body with_body].
  rewrite (assign_own_toJSON b (instance_of_row r) Hkey).
  eexists. split; [reflexivity|]. split; [reflexivity|].
  cbn [table with_table logged]. now apply find_update_step.
Qed.


(** *** Requests that are refused or only read *)

(** X12.  A GET request, whatever its path, query and credentials, leaves
    the table as it is and issues nothing but SELECT statements. *)
Theorem get_requests_only_read req w out w' :
  method_of req = GET ->
  the_router req w = (out, w') ->
  table w' = table w /\
  exists log, issued w' = (issued w ++ log)%list /\ forallb reads log = true.
Proof.
  intros Hm. rewrite router_gate.
  destruct (who req) as [u|] eqn:Hwho.
  2:{ intros H. injection H as _ <-. split; [reflexivity|].
      exists []. now rewrite app_nil_r. }
  rewrite dispatch_routes. cbn [method_of segments with_user]. rewrite Hm.
  destruct (segments req) as [|i [|i' rest]].
  - destruct (query_rejected (query req)) eqn:Q.
    + destruct (validateTodoQuery_rejects (with_user u req) Q) as (res & E & _).
      rewrite E. intros H. injection H as _ <-. split; [reflexivity|].
      exists []. now rewrite app_nil_r.
    + destruct (validateTodoQuery_accepts (with_user u req) Q) as (E & _).
      rewrite E.
      destruct (get_todos_valid
                  (with_query (validated_query (query (with_user u req)))
                              (with_user u req))
                  u w (requested 50 (get "limit" (query req)))
                      (requested 0 (get "offset" (query req))))
        as (ts & w1 & Eh & _ & Ht & Hl).
      { reflexivity. }
      { cbn [query with_query with_user]. unfold validated_query.
        rewrite get_set_other by discriminate. apply get_set_same. }
      { cbn [query with_query with_user]. unfold validated_query.
        apply get_set_same. }
      rewrite Eh. intros H. injection H as _ <-. split; [exact Ht|].
      eexists. split; [exact Hl|reflexivity].
  - destruct (String.eqb_spec i "") as [|Hi].
    + intros H. injection H as _ <-. split; [reflexivity|].
      exists []. now rewrite app_nil_r.
    + rewrite (get_todo_spec (with_params [("id", VStr i)] (with_user u req))
                 u i w eq_refl eq_refl Hi).
      intros H. injection H as _ <-. split; [reflexivity|].
      exists [Sql.SelectTodoById (VStr i)]. split; reflexivity.
  - intros H. injection H as _ <-. split; [reflexivity|].
    exists []. now rewrite app_nil_r.
Qed.

(** X13.  An authenticated POST whose body fails a creation rule, and an
    authenticated PUT of any id whose body fails an update rule, are
    answered 400 with VALIDATION_ERROR and the messages of the failed
    rules, before any statement is issued and whether or not the todo
    exists or belongs to the caller. *)
Theorem body_validation_before_storage req u w :
  who req = Some u ->
  (method_of req = POST /\ segments req = [] /\
   snd (todoCreationRules (body req)) <> []) \/
  (exists i, method_of req = PUT /\ segments req = [i] /\ i <> ""%string /\
             snd (todoUpdateRules (body req)) <> []) ->
  the_router req w
  = (Respond (validation_failed
                (snd (match method_of req with
                      | POST => todoCreationRules (body req)
                      | _ => todoUpdateRules (body req)
                      end))), w).
Proof.
  intros Hwho H. rewrite router_gate, Hwho, dispatch_routes.
  cbn [method_of segments with_user].
  destruct H as [(Hm & Hs & He)|(i & Hm & Hs & Hi & He)]; rewrite Hm, Hs.
  - unfold validateTodoCreation, Validation.validation_chain, pure.
    cbn [body with_user].
    destruct (todoCreationRules (body req)) as [b [|e errs]] eqn:E;
      [now elim He|reflexivity].
  - rewrite (string_eqb_false_neq _ _ Hi).
    unfold validateTodoUpdate, Validation.validation_chain, pure.
    cbn [body with_user with_params].
    destruct (todoUpdateRules (body req)) as [b [|e errs]] eqn:E;
      [now elim He|reflexivity].
Qed.

End RouterExtras.

(* ================================================================== *)
(** ** Further properties of the model and of the helpers *)

Lemma firstn_skipn_app {A} (a b : nat) : forall l : list A,
  (firstn a l ++ firstn b (skipn a l))%list = firstn (a + b) l.
Proof.
  induction a as [|a IH]; intros l; [reflexivity|].
  destruct l as [|x l]; simpl; [now rewrite firstn_nil|].
  now rewrite IH.
Qed.

Lemma limit_offset_app l1 l2 o (rows : list Sql.Row) :
  0 <= l1 -> 0 <= l2 -> 0 <= o ->
  (Sql.limit_offset l1 o rows ++ Sql.limit_offset l2 (o + l1) rows)%list
  = Sql.limit_offset (l1 + l2) o rows.
Proof.
  intros H1 H2 Ho. unfold Sql.limit_offset.
  destruct (l1 <? 0) eqn:E1; [apply Z.ltb_lt in E1; lia|].
  destruct (l2 <? 0) eqn:E2; [apply Z.ltb_lt in E2; lia|].
  destruct (l1 + l2 <? 0) eqn:E3; [apply Z.ltb_lt in E3; lia|].
  rewrite !Z2Nat.inj_add by lia.
  rewrite (Nat.add_comm (Z.to_nat o) (Z.to_nat l1)).
  rewrite <- (skipn_skipn (Z.to_nat l1) (Z.to_nat o) rows).
  apply firstn_skipn_app.
Qed.

Lemma map_new_identified rows : forall w,
  Forall (fun r => Sql.id r <> ""%string) rows ->
  Todo.map_new rows w = (Sql.Ok (map instance_of_row rows), w).
Proof.
  induction rows as [|r rows IH]; intros w H; [reflexivity|].
  inversion H as [|? ? Hr Hrows]; subst. simpl.
  rewrite (bind_ok _ _ _ _ _ (new_row_object r w Hr)).
  rewrite (bind_ok _ _ _ _ _ (IH w Hrows)). reflexivity.
Qed.

Lemma findByUserId_identified u status lim off w :
  Forall (fun r => Sql.id r <> ""%string) (World.table w) ->
  Todo.findByUserId (JS.VStr u) (list_options status lim off) w
  = (Sql.Ok (map instance_of_row
               (Sql.select_by_user (filter_of_status status) u lim off
                                   (World.table w))),
     logged (Sql.SelectTodosByUser (filter_of_status status) (JS.VStr u)
                                   (JS.VNum lim) (JS.VNum off)) w).
Proof.
  intros H. unfold Todo.findByUserId, Database.all_by_user, list_options.
  run_world. fold (filter_of_status status).
  apply map_new_identified.
  apply Forall_forall. intros r Hr. apply select_by_user_In in Hr.
  rewrite Forall_forall in H. now apply H.
Qed.

(** X5.  Consecutive pages compose: when every stored row has an
    identifier and the table is the same at the three calls, for limits
    and an offset that are not negative and whose sum is within
    [JS.max_safe_integer], the page of [l1] todos at offset [o] followed
    by the page of [l2] todos at offset [o + l1] is the page of [l1 + l2]
    todos at offset [o]; no todo is skipped or repeated between two
    pages. *)
Theorem consecutive_pages_compose u status l1 l2 o w w1 w2 :
  Forall (fun r => Sql.id r <> ""%string) (World.table w) ->
  World.table w1 = World.table w ->
  World.table w2 = World.table w ->
  0 <= l1 -> 0 <= l2 -> 0 <= o ->
  o + l1 + l2 <= JS.max_safe_integer ->
  exists p1 p2,
    fst (Todo.findByUserId (JS.VStr u) (list_options status l1 o) w) = Sql.Ok p1 /\
    fst (Todo.findByUserId (JS.VStr u) (list_options status l2 (o + l1)) w1)
    = Sql.Ok p2 /\
    fst (Todo.findByUserId (JS.VStr u) (list_options status (l1 + l2) o) w2)
    = Sql.Ok (p1 ++ p2)%list.
Proof.
  intros H T1 T2 H1 H2 Ho _.
  rewrite !findByUserId_identified by (rewrite ?T1, ?T2; exact H).
  rewrite T1, T2. eexists; eexists. split; [reflexivity|]. split; [reflexivity|].
  cbn [fst]. rewrite <- map_app. unfold Sql.select_by_user.
  now rewrite limit_offset_app.
Qed.

(** X6.  For every user, on a table in which every [completed] is the
    integer 1 or 0, the count for status [all], which is also the count
    when no status is given, is the count for [pending] plus the count
    for [completed]. *)
Theorem counts_add_up u w :
  boolean_typed (World.table w) ->
  exists a p c,
    fst (Todo.getCountByUserId (JS.VStr u) (JS.VStr "all") w) = Sql.Ok a /\
    fst (Todo.getCountByUserId (JS.VStr u) JS.VUndefined w) = Sql.Ok a /\
    fst (Todo.getCountByUserId (JS.VStr u) (JS.VStr "pending") w) = Sql.Ok p /\
    fst (Todo.getCountByUserId (JS.VStr u) (JS.VStr "completed") w) = Sql.Ok c /\
    a = p + c.
Proof.
  intros Hb. rewrite !getCountByUserId_spec. cbn [fst].
  eexists; eexists; eexists. repeat (split; [reflexivity|]).
  change (filter_of_status (JS.VStr "all")) with (@None bool).
  change (filter_of_status (JS.VStr "pending")) with (Some false).
  change (filter_of_status (JS.VStr "completed")) with (Some true).
  unfold Sql.count_by_user.
  rewrite (Permutation_length (matches_split u (World.table w) Hb)), length_app.
  lia.
Qed.

Lemma set_present k v o :
  In k (map fst o) -> JS.get k o = v -> JS.set k v o = o.
Proof.
  induction o as [|[k' v'] o IH]; simpl; [contradiction|].
  destruct (k' =? k)%string eqn:E.
  - apply String.eqb_eq in E. subst k'. intros _ ->. reflexivity.
  - intros [Hk|Hk] Hg.
    + subst k'. now rewrite String.eqb_refl in E.
    + now rewrite IH.
Qed.

Lemma set_key k v o : In k (map fst (JS.set k v o)).
Proof.
  induction o as [|[k' v'] o IH]; simpl; [now left|].
  destruct (k' =? k)%string eqn:E; simpl.
  - apply String.eqb_eq in E. now left.
  - now right.
Qed.

Lemma set_keeps_key k k' v o :
  In k' (map fst o) -> In k' (map fst (JS.set k v o)).
Proof.
  induction o as [|[k0 v0] o IH]; simpl; [contradiction|].
  destruct (k0 =? k)%string eqn:E; simpl; [|tauto].
  apply String.eqb_eq in E. subst k0. tauto.
Qed.

Lemma requested_number dflt n : requested dflt (JS.VNum n) = if n =? 0 then dflt else n.
Proof.
  unfold requested. simpl. destruct (n =? 0); reflexivity.
Qed.

(** X11.  The query validation is idempotent on the offsets the code
    reads exactly: a query it lets through with an offset within
    [JS.max_safe_integer] is stored with a numeric limit between 1 and 100
    and a numeric offset of at least 0, and validating the stored query
    again lets it through and changes nothing. *)
Theorem validateTodoQuery_idempotent req :
  query_rejected (Http.query req) = false ->
  requested 0 (JS.get "offset" (Http.query req)) <= JS.max_safe_integer ->
  exists req' l o,
    Validation.validateTodoQuery req = Http.Next req' /\
    JS.get "limit" (Http.query req') = JS.VNum l /\ 1 <= l <= 100 /\
    JS.get "offset" (Http.query req') = JS.VNum o /\
    0 <= o <= JS.max_safe_integer /\
    Validation.validateTodoQuery req' = Http.Next req'.
Proof.
  intros Q Hsafe. destruct (validateTodoQuery_accepts req Q) as (E & Hl & Ho).
  set (l := requested 50 (JS.get "limit" (Http.query req))) in *.
  set (o := requested 0 (JS.get "offset" (Http.query req))) in *.
  set (q' := validated_query (Http.query req)) in *.
  assert (Gl : JS.get "limit" q' = JS.VNum l).
  { unfold q', validated_query. rewrite get_set_other by discriminate.
    apply get_set_same. }
  assert (Go : JS.get "offset" q' = JS.VNum o).
  { unfold q', validated_query. apply get_set_same. }
  assert (Gs : JS.get "status" q' = JS.get "status" (Http.query req)).
  { unfold q', validated_query. now rewrite !get_set_other by discriminate. }
  exists (Http.with_query q' req), l, o.
  split; [exact E|]. cbn [Http.query Http.with_query].
  split; [exact Gl|]. split; [exact Hl|]. split; [exact Go|].
  split; [split; [exact Ho|exact Hsafe]|].
  assert (Q' : query_rejected q' = false).
  { unfold query_rejected, status_rejected, limit_rejected, offset_rejected in *.
    rewrite Gs, Gl, Go.
    apply orb_false_iff in Q. destruct Q as [Q _].
    apply orb_false_iff in Q. destruct Q as [Q _]. rewrite Q.
    cbn [orb JS.parseInt].
    replace ((l <? 1) || (100 <? l)) with false
      by (symmetry; apply orb_false_iff; split; apply Z.ltb_ge; lia).
    replace (o <? 0) with false by (symmetry; apply Z.ltb_ge; lia).
    now rewrite !andb_false_r. }
  destruct (validateTodoQuery_accepts (Http.with_query q' req) Q') as (E' & _).
  rewrite E'. cbn [Http.query Http.with_query].
  f_equal. unfold Http.with_query. cbn. f_equal.
  unfold validated_query. rewrite Gl, Go, !requested_number.
  replace (l =? 0) with false by (symmetry; apply Z.eqb_neq; lia).
  assert (Eo : (if o =? 0 then 0 else o) = o).
  { destruct (Z.eqb_spec o 0); lia. }
  rewrite Eo.
  assert (Sl : JS.set "limit" (JS.VNum l) q' = q').
  { apply set_present; [|exact Gl].
    unfold q', validated_query. apply set_keeps_key, set_key. }
  rewrite Sl. apply set_present; [|exact Go].
  unfold q', validated_query. apply set_key.
Qed.

(** X14.  For a positive limit and a non-negative offset and total, the
    total and the offset plus the limit within [JS.max_safe_integer],
    [calculatePagination] numbers the pages from 1: the offset lies in the
    current page, the total fills the pages up to the last and no further,
    a next page implies that the current one is not the last and no
    previous page implies that it is the first; when the offset is a
    multiple of the limit the two flags say exactly that. *)
Theorem calculatePagination_pages total limit offset :
  0 < limit -> 0 <= offset -> 0 <= total ->
  offset + limit <= JS.max_safe_integer ->
  total <= JS.max_safe_integer ->
  let pg := Helpers.calculatePagination total limit offset in
  exists p n,
    Helpers.currentPage pg = Some p /\ Helpers.totalPages pg = Some n /\
    (p - 1) * limit <= offset < p * limit /\
    (n - 1) * limit < total <= n * limit /\
    (Helpers.hasNext pg = true -> p < n) /\
    (Helpers.hasPrev pg = false -> p = 1) /\
    (offset mod limit = 0 ->
     (Helpers.hasNext pg = true <-> p < n) /\
     (Helpers.hasPrev pg = true <-> 1 < p)).
Proof.
  intros Hl Ho Ht _ _ pg. subst pg. unfold Helpers.calculatePagination.
  cbn [Helpers.currentPage Helpers.totalPages Helpers.hasNext Helpers.hasPrev].
  replace (limit =? 0) with false by (symmetry; apply Z.eqb_neq; lia).
  eexists; eexists. split; [reflexivity|]. split; [reflexivity|].
  pose proof (Z.div_mod offset limit ltac:(lia)) as Do.
  pose proof (Z.mod_pos_bound offset limit Hl) as Mo.
  pose proof (Z.div_mod (- total) limit ltac:(lia)) as Dt.
  pose proof (Z.mod_pos_bound (- total) limit Hl) as Mt.
  set (q := offset / limit) in *. set (r := offset mod limit) in *.
  set (c := (- total) / limit) in *. set (s := (- total) mod limit) in *.
  rewrite Z.ltb_lt. unfold Z.gtb.
  assert (Hp : (offset ?= 0) = Gt <-> 0 < offset) by (rewrite Z.compare_gt_iff; lia).
  split; [nia|]. split; [nia|]. split; [intros; nia|]. split.
  - destruct (offset ?= 0) eqn:C; try discriminate; intros _.
    + apply Z.compare_eq in C. nia.
    + rewrite Z.compare_lt_iff in C. lia.
  - intros Hr. split.
    + split; intros; nia.
    + split.
      * destruct (offset ?= 0) eqn:C; try discriminate. intros _.
        apply Z.compare_gt_iff in C. nia.
      * intros H1. destruct (offset ?= 0) eqn:C; auto.
        -- apply Z.compare_eq in C. nia.
        -- rewrite Z.compare_lt_iff in C. lia.
Qed.

(* ================================================================== *)
(** ** The further statements on the sample data *)

Lemma deleted_todo_is_gone_witness :
  let req := Sample.request_of Http.DELETE ["t-milk"] (Some "token-alice") [] [] in
  let later :=
    [ Sample.request_of Http.POST [] (Some "token-bob") []
                        [("title", JS.VStr "Buy milk")];
      Sample.request_of Http.GET [] (Some "token-alice") [] [] ] in
  let again := Sample.request_of Http.GET ["t-milk"] (Some "token-bob") [] [] in
  exists res w',
    caller Sample.verify Sample.findUserById req = Some Sample.alice /\
    Sample.router req Sample.world = (Http.Respond res, w') /\
    Http.status res = 200 /\
    find (Sql.has_id "t-milk") (World.table w') = None /\
    World.table w' = [Sample.taxes; Sample.bread] /\
    (forall n, (World.uuid_drawn w' <= n)%nat ->
               World.uuid_stream w' n <> "t-milk"%string) /\
    List.length (World.table (serve Sample.router later w')) = 3%nat /\
    exists w2,
      Sample.router again (serve Sample.router later w')
      = (Http.Respond not_found, w2).
Proof.
  intros req later again.
  assert (H1 : caller Sample.verify Sample.findUserById req = Some Sample.alice)
    by reflexivity.
  assert (H2 : Http.method_of req = Http.DELETE) by reflexivity.
  assert (H3 : Http.segments req = ["t-milk"%string]) by reflexivity.
  assert (H4 : "t-milk"%string <> ""%string) by discriminate.
  destruct (Sample.router req Sample.world) as [out w'] eqn:E.
  pose proof E as E'. vm_compute in E'. injection E' as Ho Hw. subst out.
  assert (H5 : Http.status (Http.ok 200 "Todo deleted successfully" Http.NoData) = 200)
    by reflexivity.
  assert (H6 : forall n, (World.uuid_drawn w' <= n)%nat ->
                         World.uuid_stream w' n <> "t-milk"%string).
  { subst w'. cbn [World.uuid_stream]. intros [|[|n]] _; discriminate. }
  destruct (deleted_todo_is_gone Sample.verify Sample.findUserById
              Sample.accept_all Sample.accept_all req Sample.alice "t-milk"
              Sample.world _ w' H1 H2 H3 H4 E H5) as (Hnone & Htab & Hlater).
  destruct (Hlater later H6) as (_ & Hgone).
  destruct (Hgone again Sample.bob) as (w2 & E2 & _);
    [reflexivity | reflexivity | discriminate | reflexivity |].
  eexists; exists w'. split; [exact H1|]. split; [reflexivity|].
  split; [exact H5|]. split; [exact Hnone|].
  split; [rewrite Htab; reflexivity|]. split; [exact H6|].
  split; [subst w'; vm_compute; reflexivity|].
  exists w2. exact E2.
Defined.

Lemma created_todo_is_found_witness :
  let req := Sample.request_of Http.POST [] (Some "token-alice") []
                               [("title", JS.VStr "Water plants")] in
  let i := Sample.uuids 0 in
  caller Sample.verify Sample.findUserById req = Some Sample.alice /\
  i <> ""%string /\
  existsb (Sql.has_id i) (World.table Sample.world) = false /\
  exists j w',
    Sample.router req Sample.world
    = (Http.Respond (Http.ok 201 "Todo created successfully" (Http.TodoData j)), w') /\
    JS.get "id" j = JS.VStr i /\
    World.table w'
    = [ Sample.milk; Sample.taxes; Sample.bread;
        Sql.mkRow i "u-alice" "Water plants" None false Sample.now Sample.now ].
Proof.
  intros req i.
  assert (H1 : caller Sample.verify Sample.findUserById req = Some Sample.alice)
    by reflexivity.
  assert (H2 : i <> ""%string) by discriminate.
  assert (H3 : existsb (Sql.has_id i) (World.table Sample.world) = false)
    by reflexivity.
  repeat (split; [assumption|]).
  destruct (created_todo_is_found Sample.verify Sample.findUserById
              Sample.accept_all Sample.accept_all req Sample.alice
              "Water plants" Sample.world H1 eq_refl eq_refl eq_refl eq_refl I
              H2 H3) as (j & w' & E & Hid & _ & Htab & _).
  exists j, w'. split; [exact E|]. split; [exact Hid|]. rewrite Htab. reflexivity.
Defined.

Lemma duplicate_identifier_is_refused_witness :
  let req := Sample.request_of Http.POST [] (Some "token-alice") []
                               [("title", JS.VStr "Water plants")] in
  caller Sample.verify Sample.findUserById req = Some Sample.alice /\
  existsb (Sql.has_id (World.uuid_stream Cases.taken (World.uuid_drawn Cases.taken)))
          (World.table Cases.taken) = true /\
  exists w',
    Sample.router req Cases.taken
    = (Http.Respond (Http.failure 500 "Internal server error while creating todo"
                                  "CREATE_TODO_ERROR"), w') /\
    World.table w' = World.table Cases.taken.
Proof.
  intros req.
  assert (H1 : caller Sample.verify Sample.findUserById req = Some Sample.alice)
    by reflexivity.
  assert (H2 : existsb (Sql.has_id (World.uuid_stream Cases.taken
                                      (World.uuid_drawn Cases.taken)))
                       (World.table Cases.taken) = true) by reflexivity.
  repeat (split; [assumption|]).
  exact (duplicate_identifier_is_refused Sample.verify Sample.findUserById
           Sample.accept_all Sample.accept_all req Sample.alice
           "Water plants" Cases.taken H1 eq_refl eq_refl eq_refl eq_refl I H2).
Defined.

Lemma updated_todo_is_found_witness :
  let req := Sample.request_of Http.PUT ["t-milk"] (Some "token-alice") []
                               [("completed", JS.VBool true)] in
  caller Sample.verify Sample.findUserById req = Some Sample.alice /\
  find (Sql.has_id "t-milk") (World.table Sample.world) = Some Sample.milk /\
  NoDup (map fst (Http.body req)) /\
  payload_typed (Http.body req) /\
  Todo.collect_updates (Http.body req) <> [] /\
  exists res w',
    Sample.router req Sample.world = (Http.Respond res, w') /\
    (Http.status res = 200 \/ Http.status res = 500) /\
    World.table w'
    = [ Sql.mkRow "t-milk" "u-alice" "Buy milk" (Some "2 litres") true
                  "2024-05-01 09:00:00" Sample.now;
        Sample.taxes; Sample.bread ].
Proof.
  intros req.
  assert (H1 : caller Sample.verify Sample.findUserById req = Some Sample.alice)
    by reflexivity.
  assert (H2 : find (Sql.has_id "t-milk") (World.table Sample.world)
               = Some Sample.milk) by reflexivity.
  assert (H3 : NoDup (map fst (Http.body req))).
  { repeat constructor; simpl; intuition discriminate. }
  assert (H4 : payload_typed (Http.body req)).
  { intros kv [E|[]]; subst kv; reflexivity. }
  assert (H5 : Todo.collect_updates (Http.body req) <> []) by discriminate.
  repeat (split; [assumption|]).
  assert (Hi : "t-milk"%string <> ""%string) by discriminate.
  destruct (updated_todo_is_found Sample.verify Sample.findUserById
              Sample.accept_all Sample.accept_all req Sample.alice "t-milk"
              Sample.milk Sample.world H1 eq_refl eq_refl Hi eq_refl H2 eq_refl
              H3 H4 H5) as (res & w' & E & St & Htab & _).
  exists res, w'. split; [exact E|]. split; [exact St|]. rewrite Htab. reflexivity.
Defined.

Lemma own_toJSON_key_fails_after_the_write_witness :
  let req := Sample.request_of Http.PUT ["t-milk"] (Some "token-alice") []
                               [("completed", JS.VBool true);
                                ("toJSON", JS.VStr "now")] in
  caller Sample.verify Sample.findUserById req = Some Sample.alice /\
  find (Sql.has_id "t-milk") (World.table Sample.world) = Some Sample.milk /\
  NoDup (map fst (Http.body req)) /\
  payload_typed (Http.body req) /\
  Todo.collect_updates (Http.body req) <> [] /\
  In "toJSON"%string (map fst (Http.body req)) /\
  exists w',
    Sample.router req Sample.world = (Http.Respond update_failed, w') /\
    find (Sql.has_id "t-milk") (World.table w')
    = Some (Sql.mkRow "t-milk" "u-alice" "Buy milk" (Some "2 litres") true
                      "2024-05-01 09:00:00" Sample.now).
Proof.
  intros req.
  assert (H1 : caller Sample.verify Sample.findUserById req = Some Sample.alice)
    by reflexivity.
  assert (H2 : find (Sql.has_id "t-milk") (World.table Sample.world)
               = Some Sample.milk) by reflexivity.
  assert (H3 : NoDup (map fst (Http.body req))).
  { repeat constructor; simpl; intuition discriminate. }
  assert (H4 : payload_typed (Http.body req)).
  { intros kv [E|[]]; subst kv; reflexivity. }
  assert (H5 : Todo.collect_updates (Http.body req) <> []) by discriminate.
  assert (H6 : In "toJSON"%string (map fst (Http.body req))) by (simpl; tauto).
  repeat (split; [assumption|]).
  assert (Hi : "t-milk"%string <> ""%string) by discriminate.
  destruct (own_toJSON_key_fails_after_the_write Sample.verify Sample.findUserById
              Sample.accept_all Sample.accept_all req Sample.alice "t-milk"
              Sample.milk Sample.world H1 eq_refl eq_refl Hi eq_refl H2 eq_refl
              H3 H4 H5 H6) as (w' & E & _ & Hf).
  exists w'. split; [exact E|]. rewrite Hf. reflexivity.
Defined.


Lemma get_requests_only_read_witness :
  let req := Sample.request_of Http.GET [] (Some "token-alice")
                               [("status", JS.VStr "pending")] [] in
  exists out w',
    Sample.router req Sample.world = (out, w') /\
    World.table w' = World.table Sample.world /\
    exists log, World.issued w' = (World.issued Sample.world ++ log)%list /\
                forallb reads log = true.
Proof.
  intros req.
  destruct (Sample.router req Sample.world) as [out w'] eqn:E.
  exists out, w'. split; [reflexivity|].
  exact (get_requests_only_read Sample.verify Sample.findUserById
           Sample.accept_all Sample.accept_all req Sample.world out w' eq_refl E).
Defined.

Lemma body_validation_before_storage_witness :
  let req := Sample.request_of Http.PUT ["t-taxes"] (Some "token-alice") []
                               [("completed", JS.VBool true)] in
  caller Sample.verify Sample.findUserById req = Some Sample.alice /\
  snd (Cases.title_required (Http.body req)) <> [] /\
  Cases.strict_router req Sample.world
  = (Http.Respond (validation_failed
                     ["Title must be between 1 and 100 characters"%string]),
     Sample.world).
Proof.
  intros req.
  assert (H1 : caller Sample.verify Sample.findUserById req = Some Sample.alice)
    by reflexivity.
  assert (H2 : snd (Cases.title_required (Http.body req)) <> []) by discriminate.
  repeat (split; [assumption|]).
  apply (body_validation_before_storage Sample.verify Sample.findUserById
           Cases.title_required Cases.title_required req Sample.alice
           Sample.world H1).
  right. exists "t-taxes"%string.
  repeat split; [discriminate | exact H2].
Defined.

Lemma consecutive_pages_compose_witness :
  let w := Sample.world_of Sample.ten in
  Forall (fun r => Sql.id r <> ""%string) (World.table w) /\
  exists p1 p2,
    fst (Todo.findByUserId (JS.VStr "u-alice")
                           (list_options (JS.VStr "pending") 2 1) w) = Sql.Ok p1 /\
    fst (Todo.findByUserId (JS.VStr "u-alice")
                           (list_options (JS.VStr "pending") 3 (1 + 2)) w) = Sql.Ok p2 /\
    fst (Todo.findByUserId (JS.VStr "u-alice")
                           (list_options (JS.VStr "pending") (2 + 3) 1) w)
    = Sql.Ok (p1 ++ p2)%list.
Proof.
  intros w.
  assert (H : Forall (fun r => Sql.id r <> ""%string) (World.table w))
    by (repeat constructor; discriminate).
  split; [exact H|].
  apply (consecutive_pages_compose "u-alice" (JS.VStr "pending") 2 3 1 w w w H
           eq_refl eq_refl); try lia.
  vm_compute. discriminate.
Defined.

Lemma validateTodoQuery_idempotent_witness :
  let req := Sample.request_of Http.GET [] (Some "token-alice")
                               [("limit", JS.VStr "10")] [] in
  query_rejected (Http.query req) = false /\
  requested 0 (JS.get "offset" (Http.query req)) <= JS.max_safe_integer /\
  exists req',
    Validation.validateTodoQuery req = Http.Next req' /\
    JS.get "limit" (Http.query req') = JS.VNum 10 /\
    JS.get "offset" (Http.query req') = JS.VNum 0 /\
    Validation.validateTodoQuery req' = Http.Next req'.
Proof.
  intros req.
  assert (H : query_rejected (Http.query req) = false) by reflexivity.
  assert (H' : requested 0 (JS.get "offset" (Http.query req))
               <= JS.max_safe_integer) by (vm_compute; discriminate).
  split; [exact H|]. split; [exact H'|].
  destruct (validateTodoQuery_idempotent req H H')
    as (req' & l & o & E & Hl & _ & Ho & _ & E').
  exists req'. split; [exact E|].
  assert (Hreq : Http.Next req'
                 = Http.Next (Http.with_query
                                [("limit", JS.VNum 10); ("offset", JS.VNum 0)] req)).
  { rewrite <- E. reflexivity. }
  injection Hreq as Hreq.
  split; [now rewrite Hreq|]. split; [now rewrite Hreq|]. exact E'.
Defined.

Lemma counts_add_up_witness :
  boolean_typed (World.table Sample.world) /\
  exists a p c,
    fst (Todo.getCountByUserId (JS.VStr "u-alice") (JS.VStr "all") Sample.world)
    = Sql.Ok a /\
    fst (Todo.getCountByUserId (JS.VStr "u-alice") (JS.VStr "pending") Sample.world)
    = Sql.Ok p /\
    fst (Todo.getCountByUserId (JS.VStr "u-alice") (JS.VStr "completed") Sample.world)
    = Sql.Ok c /\
    a = 2 /\ p = 1 /\ c = 1.
Proof.
  assert (H : boolean_typed (World.table Sample.world)) by (repeat constructor).
  split; [exact H|].
  destruct (counts_add_up "u-alice" Sample.world H)
    as (a & p & c & Ea & _ & Ep & Ec & _).
  exists a, p, c. repeat (split; [assumption|]).
  cbn in Ea, Ep, Ec. injection Ea as <-. injection Ep as <-. injection Ec as <-.
  repeat split.
Defined.

Lemma calculatePagination_pages_witness :
  let pg := Helpers.calculatePagination 10 3 6 in
  Helpers.currentPage pg = Some 3 /\ Helpers.totalPages pg = Some 4 /\
  Helpers.hasNext pg = true /\ Helpers.hasPrev pg = true.
Proof.
  intros pg.
  destruct (calculatePagination_pages 10 3 6) as (p & n & Hp & Hn & _);
    [lia | lia | lia | vm_compute; discriminate | vm_compute; discriminate |].
  repeat split; reflexivity.
Defined.

(* ================================================================== *)
(** ** Sanitising the input *)

Lemma string_app_assoc (a b c : string) : ((a ++ b) ++ c = a ++ (b ++ c))%string.
Proof. induction a as [|x a IH]; simpl; [reflexivity|now rewrite IH]. Qed.

Lemma replace_all_app c by_ a b :
  Sanitize.replace_all c by_ (a ++ b)
  = (Sanitize.replace_all c by_ a ++ Sanitize.replace_all c by_ b)%string.
Proof.
  induction a as [|x a IH]; simpl; [reflexivity|].
  destruct (Ascii.eqb x c); simpl; rewrite IH; [|reflexivity].
  now rewrite string_app_assoc.
Qed.

Lemma escape_app a b :
  Sanitize.escape (a ++ b) = (Sanitize.escape a ++ Sanitize.escape b)%string.
Proof. unfold Sanitize.escape. now rewrite !replace_all_app. Qed.

Lemma escape_one x : Sanitize.escape (String x EmptyString) = escape_char x.
Proof.
  unfold Sanitize.escape, escape_char. cbn [Sanitize.replace_all].
  destruct (Ascii.eqb_spec x "<") as [->|N1]; [reflexivity|].
  cbn [Sanitize.replace_all].
  destruct (Ascii.eqb_spec x ">") as [->|N2]; [reflexivity|].
  cbn [Sanitize.replace_all].
  destruct (Ascii.eqb_spec x Sanitize.double_quote) as [->|N3]; [reflexivity|].
  cbn [Sanitize.replace_all].
  destruct (Ascii.eqb_spec x "'") as [->|N4]; [reflexivity|].
  cbn [Sanitize.replace_all].
  destruct (Ascii.eqb_spec x "/") as [->|N5]; reflexivity.
Qed.

Lemma escape_cons x s :
  Sanitize.escape (String x s) = (escape_char x ++ Sanitize.escape s)%string.
Proof.
  change (String x s) with (String x EmptyString ++ s)%string.
  now rewrite escape_app, escape_one.
Qed.

Lemma free_of_markup_app a b :
  free_of_markup (a ++ b) = free_of_markup a && free_of_markup b.
Proof.
  unfold free_of_markup.
  induction a as [|x a IH]; [reflexivity|].
  cbn [String.append list_ascii_of_string forallb]. rewrite IH.
  now rewrite andb_assoc.
Qed.

Lemma escape_char_free x : free_of_markup (escape_char x) = true.
Proof.
  unfold escape_char.
  destruct (Ascii.eqb_spec x "<"); [reflexivity|].
  destruct (Ascii.eqb_spec x ">"); [reflexivity|].
  destruct (Ascii.eqb_spec x Sanitize.double_quote); [reflexivity|].
  destruct (Ascii.eqb_spec x "'"); [reflexivity|].
  destruct (Ascii.eqb_spec x "/"); [reflexivity|].
  unfold free_of_markup, markup. simpl.
  repeat match goal with
         | H : x <> ?c |- _ => apply Ascii.eqb_neq in H; rewrite H; clear H
         end.
  reflexivity.
Qed.

Lemma escape_free s : free_of_markup (Sanitize.escape s) = true.
Proof.
  induction s as [|x s IH]; [reflexivity|].
  now rewrite escape_cons, free_of_markup_app, escape_char_free, IH.
Qed.

Lemma escape_char_plain x :
  existsb (Ascii.eqb x) markup = false -> escape_char x = String x EmptyString.
Proof.
  unfold markup, escape_char. simpl. intros H.
  repeat (apply orb_false_iff in H; destruct H as [E H]; rewrite E; clear E).
  reflexivity.
Qed.

Lemma escape_fixed s : free_of_markup s = true -> Sanitize.escape s = s.
Proof.
  induction s as [|x s IH]; [reflexivity|].
  unfold free_of_markup. simpl. intros H.
  apply andb_prop in H. destruct H as [Hx Hs].
  rewrite escape_cons, (IH Hs), escape_char_plain; [reflexivity|].
  now apply negb_true_iff in Hx.
Qed.

Lemma sanitizeString_cases v :
  match Sanitize.sanitizeString v with
  | JS.VStr s' => free_of_markup s' = true
  | v' => v' = v
  end.
Proof.
  destruct v as [| |b|n| |s]; try reflexivity. apply escape_free.
Qed.

(** X15.  Whatever the text, the sanitised text holds none of the
    characters [<], [>], the double quote, the single quote and [/]; a
    value that is no string passes unchanged. *)
Theorem sanitizeString_leaves_no_markup v :
  match Sanitize.sanitizeString v with
  | JS.VStr s' => free_of_markup s' = true /\ exists s, v = JS.VStr s
  | v' => v' = v
  end.
Proof.
  destruct v as [| |b|n| |s]; try reflexivity.
  simpl. split; [apply escape_free|now exists s].
Qed.

(** X16.  Sanitising is idempotent, and the texts it leaves as they are are
    exactly those that hold none of the five characters. *)
Theorem sanitizeString_idempotent v :
  Sanitize.sanitizeString (Sanitize.sanitizeString v) = Sanitize.sanitizeString v /\
  forall s, v = JS.VStr s ->
            (Sanitize.sanitizeString v = v <-> free_of_markup s = true).
Proof.
  split.
  - destruct v as [| |b|n| |s]; try reflexivity.
    simpl. f_equal. apply escape_fixed, escape_free.
  - intros s ->. simpl. split.
    + intros H. injection H as H. rewrite <- H. apply escape_free.
    + intros H. now rewrite escape_fixed.
Qed.

(** X17.  The ampersand is not replaced, so a character and the entity
    that stands for it are sent to the same text, wherever they occur: the
    sanitised text does not tell a raw [<] from a [&lt;] that was typed. *)
Theorem sanitizeString_confuses_entities a x b :
  In x markup ->
  Sanitize.sanitizeString (JS.VStr (a ++ String x b))
  = Sanitize.sanitizeString (JS.VStr (a ++ escape_char x ++ b)) /\
  escape_char x <> String x EmptyString.
Proof.
  intros Hx. split.
  - simpl. f_equal. rewrite !escape_app, escape_cons. f_equal. f_equal.
    symmetry. apply escape_fixed, escape_char_free.
  - unfold markup in Hx. simpl in Hx.
    destruct Hx as [<-|[<-|[<-|[<-|[<-|[]]]]]]; discriminate.
Qed.

Lemma set_app_skip k v (a b : JS.object) :
  ~ In k (map fst a) -> JS.set k v (a ++ b)%list = (a ++ JS.set k v b)%list.
Proof.
  induction a as [|[k' v'] a IH]; simpl; [reflexivity|].
  intros H. rewrite (string_eqb_false_neq k' k) by tauto.
  now rewrite IH by tauto.
Qed.

Lemma set_head k v v0 (o : JS.object) : JS.set k v ((k, v0) :: o) = (k, v) :: o.
Proof. simpl. now rewrite String.eqb_refl. Qed.

Lemma sanitize_loop todo : forall done_,
  NoDup (map fst (done_ ++ todo)%list) ->
  fold_left (fun acc kv =>
               match snd kv with
               | JS.VStr _ => JS.set (fst kv) (Sanitize.sanitizeString (snd kv)) acc
               | _ => acc
               end)
            todo
            (map (fun kv => (fst kv, Sanitize.sanitizeString (snd kv))) done_ ++ todo)%list
  = map (fun kv => (fst kv, Sanitize.sanitizeString (snd kv))) (done_ ++ todo)%list.
Proof.
  induction todo as [|[k v] todo IH]; intros done_ Hnd.
  - cbn [fold_left]. now rewrite !app_nil_r.
  - cbn [fold_left fst snd].
    assert (Hk : ~ In k (map fst (map (fun kv : string * JS.value =>
                                         (fst kv, Sanitize.sanitizeString (snd kv)))
                                      done_))).
    { rewrite map_map. cbn [fst]. rewrite map_app in Hnd. cbn [map fst] in Hnd.
      apply NoDup_remove_2 in Hnd. intros H. apply Hnd. apply in_or_app. now left. }
    match goal with |- fold_left _ _ ?a = _ => set (acc := a) end.
    assert (Hacc :
              acc
              = (map (fun kv => (fst kv, Sanitize.sanitizeString (snd kv)))
                     (done_ ++ [(k, v)]) ++ todo)%list).
    { subst acc. rewrite map_app, <- app_assoc. cbn [map fst snd app].
      destruct v; try reflexivity.
      now rewrite set_app_skip, set_head by exact Hk. }
    rewrite Hacc.
    replace (done_ ++ (k, v) :: todo)%list with ((done_ ++ [(k, v)]) ++ todo)%list
      by (now rewrite <- app_assoc).
    apply IH. now rewrite <- app_assoc.
Qed.

Lemma sanitize_entries_map o :
  NoDup (map fst o) ->
  Sanitize.sanitize_entries o
  = map (fun kv => (fst kv, Sanitize.sanitizeString (snd kv))) o.
Proof.
  intros H. exact (sanitize_loop o [] H).
Qed.

(** X18.  For a request whose body and query have pairwise distinct keys,
    [sanitizeInput] always calls [next()], touches nothing but the body
    and the query, and leaves in both the same keys in the same order,
    every string value sanitised and every other value as it was. *)
Theorem sanitizeInput_sanitises_every_string req w :
  NoDup (map fst (Http.body req)) ->
  NoDup (map fst (Http.query req)) ->
  let clean := map (fun kv => (fst kv, Sanitize.sanitizeString (snd kv))) in
  Sanitize.sanitizeInput req w
  = (Http.Next (Http.with_query (clean (Http.query req))
                  (Http.with_body (clean (Http.body req)) req)), w) /\
  map fst (clean (Http.body req)) = map fst (Http.body req) /\
  map fst (clean (Http.query req)) = map fst (Http.query req) /\
  forall k v, In (k, v) (clean (Http.body req) ++ clean (Http.query req))%list ->
              match v with
              | JS.VStr s => free_of_markup s = true
              | _ => In (k, v) (Http.body req ++ Http.query req)%list
              end.
Proof.
  intros Hb Hq clean. split; [|split; [|split]].
  - unfold Sanitize.sanitizeInput, Http.pure.
    cbn [Http.query Http.with_body].
    now rewrite (sanitize_entries_map _ Hb), (sanitize_entries_map _ Hq).
  - unfold clean. rewrite map_map. reflexivity.
  - unfold clean. rewrite map_map. reflexivity.
  - intros k v H. unfold clean in H. rewrite <- map_app in H.
    apply in_map_iff in H. destruct H as ([k0 v0] & E & Hin).
    cbn [fst snd] in E. injection E as -> <-.
    pose proof (sanitizeString_cases v0) as A.
    destruct (Sanitize.sanitizeString v0) eqn:S; try (rewrite A in *; exact Hin).
    exact A.
Qed.

Lemma sanitizeString_confuses_entities_witness :
  In "<"%char markup /\
  Sanitize.sanitizeString (JS.VStr "1 < 2") = Sanitize.sanitizeString (JS.VStr "1 &lt; 2").
Proof.
  assert (H : In "<"%char markup) by (simpl; tauto).
  split; [exact H|].
  exact (proj1 (sanitizeString_confuses_entities "1 " "<" " 2" H)).
Defined.

Lemma sanitizeInput_sanitises_every_string_witness :
  let req := Sample.request_of Http.POST [] (Some "token-alice")
                               [("status", JS.VStr "all")]
                               [("title", JS.VStr "<b>Milk</b>");
                                ("completed", JS.VBool true)] in
  NoDup (map fst (Http.body req)) /\
  NoDup (map fst (Http.query req)) /\
  Sanitize.sanitizeInput req Sample.world
  = (Http.Next (Http.with_query [("status", JS.VStr "all")]
                  (Http.with_body [("title", JS.VStr "&lt;b&gt;Milk&lt;&#x2F;b&gt;");
                                   ("completed", JS.VBool true)] req)),
     Sample.world).
Proof.
  intros req.
  assert (H1 : NoDup (map fst (Http.body req))).
  { repeat constructor; simpl; intuition discriminate. }
  assert (H2 : NoDup (map fst (Http.query req))).
  { repeat constructor; simpl; intuition discriminate. }
  repeat (split; [assumption|]).
  exact (proj1 (sanitizeInput_sanitises_every_string req Sample.world H1 H2)).
Defined.

(* ================================================================== *)
(** ** The hash router of the frontend *)

Section HashRouter.
Import Spa.

Variable parse_fragment : string -> string.
Hypothesis parse_plain : forall s, plain s = true -> parse_fragment s = s.

Local Notation "'go'" := (navigate parse_fragment).
Local Notation "'app'" := (setupRouting parse_fragment new_router).

Lemma plain_no_hash s : plain s = true -> String.prefix "#" s = false.
Proof.
  destruct s as [|c s]; [reflexivity|].
  unfold plain. cbn [list_ascii_of_string forallb String.prefix].
  intros H. apply andb_prop in H. destruct H as [Hc _].
  destruct (ascii_dec "#" c) as [<-|N]; [discriminate Hc|reflexivity].
Qed.

Lemma set_location_hash_plain v st :
  plain v = true -> set_location_hash parse_fragment v st = arrive v st.
Proof.
  intros H. unfold set_location_hash, arrive.
  now rewrite (plain_no_hash v H), (parse_plain v H).
Qed.

Lemma plain_substring_1 s : plain s = true -> plain (substring_1 s) = true.
Proof.
  destruct s as [|c s]; [reflexivity|].
  unfold plain. simpl. intros H. now apply andb_prop in H.
Qed.

Lemma navigate_login st : go "/login" [] st = arrive "login" st.
Proof. unfold navigate. simpl. now apply set_location_hash_plain. Qed.

Lemma navigate_todos st : go "/todos" [] st = arrive "todos" st.
Proof. unfold navigate. simpl. now apply set_location_hash_plain. Qed.

Lemma handleNotFound_arrive st : handleNotFound parse_fragment st = arrive (landing st) st.
Proof.
  unfold handleNotFound, landing.
  destruct (isAuthenticated st); [apply navigate_todos|apply navigate_login].
Qed.

Lemma fragment_arrive f st : fragment (arrive f st) = Some f.
Proof.
  unfold arrive. destruct (fragment st) as [f0|] eqn:E; [|reflexivity].
  destruct (String.eqb_spec f0 f); [|reflexivity]. now subst.
Qed.

Lemma getCurrentPath_fragment f st :
  fragment st = Some f -> getCurrentPath st = if (f =? "")%string then "/" else f.
Proof.
  intros H. unfold getCurrentPath, location_hash. rewrite H.
  destruct (f =? "")%string eqn:E; [reflexivity|].
  cbn [substring_1]. now rewrite E.
Qed.

(** X19.  After [navigate(path)], for a plain path (letters, digits and
    the characters [/], [-], [_], [.] and [:], which the URL parser leaves
    as they are), the current path is [path] without its leading slash,
    and [/] when nothing is left: for a path that starts with a slash and
    is not [/] alone, the current path is not the path that was navigated
    to. *)
Theorem navigate_drops_the_leading_slash path state st :
  plain path = true ->
  let current := getCurrentPath (go path state st) in
  (String.prefix "/" path = true -> path <> "/"%string ->
   String "/" current = path /\ current <> path) /\
  (String.prefix "/" path = false -> path <> ""%string -> current = path) /\
  (path = "/"%string \/ path = ""%string -> current = "/"%string).
Proof.
  intros Hp current.
  assert (Hc : current
               = let rest := if String.prefix "/" path then substring_1 path else path in
                 if (rest =? "")%string then "/"%string else rest).
  { subst current. cbv zeta. unfold navigate.
    set (rest := if String.prefix "/" path then substring_1 path else path).
    assert (Hr : plain rest = true).
    { subst rest. destruct (String.prefix "/" path); auto using plain_substring_1. }
    rewrite (set_location_hash_plain rest st Hr).
    assert (F : forall st', fragment st' = Some rest ->
                            getCurrentPath st' = if (rest =? "")%string then "/"%string else rest)
      by (intros; now apply getCurrentPath_fragment).
    destruct state; apply F; cbn [fragment]; apply fragment_arrive. }
  cbv zeta in Hc. rewrite Hc. clear Hc current.
  split; [|split].
  - intros Hs Hn. destruct path as [|c rest]; [discriminate|].
    assert (c = "/"%char) as ->.
    { cbn [String.prefix] in Hs. destruct (ascii_dec "/" c); [congruence|discriminate]. }
    rewrite Hs. cbn [substring_1].
    destruct (String.eqb_spec rest ""); [subst; now elim Hn|].
    split; [reflexivity|].
    intros E. apply (f_equal String.length) in E. simpl in E. lia.
  - intros Hs Hn. rewrite Hs. now rewrite (string_eqb_false_neq _ _ Hn).
  - intros [->| ->]; reflexivity.
Qed.

(** *** Loading the page *)

Lemma landing_hideAllPages st : landing (hideAllPages st) = landing st.
Proof. reflexivity. Qed.

Lemma landing_cases st : landing st = "login"%string \/ landing st = "todos"%string.
Proof. unfold landing. destruct (isAuthenticated st); auto. Qed.

(** A fragment the router has sent the visitor to names no route, before
    and after the routes are added. *)
Lemma handleRouteChange_lost rt st f :
  rt = new_router \/ rt = app ->
  fragment st = Some f ->
  f = "login"%string \/ f = "todos"%string ->
  handleRouteChange parse_fragment rt st = arrive (landing st) (hideAllPages st).
Proof.
  intros Hrt Hf Hcase. unfold handleRouteChange.
  rewrite (getCurrentPath_fragment f st Hf).
  assert (Hget : routes_get (if (f =? "")%string then "/"%string else f) (routes rt) = None).
  { destruct Hrt as [-> | ->]; destruct Hcase as [-> | ->]; reflexivity. }
  rewrite Hget.
  assert (Hhook : match beforeRouteChange rt with
                  | Some hook => hook (if (f =? "")%string then "/"%string else f) None st
                  | None => (true, st)
                  end = (true, st)).
  { destruct Hrt as [-> | ->]; reflexivity. }
  rewrite Hhook. cbn [negb].
  now rewrite handleNotFound_arrive, landing_hideAllPages.
Qed.

Lemma arrive_same f st : fragment st = Some f -> arrive f st = st.
Proof. intros H. unfold arrive. now rewrite H, String.eqb_refl. Qed.

Lemma arrive_moved f st :
  fragment st <> Some f ->
  arrive f st = mk (Some f) (S (pending st)) (token st) (session st) (shown st)
                   (ran st) (currentRoute st) (routeState st).
Proof.
  intros H. unfold arrive. destruct (fragment st) as [f0|]; [|reflexivity].
  destruct (String.eqb_spec f0 f); [subst; now elim H|reflexivity].
Qed.

Lemma dispatch_none fuel rt st :
  pending st = 0%nat -> dispatch_events parse_fragment fuel rt st = st.
Proof. intros H. destruct fuel; cbn [dispatch_events]; [|rewrite H]; reflexivity. Qed.

Lemma dispatch_one fuel rt st k :
  pending st = S k ->
  dispatch_events parse_fragment (S fuel) rt st
  = dispatch_events parse_fragment fuel rt
      (handleRouteChange parse_fragment rt
         (mk (fragment st) k (token st) (session st) (shown st) (ran st)
             (currentRoute st) (routeState st))).
Proof. intros H. cbn [dispatch_events]. now rewrite H. Qed.

(** Once the fragment is one the router has sent the visitor to, the
    events settle on the landing fragment with every page hidden. *)
Lemma lost_settles rt st f fuel :
  rt = new_router \/ rt = app ->
  fragment st = Some f ->
  f = "login"%string \/ f = "todos"%string ->
  pending st = 1%nat ->
  dispatch_events parse_fragment (S (S fuel)) rt st
  = mk (Some (landing st)) 0 (token st) (session st) [] (ran st)
       (currentRoute st) (routeState st).
Proof.
  intros Hrt Hf Hcase Hp.
  rewrite (dispatch_one _ rt st 0 Hp).
  match goal with
  | |- context [handleRouteChange _ _ ?s] =>
      rewrite (handleRouteChange_lost rt s f Hrt Hf Hcase);
      change (landing s) with (landing st)
  end.
  destruct (string_dec f (landing st)) as [E|N].
  - rewrite arrive_same by (cbn [fragment hideAllPages]; now rewrite Hf, E).
    rewrite dispatch_none by reflexivity.
    cbn [hideAllPages fragment pending token session shown ran currentRoute routeState].
    now rewrite Hf, E.
  - rewrite arrive_moved by (cbn [fragment hideAllPages]; congruence).
    cbn [pending hideAllPages fragment token session shown ran currentRoute routeState].
    rewrite dispatch_one with (k := 0%nat) by reflexivity.
    cbn [pending hideAllPages fragment token session shown ran currentRoute routeState].
    match goal with
    | |- context [handleRouteChange _ _ ?s] =>
        rewrite (handleRouteChange_lost rt s (landing st) Hrt eq_refl (landing_cases st));
        change (landing s) with (landing st)
    end.
    rewrite arrive_same by reflexivity.
    now rewrite dispatch_none by reflexivity.
Qed.

(** X20.  Whatever the URL, the token and the session when the page is
    loaded, and whether the events are dispatched before or after the
    routes of the application are added, the loading settles with every
    page hidden and no route handler called: the router has sent the
    visitor to the fragment [todos] or [login], which is the path of no
    route. *)
Theorem page_load_shows_no_page rt fuel st :
  rt = new_router \/ rt = app ->
  pending st = 0%nat ->
  page_load parse_fragment rt (S (S fuel)) st
  = mk (Some (landing st)) 0 (token st) (session st) [] (ran st)
       (currentRoute st) (routeState st) /\
  routes_get (getCurrentPath (page_load parse_fragment rt (S (S fuel)) st)) (routes app)
  = None.
Proof.
  intros Hrt Hp.
  assert (E : page_load parse_fragment rt (S (S fuel)) st
              = mk (Some (landing st)) 0 (token st) (session st) [] (ran st)
                   (currentRoute st) (routeState st)).
  { unfold page_load.
    assert (H1 : handleRouteChange parse_fragment new_router st
                 = arrive (landing st) (hideAllPages st)).
    { unfold handleRouteChange. cbn [routes new_router routes_get beforeRouteChange negb].
      now rewrite handleNotFound_arrive, landing_hideAllPages. }
    rewrite H1.
    destruct (fragment st) as [f0|] eqn:F.
    - destruct (string_dec f0 (landing st)) as [E|N].
      + rewrite arrive_same by (cbn [fragment hideAllPages]; now rewrite F, E).
        rewrite dispatch_none by exact Hp.
        unfold hideAllPages. now rewrite F, E, Hp.
      + rewrite arrive_moved by (cbn [fragment hideAllPages]; congruence).
        rewrite lost_settles with (f := landing st);
          [reflexivity | exact Hrt | reflexivity | apply landing_cases
          | cbn [pending hideAllPages]; now rewrite Hp].
    - rewrite arrive_moved by (cbn [fragment hideAllPages]; congruence).
      rewrite lost_settles with (f := landing st);
        [reflexivity | exact Hrt | reflexivity | apply landing_cases
        | cbn [pending hideAllPages]; now rewrite Hp]. }
  split; [exact E|]. rewrite E.
  rewrite getCurrentPath_fragment with (f := landing st) by reflexivity.
  destruct (landing_cases st) as [-> | ->]; reflexivity.
Qed.

(** *** Following a link *)

Lemma redirect_settles g s fuel :
  g = "login"%string \/ g = "todos"%string ->
  fragment s <> Some g ->
  pending s = 0%nat ->
  dispatch_events parse_fragment (S (S fuel)) app (arrive g s)
  = mk (Some (landing s)) 0 (token s) (session s) [] (ran s)
       (currentRoute s) (routeState s).
Proof.
  intros Hg Hf Hp. rewrite (arrive_moved g s Hf).
  rewrite lost_settles with (f := g);
    [reflexivity | now right | reflexivity | exact Hg | cbn [pending]; now rewrite Hp].
Qed.

Lemma routes_get_app path :
  routes_get path (routes app)
  = if ("/" =? path)%string then Some (mkRoute (handleHomeRoute parse_fragment) false false)
    else if ("/login" =? path)%string then Some (mkRoute handleLoginRoute false true)
    else if ("/register" =? path)%string then Some (mkRoute handleRegisterRoute false true)
    else if ("/todos" =? path)%string then Some (mkRoute handleTodosRoute true false)
    else None.
Proof. reflexivity. Qed.

Lemma hook_app : beforeRouteChange app = Some (handleBeforeRouteChange parse_fragment).
Proof. reflexivity. Qed.

Ltac projections :=
  cbn [fragment token session shown ran currentRoute routeState pending
       hideAllPages showPage].

(** X21.  When the visitor follows a link to a fragment, the events settle
    and a page is uncovered only where the guards let it through: the todos page
    for the fragment [/todos] of a visitor with a session and a token, the
    login and the registration form for [/login] and [/register] of a
    visitor with neither, and then the fragment stays; in every other case
    every page is hidden and the fragment is [todos] or [login]. *)
Theorem followed_link_is_guarded f fuel st :
  pending (dispatch_events parse_fragment (3 + fuel) app (follow f st)) = 0%nat /\
  shown (dispatch_events parse_fragment (3 + fuel) app (follow f st))
  = (if let_through f st then [page_of f] else []) /\
  fragment (dispatch_events parse_fragment (3 + fuel) app (follow f st))
  = Some (if let_through f st then f else landing st).
Proof.
  cbn [Nat.add].
  rewrite dispatch_one with (k := 0%nat) by reflexivity.
  cbn [follow fragment token session shown ran currentRoute routeState].
  unfold handleRouteChange.
  rewrite getCurrentPath_fragment with (f := f) by reflexivity.
  rewrite routes_get_app, hook_app.
  unfold let_through, landing.
  destruct st as [fr pe tok se sh rn cr rs]. projections.
  assert (A : exists a, forall x1 x2 xs x3 x4 x5 x6,
                 isAuthenticated (mk x1 x2 tok xs x3 x4 x5 x6) = a)
    by (exists (isAuthenticated (mk None 0 tok true [] [] None None)); reflexivity).
  destruct A as [a A]. rewrite !A.
  assert (Settle : forall g x3 x4 x5 x6,
             g = "login"%string \/ g = "todos"%string ->
             f <> g ->
             dispatch_events parse_fragment (S (S fuel)) app
               (arrive g (mk (Some f) 0 tok se x3 x4 x5 x6))
             = mk (Some (if a then "todos" else "login")%string) 0 tok se [] x4 x5 x6).
  { intros g x3 x4 x5 x6 Hg Hfg.
    rewrite redirect_settles; [ | exact Hg | cbn; congruence | reflexivity ].
    unfold landing. now rewrite A. }
  destruct (String.eqb_spec f "") as [->|Hne].
  { (* the empty fragment is the path of the home route *)
    cbn -[navigate arrive dispatch_events isAuthenticated].
    destruct se; rewrite ?navigate_login, ?navigate_todos;
      rewrite arrive_moved by (cbn; congruence); projections;
      (rewrite lost_settles with (f := "todos"%string);
       [ | now right | reflexivity | now right | reflexivity ])
      || (rewrite lost_settles with (f := "login"%string);
          [ | now right | reflexivity | now left | reflexivity ]);
      projections; unfold landing; rewrite !A; repeat split. }
  destruct (String.eqb_spec "/" f) as [<-|H0].
  { cbn -[navigate arrive dispatch_events isAuthenticated].
    destruct se; rewrite ?navigate_login, ?navigate_todos;
      rewrite arrive_moved by (cbn; congruence); projections;
      (rewrite lost_settles with (f := "todos"%string);
       [ | now right | reflexivity | now right | reflexivity ])
      || (rewrite lost_settles with (f := "login"%string);
          [ | now right | reflexivity | now left | reflexivity ]);
      projections; unfold landing; rewrite !A; repeat split. }
  destruct (String.eqb_spec "/login" f) as [<-|H1].
  { cbn -[navigate arrive dispatch_events isAuthenticated].
    destruct se; cbn -[navigate arrive dispatch_events isAuthenticated];
      unfold hideAllPages; projections; rewrite ?A; destruct a;
      cbn -[navigate arrive dispatch_events isAuthenticated];
      rewrite ?navigate_login, ?navigate_todos;
      try (rewrite Settle; [repeat split | auto | discriminate]).
    rewrite dispatch_none by reflexivity. repeat split. }
  destruct (String.eqb_spec "/register" f) as [<-|H2].
  { cbn -[navigate arrive dispatch_events isAuthenticated].
    destruct se; cbn -[navigate arrive dispatch_events isAuthenticated];
      unfold hideAllPages; projections; rewrite ?A; destruct a;
      cbn -[navigate arrive dispatch_events isAuthenticated];
      rewrite ?navigate_login, ?navigate_todos;
      try (rewrite Settle; [repeat split | auto | discriminate]).
    rewrite dispatch_none by reflexivity. repeat split. }
  destruct (String.eqb_spec "/todos" f) as [<-|H3].
  { cbn -[navigate arrive dispatch_events isAuthenticated].
    destruct se; cbn -[navigate arrive dispatch_events isAuthenticated];
      unfold hideAllPages; projections; rewrite ?A; destruct a;
      cbn -[navigate arrive dispatch_events isAuthenticated];
      rewrite ?navigate_login, ?navigate_todos;
      try (rewrite Settle; [repeat split | auto | discriminate]).
    rewrite dispatch_none by reflexivity. repeat split. }
  (* no route has this path *)
  cbn -[navigate arrive dispatch_events isAuthenticated handleNotFound].
  rewrite handleNotFound_arrive. unfold landing, hideAllPages. projections.
  rewrite ?A.
  rewrite (string_eqb_false_neq f "/todos"), (string_eqb_false_neq f "/login"),
    (string_eqb_false_neq f "/register") by congruence.
  cbn [andb orb].
  destruct (string_dec f (if a then "todos" else "login")%string) as [E|N].
  - rewrite arrive_same by (cbn [fragment]; now rewrite <- E).
    rewrite dispatch_none by reflexivity. projections. rewrite <- E. repeat split.
  - rewrite Settle; [repeat split | destruct a; auto | exact N].
Qed.

(** *** Patterns and parameters *)

Lemma split_not_nil sep s : split sep s <> [].
Proof.
  destruct s as [|c s]; simpl; [discriminate|].
  destruct (Ascii.eqb c sep); [discriminate|].
  destruct (split sep s); discriminate.
Qed.

Lemma concat_cons sep x y (ys : list string) :
  String.concat sep (x :: y :: ys) = (x ++ sep ++ String.concat sep (y :: ys))%string.
Proof. reflexivity. Qed.

Lemma concat_split sep s :
  String.concat (String sep EmptyString) (split sep s) = s.
Proof.
  induction s as [|c s IH]; [reflexivity|].
  cbn [split]. pose proof (split_not_nil sep s) as Hn.
  destruct (split sep s) as [|x xs]; [now elim Hn|].
  destruct (Ascii.eqb_spec c sep) as [->|N].
  - rewrite concat_cons, IH. reflexivity.
  - destruct xs as [|y ys].
    + cbn [String.concat] in *. now rewrite IH.
    + rewrite concat_cons. rewrite concat_cons in IH.
      rewrite <- IH. reflexivity.
Qed.

Lemma split_injective sep a b : split sep a = split sep b -> a = b.
Proof.
  intros H. rewrite <- (concat_split sep a), <- (concat_split sep b). now rewrite H.
Qed.

Lemma segments_match_literal ps : forall cs,
  Forall (fun p => String.prefix ":" p = false) ps ->
  List.length ps = List.length cs ->
  (segments_match ps cs = true <-> ps = cs).
Proof.
  induction ps as [|p ps IH]; intros [|c cs] Hlit Hlen; try discriminate.
  - split; reflexivity.
  - inversion Hlit as [|? ? Hp Hps]; subst. cbn [segments_match].
    rewrite Hp. cbn [negb andb].
    destruct (String.eqb_spec p c) as [->|N]; cbn [negb].
    + rewrite (IH cs Hps) by (simpl in Hlen; lia).
      split; [now intros -> | now intros [= ->]].
    + split; [discriminate | intros [= E _]; now elim N].
Qed.

(** X22.  A pattern none of whose segments starts with a colon matches
    exactly when the current path is the pattern itself. *)
Theorem matchesRoute_literal pattern st :
  Forall (fun p => String.prefix ":" p = false) (split "/" pattern) ->
  (matchesRoute pattern st = true <-> getCurrentPath st = pattern).
Proof.
  intros Hlit. unfold matchesRoute. split.
  - destruct (Nat.eqb_spec (List.length (split "/" pattern))
                           (List.length (split "/" (getCurrentPath st)))) as [E|N];
      cbn [negb]; [|discriminate].
    intros H. apply (segments_match_literal _ _ Hlit E) in H.
    symmetry. now apply (split_injective "/").
  - intros ->. rewrite Nat.eqb_refl. cbn [negb].
    now apply segments_match_literal.
Qed.

Lemma prefix_colon name : String.prefix ":" (String ":" name) = true.
Proof.
  cbn [String.prefix]. destruct (ascii_dec ":" ":"); [|congruence].
  destruct name; reflexivity.
Qed.

Lemma assign_param_other name name' c params :
  name' <> name ->
  JS.get name (assign_param name' c params) = JS.get name params.
Proof.
  intros N. unfold assign_param.
  destruct (name' =? "__proto__")%string; [reflexivity|].
  now apply get_set_other.
Qed.

Lemma assign_param_same name c params :
  name <> "__proto__"%string ->
  JS.get name (assign_param name c params) = JS.VStr c.
Proof.
  intros N. unfold assign_param.
  rewrite (proj2 (String.eqb_neq name "__proto__") N).
  apply get_set_same.
Qed.

Lemma set_keys k k' v o :
  In k' (map fst (JS.set k v o)) -> k' = k \/ In k' (map fst o).
Proof.
  induction o as [|[k0 v0] o IH]; simpl.
  - intros [H|[]]. now left.
  - destruct (k0 =? k)%string eqn:E; simpl.
    + intros [H|H]; [now left|right; now right].
    + intros [H|H]; [right; now left|].
      destruct (IH H) as [H'|H']; [now left|right; now right].
Qed.

Lemma assign_param_keys name c params :
  ~ In "__proto__"%string (map fst params) ->
  ~ In "__proto__"%string (map fst (assign_param name c params)).
Proof.
  intros H. unfold assign_param.
  destruct (String.eqb_spec name "__proto__") as [E|N]; [exact H|].
  intros Hin. apply set_keys in Hin. destruct Hin as [Hin|Hin]; [|now apply H].
  now apply N.
Qed.

Lemma bind_params_keys ps : forall cs params,
  ~ In "__proto__"%string (map fst params) ->
  ~ In "__proto__"%string (map fst (bind_params ps cs params)).
Proof.
  induction ps as [|p ps IH]; intros cs params H; [exact H|].
  destruct cs as [|c cs]; [exact H|]. cbn [bind_params]. apply IH.
  destruct (String.prefix ":" p); [|exact H].
  now apply assign_param_keys.
Qed.

Lemma bind_params_other name ps : forall cs params,
  (forall j name', nth_error ps j = Some (String ":" name') -> name' <> name) ->
  JS.get name (bind_params ps cs params) = JS.get name params.
Proof.
  induction ps as [|p ps IH]; intros cs params Hother; [reflexivity|].
  destruct cs as [|c cs]; [reflexivity|]. cbn [bind_params].
  rewrite IH by (intros j name' Hj; exact (Hother (S j) name' Hj)).
  destruct (String.prefix ":" p) eqn:Hp; [|reflexivity].
  destruct p as [|x p']; [discriminate|].
  assert (x = ":"%char) as ->.
  { cbn [String.prefix] in Hp. destruct (ascii_dec ":" x); [congruence|discriminate]. }
  cbn [substring_1]. apply assign_param_other.
  exact (Hother 0%nat p' eq_refl).
Qed.

Lemma bind_params_at name c ps : forall cs params i,
  name <> "__proto__"%string ->
  nth_error ps i = Some (String ":" name) ->
  nth_error cs i = Some c ->
  (forall j name', (i < j)%nat -> nth_error ps j = Some (String ":" name') ->
                   name' <> name) ->
  JS.get name (bind_params ps cs params) = JS.VStr c.
Proof.
  induction ps as [|p ps IH]; intros cs params i Hn Hp Hc Hlater.
  - destruct i; discriminate.
  - destruct cs as [|c0 cs]; [destruct i; discriminate|].
    cbn [bind_params]. destruct i as [|i].
    + injection Hp as ->. injection Hc as ->.
      rewrite prefix_colon. cbn [substring_1].
      rewrite bind_params_other.
      * now apply assign_param_same.
      * intros j name' Hj. apply (Hlater (S j) name'); [lia|exact Hj].
    + apply (IH cs _ i Hn Hp Hc).
      intros j name' Hij Hj. apply (Hlater (S j) name'); [lia|exact Hj].
Qed.

(** X23.  [getRouteParams] binds every parameter of a pattern with as many
    segments as the current path, other than one named [__proto__], to the
    segment at its place, the last one when a name occurs twice, whether
    or not the other segments agree with the path; a parameter named
    [__proto__] is never bound, the object returned has no such property;
    for a pattern with another number of segments it returns no parameter,
    and [matchesRoute] is false. *)
Theorem getRouteParams_binds_by_position pattern st :
  (List.length (split "/" pattern) <> List.length (split "/" (getCurrentPath st)) ->
   getRouteParams pattern st = [] /\
   matchesRoute pattern st = false) /\
  (List.length (split "/" pattern) = List.length (split "/" (getCurrentPath st)) ->
   forall i name c,
     name <> "__proto__"%string ->
     nth_error (split "/" pattern) i = Some (String ":" name) ->
     nth_error (split "/" (getCurrentPath st)) i = Some c ->
     (forall j name', (i < j)%nat ->
                      nth_error (split "/" pattern) j = Some (String ":" name') ->
                      name' <> name) ->
     JS.get name (getRouteParams pattern st) = JS.VStr c) /\
  ~ In "__proto__"%string (map fst (getRouteParams pattern st)).
Proof.
  unfold getRouteParams, matchesRoute. split; [|split].
  - intros N. apply Nat.eqb_neq in N. rewrite N. split; reflexivity.
  - intros E i name c Hn Hp Hc Hlater. rewrite E, Nat.eqb_refl. cbn [negb].
    now apply (bind_params_at name c _ _ _ i).
  - destruct (negb _); [intros []|].
    apply bind_params_keys. intros [].
Qed.

End HashRouter.

Lemma navigate_drops_the_leading_slash_witness :
  (forall s, plain s = true -> Visits.as_typed s = s) /\
  plain "/login" = true /\
  Spa.getCurrentPath (Spa.navigate Visits.as_typed "/login" [] Visits.stranger)
  = "login"%string /\
  Spa.routes_get "login" (Spa.routes Visits.app) = None.
Proof.
  assert (H0 : forall s, plain s = true -> Visits.as_typed s = s) by reflexivity.
  assert (H1 : plain "/login" = true) by reflexivity.
  split; [exact H0|]. split; [exact H1|].
  destruct (navigate_drops_the_leading_slash Visits.as_typed H0 "/login" []
              Visits.stranger H1) as (Hs & _ & _).
  destruct (Hs eq_refl ltac:(discriminate)) as [E _].
  split; [exact (f_equal Spa.substring_1 E)|reflexivity].
Defined.

Lemma page_load_shows_no_page_witness :
  (forall s, plain s = true -> Visits.as_typed s = s) /\
  Spa.pending Visits.stranger = 0%nat /\
  page_load Visits.as_typed Visits.app 2 Visits.stranger
  = Spa.mk (Some "login") 0 None false [] [] None None.
Proof.
  assert (H0 : forall s, plain s = true -> Visits.as_typed s = s) by reflexivity.
  assert (H1 : Spa.pending Visits.stranger = 0%nat) by reflexivity.
  split; [exact H0|]. split; [exact H1|].
  exact (proj1 (page_load_shows_no_page Visits.as_typed H0 Visits.app 0
                  Visits.stranger (or_intror eq_refl) H1)).
Defined.

Lemma followed_link_is_guarded_witness :
  (forall s, plain s = true -> Visits.as_typed s = s) /\
  Spa.shown (Spa.dispatch_events Visits.as_typed 3 Visits.app
               (follow "/todos" Visits.member)) = ["todos-page"%string] /\
  Spa.shown (Spa.dispatch_events Visits.as_typed 3 Visits.app
               (follow "/todos" Visits.stranger)) = [] /\
  Spa.fragment (Spa.dispatch_events Visits.as_typed 3 Visits.app
                  (follow "/todos" Visits.stranger)) = Some "login"%string.
Proof.
  assert (H0 : forall s, plain s = true -> Visits.as_typed s = s) by reflexivity.
  split; [exact H0|].
  destruct (followed_link_is_guarded Visits.as_typed H0 "/todos" 0 Visits.member)
    as (_ & S1 & _).
  destruct (followed_link_is_guarded Visits.as_typed H0 "/todos" 0 Visits.stranger)
    as (_ & S2 & F2).
  split; [exact S1|]. split; [exact S2|exact F2].
Defined.

Lemma matchesRoute_literal_witness :
  Forall (fun p => String.prefix ":" p = false) (Spa.split "/" "/login") /\
  Spa.matchesRoute "/login" Visits.member = true.
Proof.
  assert (H : Forall (fun p => String.prefix ":" p = false) (Spa.split "/" "/login"))
    by (repeat constructor).
  split; [exact H|].
  now apply (matchesRoute_literal "/login" Visits.member H).
Defined.

Lemma getRouteParams_binds_by_position_witness :
  let st := Spa.mk (Some "/todos/42") 0 None false [] [] None None in
  List.length (Spa.split "/" "/todos/:id")
  = List.length (Spa.split "/" (Spa.getCurrentPath st)) /\
  JS.get "id" (Spa.getRouteParams "/todos/:id" st) = JS.VStr "42" /\
  ~ In "__proto__"%string (map fst (Spa.getRouteParams "/todos/:__proto__" st)).
Proof.
  intros st.
  assert (E : List.length (Spa.split "/" "/todos/:id")
              = List.length (Spa.split "/" (Spa.getCurrentPath st))) by reflexivity.
  split; [exact E|]. split.
  - destruct (getRouteParams_binds_by_position "/todos/:id" st) as (_ & Hbind & _).
    apply (Hbind E 2%nat "id"%string "42"%string);
      [discriminate | reflexivity | reflexivity |].
    intros [|[|[|[|j]]]] name' Hj Hn; try lia; simpl in Hn; discriminate.
  - now destruct (getRouteParams_binds_by_position "/todos/:__proto__" st)
      as (_ & _ & H).
Defined.

(* ================================================================== *)
(** ** The accounts *)

Section AccountsProperties.
Import Accounts.

Variable bcrypt_hash : string -> Z -> string -> string.
Variable bcrypt_compare : string -> string -> bool.

Local Notation "'create'" := (UserModel.create bcrypt_hash).

Lemma create_typed userData u e p w :
  JS.get "username" userData = JS.VStr u ->
  JS.get "email" userData = JS.VStr e ->
  JS.get "password" userData = JS.VStr p ->
  let i := uuid_stream w (uuid_drawn w) in
  let h := bcrypt_hash p 10 (salt_stream w (salt_drawn w)) in
  create userData w
  = if existsb (has_id i) (table w) || existsb (has_username u) (table w)
       || existsb (has_email e) (table w)
    then (Err Constraint,
          mk (table w) (clock w) (uuid_stream w) (S (uuid_drawn w))
             (salt_stream w) (S (salt_drawn w)))
    else (Ok (UserModel.mk (JS.VStr i) (JS.VStr u) (JS.VStr e) (JS.VStr h)
                           JS.VUndefined JS.VUndefined),
          mk (table w ++ [mkRow i u e h (clock w) (clock w)]) (clock w)
             (uuid_stream w) (S (uuid_drawn w)) (salt_stream w) (S (salt_drawn w))).
Proof.
  intros Hu He Hp i h. unfold UserModel.create. rewrite Hu, He, Hp.
  unfold UserModel.hash, UserModel.new, run_insert, bind, gen_salt, uuidv4, ret, lift.
  cbn. fold i h.
  destruct (existsb (has_id i) (table w) || existsb (has_username u) (table w)
            || existsb (has_email e) (table w)); reflexivity.
Qed.

Lemma create_table userData w :
  table (snd (create userData w)) = table w \/
  exists i u e h,
    table (snd (create userData w))
    = (table w ++ [mkRow i u e h (clock w) (clock w)])%list /\
    existsb (has_id i) (table w) = false /\
    existsb (has_username u) (table w) = false /\
    existsb (has_email e) (table w) = false.
Proof.
  unfold UserModel.create, UserModel.hash.
  destruct (JS.get "password" userData) as [| |b|n| |p]; try (left; reflexivity).
  unfold UserModel.new, run_insert, bind, gen_salt, uuidv4, ret, lift. cbn.
  destruct (JS.get "username" userData) as [| |b|n| |u]; try (left; reflexivity).
  destruct (JS.get "email" userData) as [| |b|n| |e]; try (left; reflexivity).
  cbn.
  destruct (existsb (has_id _) (table w)) eqn:E1; [left; reflexivity|].
  destruct (existsb (has_username u) (table w)) eqn:E2; [left; reflexivity|].
  destruct (existsb (has_email e) (table w)) eqn:E3; [left; reflexivity|].
  right. cbn. eauto 10.
Qed.

Lemma existsb_false_not_in (key : Row -> string) (k : string) tbl :
  existsb (fun r => (key r =? k)%string) tbl = false -> ~ In k (map key tbl).
Proof.
  induction tbl as [|r tbl IH]; simpl; [tauto|].
  intros H. apply orb_false_iff in H. destruct H as [H1 H2].
  apply String.eqb_neq in H1. intros [E|Hin]; [congruence|now apply IH].
Qed.

Lemma NoDup_snoc (l : list string) x : NoDup l -> ~ In x l -> NoDup (l ++ [x]).
Proof.
  intros Hl Hx. apply NoDup_app; [exact Hl|repeat constructor; tauto|].
  intros y Hy [E|[]]. subst. contradiction.
Qed.

Lemma create_unique userData w :
  accounts_unique (table w) -> accounts_unique (table (snd (create userData w))).
Proof.
  intros (U1 & U2 & U3).
  destruct (create_table userData w) as [E|(i & u & e & h & E & F1 & F2 & F3)];
    rewrite E; [repeat split; assumption|].
  unfold accounts_unique. rewrite !map_app. cbn [map id username email].
  repeat split; apply NoDup_snoc; auto.
  - exact (existsb_false_not_in id i _ F1).
  - exact (existsb_false_not_in username u _ F2).
  - exact (existsb_false_not_in email e _ F3).
Qed.

Lemma register_all_unique requests : forall w,
  accounts_unique (table w) ->
  accounts_unique (table (register_all bcrypt_hash requests w)).
Proof.
  induction requests as [|userData rest IH]; intros w H; [exact H|].
  cbn [register_all]. apply IH. now apply create_unique.
Qed.

(** X24.  Whatever registrations are attempted, starting from no account,
    and whatever their data, no two accounts ever share an id, a username
    or an email. *)
Theorem accounts_stay_unique requests now uuids drawn_uuids salts drawn_salts :
  accounts_unique
    (table (register_all bcrypt_hash requests
              (mk [] now uuids drawn_uuids salts drawn_salts))).
Proof.
  apply register_all_unique. repeat split; constructor.
Qed.

Lemma find_snoc_fresh (p : Row -> bool) tbl row :
  existsb p tbl = false -> p row = true -> find p (tbl ++ [row]) = Some row.
Proof.
  induction tbl as [|r tbl IH]; simpl; intros H Hr.
  - now rewrite Hr.
  - apply orb_false_iff in H. destruct H as [H1 H2]. rewrite H1. now apply IH.
Qed.

Lemma found_row (column : string -> Row -> bool) k row w :
  find (column k) (table w) = Some row ->
  UserModel.resolve (Some row) w = (Ok (Some (user_of_row row)), w) ->
  bind (get_where column (JS.VStr k)) UserModel.resolve w
  = (Ok (Some (user_of_row row)), w).
Proof.
  intros Hf Hr. unfold bind, get_where, lift. cbn. now rewrite Hf.
Qed.

Lemma resolve_row row w :
  id row <> ""%string ->
  UserModel.resolve (Some row) w = (Ok (Some (user_of_row row)), w).
Proof.
  intros Hi. unfold UserModel.resolve, UserModel.new, bind, ret. cbn.
  now rewrite (string_eqb_false_neq _ _ Hi).
Qed.

(** X25.  A registration with a string username, email and password, when
    no account has that username or email and [uuidv4] yields a fresh
    non-empty identifier, stores one account with the hash [bcrypt] made of
    the password; as long as the table is not changed, the account is
    found by its email, by its username and by its id, its JSON holds no
    [password_hash], and, [bcrypt.compare] accepting a password against
    its own hash, [verifyPassword] accepts the password that was given. *)
Theorem registered_user_is_found userData u e p w :
  (forall q rounds salt, bcrypt_compare q (bcrypt_hash q rounds salt) = true) ->
  JS.get "username" userData = JS.VStr u ->
  JS.get "email" userData = JS.VStr e ->
  JS.get "password" userData = JS.VStr p ->
  let i := uuid_stream w (uuid_drawn w) in
  i <> ""%string ->
  existsb (has_id i) (table w) = false ->
  existsb (has_username u) (table w) = false ->
  existsb (has_email e) (table w) = false ->
  let row := mkRow i u e (bcrypt_hash p 10 (salt_stream w (salt_drawn w)))
                   (clock w) (clock w) in
  exists user w',
    create userData w = (Ok user, w') /\
    table w' = (table w ++ [row])%list /\
    UserModel.id user = JS.VStr i /\
    forall w2,
      table w2 = table w' ->
      UserModel.findByEmail (JS.VStr e) w2 = (Ok (Some (user_of_row row)), w2) /\
      UserModel.findByUsername (JS.VStr u) w2 = (Ok (Some (user_of_row row)), w2) /\
      UserModel.findById (JS.VStr i) w2 = (Ok (Some (user_of_row row)), w2) /\
      UserModel.verifyPassword bcrypt_compare (user_of_row row) (JS.VStr p) w2
      = (Ok true, w2) /\
      JS.get "email" (UserModel.toJSON (user_of_row row)) = JS.VStr e /\
      JS.get "password_hash" (UserModel.toJSON (user_of_row row)) = JS.VUndefined.
Proof.
  intros Hb Hu He Hp i Hi F1 F2 F3 row.
  rewrite (create_typed userData u e p w Hu He Hp). fold i.
  rewrite F1, F2, F3. cbn [orb].
  eexists; eexists. split; [reflexivity|]. split; [reflexivity|].
  split; [reflexivity|].
  intros w2 Ht. cbn [table] in Ht. fold row in Ht.
  assert (R : UserModel.resolve (Some row) w2 = (Ok (Some (user_of_row row)), w2))
    by (apply resolve_row; exact Hi).
  repeat split.
  - apply found_row; auto. rewrite Ht. apply find_snoc_fresh; auto.
    apply String.eqb_refl.
  - apply found_row; auto. rewrite Ht. apply find_snoc_fresh; auto.
    apply String.eqb_refl.
  - apply found_row; auto. rewrite Ht. apply find_snoc_fresh; auto.
    apply String.eqb_refl.
  - unfold UserModel.verifyPassword, ret. cbn. now rewrite Hb.
Qed.

Lemma exists_found (column : string -> Row -> bool) v w :
  fst (bind (bind (get_where column v) UserModel.resolve)
            (fun user => ret (match user with Some _ => true | None => false end)) w)
  = Ok true ->
  exists k, v = JS.VStr k /\ existsb (column k) (table w) = true.
Proof.
  unfold bind, get_where, lift, ret.
  destruct v as [| |b|n| |k]; cbn; try discriminate.
  destruct (find (column k) (table w)) as [r|] eqn:F; cbn; [|discriminate].
  intros _. exists k. split; [reflexivity|].
  apply existsb_exists. apply find_some in F. now exists r.
Qed.

(** X26.  When [emailExists] answers true for the email of a registration,
    or [usernameExists] for its username, [create] fails and the table is
    what it was. *)
Theorem taken_name_is_refused userData w :
  fst (UserModel.emailExists (JS.get "email" userData) w) = Ok true \/
  fst (UserModel.usernameExists (JS.get "username" userData) w) = Ok true ->
  exists err w', create userData w = (Err err, w') /\ table w' = table w.
Proof.
  intros H.
  assert (T : exists k, (JS.get "email" userData = JS.VStr k /\
                         existsb (has_email k) (table w) = true) \/
                        (JS.get "username" userData = JS.VStr k /\
                         existsb (has_username k) (table w) = true)).
  { destruct H as [H|H]; apply exists_found in H; destruct H as (k & E & X);
      exists k; auto. }
  destruct T as (k & T).
  unfold UserModel.create, UserModel.hash.
  destruct (JS.get "password" userData) as [| |b|n| |p];
    try (eexists; eexists; split; reflexivity).
  unfold UserModel.new, run_insert, bind, gen_salt, uuidv4, ret, lift. cbn.
  destruct (JS.get "username" userData) as [| |b|n| |u];
    try (eexists; eexists; split; reflexivity).
  destruct (JS.get "email" userData) as [| |b|n| |e];
    try (eexists; eexists; split; reflexivity).
  cbn.
  assert (X : existsb (has_id (uuid_stream w (uuid_drawn w))) (table w)
              || existsb (has_username u) (table w)
              || existsb (has_email e) (table w) = true).
  { destruct T as [(E & X)|(E & X)]; injection E as ->; rewrite X;
      now rewrite ?orb_true_r. }
  rewrite X. eexists; eexists; split; reflexivity.
Qed.

End AccountsProperties.

Lemma tagged_compare_accepts q rounds salt :
  Members.tagged_compare q (Members.tagged_hash q rounds salt) = true.
Proof.
  unfold Members.tagged_hash.
  induction salt as [|c salt IH]; cbn [String.append Members.tagged_compare].
  - destruct q; cbn [Members.tagged_compare]; now rewrite String.eqb_refl.
  - rewrite IH. apply orb_true_r.
Qed.

Lemma registered_user_is_found_witness :
  let userData := [("username", JS.VStr "carol"); ("email", JS.VStr "c@x.com");
                   ("password", JS.VStr "secret1")] in
  (forall q rounds salt,
      Members.tagged_compare q (Members.tagged_hash q rounds salt) = true) /\
  exists user w',
    UserModel.create Members.tagged_hash userData Members.world = (Accounts.Ok user, w') /\
    UserModel.findByEmail (JS.VStr "c@x.com") w'
    = (Accounts.Ok (Some (UserModel.mk (JS.VStr "6f1c0c3e-0000-4000-8000-000000000001")
                            (JS.VStr "carol") (JS.VStr "c@x.com")
                            (JS.VStr "s4ltsecret1") (JS.VStr Sample.now)
                            (JS.VStr Sample.now))), w') /\
    UserModel.verifyPassword Members.tagged_compare
      (UserModel.mk (JS.VStr "6f1c0c3e-0000-4000-8000-000000000001")
                    (JS.VStr "carol") (JS.VStr "c@x.com")
                    (JS.VStr "s4ltsecret1") (JS.VStr Sample.now) (JS.VStr Sample.now))
      (JS.VStr "secret1") w' = (Accounts.Ok true, w').
Proof.
  intros userData.
  split; [exact tagged_compare_accepts|].
  destruct (registered_user_is_found Members.tagged_hash Members.tagged_compare
              userData "carol" "c@x.com" "secret1" Members.world
              tagged_compare_accepts eq_refl eq_refl eq_refl
              ltac:(discriminate) eq_refl eq_refl eq_refl)
    as (user & w' & E & Ht & _ & Hfound).
  exists user, w'. split; [exact E|].
  destruct (Hfound w' eq_refl) as (H1 & _ & _ & H4 & _).
  split; [exact H1|exact H4].
Defined.

Lemma taken_name_is_refused_witness :
  let userData := [("username", JS.VStr "alice2"); ("email", JS.VStr "a@x.com");
                   ("password", JS.VStr "secret1")] in
  fst (UserModel.emailExists (JS.get "email" userData) Members.world) = Accounts.Ok true /\
  exists err w',
    UserModel.create Members.tagged_hash userData Members.world = (Accounts.Err err, w') /\
    Accounts.table w' = Accounts.table Members.world.
Proof.
  intros userData.
  assert (H : fst (UserModel.emailExists (JS.get "email" userData) Members.world)
              = Accounts.Ok true) by reflexivity.
  split; [exact H|].
  exact (taken_name_is_refused Members.tagged_hash userData Members.world
           (or_introl H)).
Defined.

(* ================================================================== *)
(** ** The todo manager *)

Lemma todoId_is_no_string dataset_todoId i :
  JS.strict_eq (JS.VStr i) (TodoManager.todoId_of dataset_todoId) = false.
Proof.
  unfold TodoManager.todoId_of.
  destruct (JS.parseInt dataset_todoId); reflexivity.
Qed.

Lemma find_by_number todoId todos :
  (forall i, JS.strict_eq (JS.VStr i) todoId = false) ->
  Forall string_id todos ->
  find (fun t => JS.strict_eq (JS.get "id" t) todoId) todos = None /\
  (forall v, TodoManager.assign_completed todoId v todos = todos).
Proof.
  intros Hn. induction 1 as [|t todos [i Hi] _ [IH1 IH2]]; [split; reflexivity|].
  split.
  - cbn [find]. now rewrite Hi, Hn.
  - intros v. cbn [TodoManager.assign_completed]. now rewrite Hi, Hn, IH2.
Qed.

(** X27.  The handlers read the id of the clicked todo with [parseInt] and
    compare it with [===]: when the ids of the todos are strings, as the
    API returns them, no todo is ever found, whatever the element says.
    The delete button then changes nothing and calls nothing, and the
    checkbox changes no todo, neither at first nor when the call fails,
    and still sends the call, for the number read. *)
Theorem buttons_find_no_todo sort_by_date dataset_todoId checked confirmed
        api_succeeds this :
  Forall string_id (TodoManager.todos this) ->
  TodoManager.handleDeleteTodo sort_by_date dataset_todoId confirmed api_succeeds this
  = (this, []) /\
  TodoManager.handleToggleTodo dataset_todoId checked api_succeeds this
  = (this, [TodoManager.ToggleTodo (TodoManager.todoId_of dataset_todoId) checked],
     negb api_succeeds) /\
  forall i, TodoManager.todoId_of dataset_todoId <> JS.VStr i.
Proof.
  intros H.
  destruct (find_by_number (TodoManager.todoId_of dataset_todoId)
              (TodoManager.todos this)
              (fun i => todoId_is_no_string dataset_todoId i) H) as [F A].
  split; [|split].
  - unfold TodoManager.handleDeleteTodo. now rewrite F.
  - unfold TodoManager.handleToggleTodo. rewrite !A.
    destruct this as [todos flt]. destruct api_succeeds; reflexivity.
  - intros i E. pose proof (todoId_is_no_string dataset_todoId i) as N.
    rewrite E in N. cbn in N. now rewrite String.eqb_refl in N.
Qed.

Lemma filter_partition_length {A} (p : A -> bool) (l : list A) :
  List.length l
  = (List.length (List.filter p l)
     + List.length (List.filter (fun x => negb (p x)) l))%nat.
Proof.
  induction l as [|x l IH]; [reflexivity|].
  cbn [List.filter]. destruct (p x); cbn [negb List.length]; lia.
Qed.

Lemma filter_partition_perm {A} (p : A -> bool) (l : list A) :
  Permutation l (List.filter p l ++ List.filter (fun x => negb (p x)) l).
Proof.
  induction l as [|x l IH]; [constructor|].
  cbn [List.filter]. destruct (p x); cbn [negb].
  - cbn [app]. now constructor.
  - now apply Permutation_cons_app.
Qed.

(** X28.  Every todo counts as completed or as pending and never as both:
    the count of all todos is the completed count plus the pending count,
    and the todos the filters [completed] and [pending] show are together
    the todos there are, each once, the first all with a truthy
    [completed] and the second all without. *)
Theorem counts_partition_the_todos this :
  let completed := TodoManager.getFilteredTodos
                     (TodoManager.mk (TodoManager.todos this) (JS.VStr "completed")) in
  let pending := TodoManager.getFilteredTodos
                   (TodoManager.mk (TodoManager.todos this) (JS.VStr "pending")) in
  TodoManager.getTodosCount this
  = (TodoManager.getCompletedCount this + TodoManager.getPendingCount this)%nat /\
  Permutation (TodoManager.todos this) (completed ++ pending) /\
  Forall (fun todo => JS.truthy (JS.get "completed" todo) = true) completed /\
  Forall (fun todo => JS.truthy (JS.get "completed" todo) = false) pending.
Proof.
  intros completed pending. split; [apply filter_partition_length|].
  split; [apply filter_partition_perm|]. split.
  - apply Forall_forall. intros todo H. subst completed.
    cbn in H. apply filter_In in H. tauto.
  - apply Forall_forall. intros todo H. subst pending.
    cbn in H. apply filter_In in H. destruct H as [_ H].
    now apply negb_true_iff in H.
Qed.

Lemma buttons_find_no_todo_witness :
  let this := TodoManager.mk [json_of (instance_of_row Sample.milk);
                              json_of (instance_of_row Sample.bread)]
                             (JS.VStr "all") in
  Forall string_id (TodoManager.todos this) /\
  TodoManager.handleDeleteTodo (fun l => l) (JS.VStr "t-milk") true true this
  = (this, []).
Proof.
  intros this.
  assert (H : Forall string_id (TodoManager.todos this)).
  { repeat constructor; eexists; reflexivity. }
  split; [exact H|].
  exact (proj1 (buttons_find_no_todo (fun l => l) (JS.VStr "t-milk") JS.VUndefined
                  true true this H)).
Defined.

(* ================================================================== *)
(** ** Regular expressions and the test of an email address *)

Lemma string_app_nil (a b : string) :
  (a ++ b)%string = EmptyString -> a = EmptyString /\ b = EmptyString.
Proof. destruct a; [auto|discriminate]. Qed.

Lemma string_app_empty_r (a : string) : (a ++ "")%string = a.
Proof. induction a as [|c a IH]; [reflexivity|]. cbn. now rewrite IH. Qed.

Lemma nullable_in r : RegExp.nullable r = true -> in_language r EmptyString.
Proof.
  induction r; cbn; intros H; try discriminate.
  - constructor.
  - apply andb_prop in H. destruct H as [H1 H2].
    change EmptyString with (EmptyString ++ EmptyString)%string.
    constructor; auto.
  - apply orb_prop in H. destruct H as [H|H];
      [apply in_alt_l | apply in_alt_r]; auto.
  - constructor.
Qed.

Lemma in_nullable r s : in_language r s -> s = EmptyString -> RegExp.nullable r = true.
Proof.
  induction 1; cbn; intros E; try discriminate; try reflexivity.
  - apply string_app_nil in E. destruct E as [-> ->].
    now rewrite IHin_language1, IHin_language2.
  - now rewrite IHin_language.
  - rewrite IHin_language; [apply orb_true_r|exact E].
Qed.

Lemma deriv_sound c r : forall s,
  in_language (RegExp.deriv c r) s -> in_language r (String c s).
Proof.
  induction r; cbn [RegExp.deriv]; intros s H.
  - inversion H.
  - inversion H.
  - destruct (p c) eqn:P; inversion H; subst. now constructor.
  - destruct (RegExp.nullable r1) eqn:N.
    + inversion H; subst.
      * match goal with
        | H1 : in_language (RegExp.Seq _ _) _ |- _ => inversion H1; subst
        end.
        change (String c (a ++ b)) with (String c a ++ b)%string.
        constructor; auto.
      * change (String c s) with (EmptyString ++ String c s)%string.
        constructor; [now apply nullable_in | auto].
    + inversion H; subst.
      change (String c (a ++ b)) with (String c a ++ b)%string.
      constructor; auto.
  - inversion H; subst; [apply in_alt_l | apply in_alt_r]; auto.
  - inversion H; subst.
    change (String c (a ++ b)) with (String c a ++ b)%string.
    constructor; auto.
Qed.

Lemma deriv_complete c r s' :
  in_language r s' -> forall s, s' = String c s -> in_language (RegExp.deriv c r) s.
Proof.
  induction 1 as [|p c0 P|r s a b Ha IHa Hb IHb|r s a Ha IHa|r s a Ha IHa
                  |r|r a b Ha IHa Hb IHb];
    intros s0 E; cbn [RegExp.deriv].
  - discriminate.
  - injection E as -> <-. rewrite P. constructor.
  - destruct a as [|x a].
    + cbn in E. rewrite (in_nullable r _ Ha eq_refl).
      apply in_alt_r. now apply IHb.
    + cbn in E. injection E as -> <-.
      destruct (RegExp.nullable r); [apply in_alt_l|]; constructor; auto.
  - apply in_alt_l. auto.
  - apply in_alt_r. auto.
  - discriminate.
  - destruct a as [|x a].
    + cbn in E. now apply IHb.
    + cbn in E. injection E as -> <-. constructor; auto.
Qed.

Lemma test_spec s : forall r, RegExp.test r s = true <-> in_language r s.
Proof.
  induction s as [|c s IH]; intros r; cbn [RegExp.test].
  - split; [apply nullable_in | intros H; now apply (in_nullable r _ H)].
  - rewrite IH. split; [apply deriv_sound | intros H; now apply (deriv_complete c r _ H)].
Qed.

Lemma star_class p s :
  in_language (RegExp.Star (RegExp.Class p)) s <->
  forallb p (list_ascii_of_string s) = true.
Proof.
  split.
  - intros H. remember (RegExp.Star (RegExp.Class p)) as r eqn:R.
    induction H; try discriminate; [reflexivity|].
    injection R as ->. inversion H; subst. cbn.
    match goal with P : p _ = true |- _ => rewrite P end. now apply IHin_language2.
  - induction s as [|c s IH]; cbn; intros H; [constructor|].
    apply andb_prop in H. destruct H as [Hc Hs].
    change (String c s) with (String c EmptyString ++ s)%string.
    constructor; [now constructor | auto].
Qed.

Lemma plus_class p s :
  in_language (RegExp.Plus (RegExp.Class p)) s <->
  s <> EmptyString /\ forallb p (list_ascii_of_string s) = true.
Proof.
  unfold RegExp.Plus. split.
  - intros H. inversion H; subst.
    match goal with H1 : in_language (RegExp.Class p) _ |- _ => inversion H1; subst end.
    split; [discriminate|]. cbn.
    match goal with P : p _ = true |- _ => rewrite P end. now apply star_class.
  - intros [Hne H]. destruct s as [|c s]; [now elim Hne|].
    cbn in H. apply andb_prop in H. destruct H as [Hc Hs].
    change (String c s) with (String c EmptyString ++ s)%string.
    constructor; [now constructor | now apply star_class].
Qed.

Lemma class_char c s :
  in_language (RegExp.Class (Ascii.eqb c)) s <-> s = String c EmptyString.
Proof.
  split.
  - intros H. inversion H; subst.
    match goal with P : Ascii.eqb _ _ = true |- _ => apply Ascii.eqb_eq in P; now subst end.
  - intros ->. constructor. apply Ascii.eqb_refl.
Qed.

Lemma emailRegex_language s :
  in_language Email.emailRegex s <->
  exists a b c,
    s = (a ++ "@" ++ b ++ "." ++ c)%string /\
    address_part a /\ address_part b /\ address_part c.
Proof.
  unfold Email.emailRegex, address_part. split.
  - intros H.
    inversion H as [| |? ? a r1 Ha H1| | | |]; subst.
    inversion H1 as [| |? ? x r2 Hx H2| | | |]; subst.
    inversion H2 as [| |? ? b r3 Hb H3| | | |]; subst.
    inversion H3 as [| |? ? y c Hy Hc| | | |]; subst.
    apply class_char in Hx, Hy. subst x y.
    apply plus_class in Ha, Hb, Hc.
    exists a, b, c. auto.
  - intros (a & b & c & -> & Ha & Hb & Hc).
    apply plus_class in Ha, Hb, Hc.
    constructor; [exact Ha|].
    change ("@" ++ b ++ "." ++ c)%string with ("@" ++ (b ++ "." ++ c))%string.
    constructor; [now apply class_char|].
    constructor; [exact Hb|].
    constructor; [now apply class_char|exact Hc].
Qed.

Lemma occurrences_app c a b :
  occurrences c (a ++ b) = (occurrences c a + occurrences c b)%nat.
Proof. induction a as [|x a IH]; cbn; [reflexivity|]. rewrite IH. lia. Qed.

Lemma address_part_no_at s : address_part s -> occurrences "@" s = 0%nat.
Proof.
  intros [_ H]. induction s as [|x s IH]; [reflexivity|].
  cbn in H. apply andb_prop in H. destruct H as [Hx Hs].
  cbn. rewrite (IH Hs).
  unfold Email.no_space_no_at in Hx. apply negb_true_iff in Hx.
  apply orb_false_iff in Hx. destruct Hx as [_ Hx]. now rewrite Hx.
Qed.

(** X29.  [isValidEmail] accepts exactly the ASCII texts made of a local
    part, an [@], a domain, a dot and an ending, the three of them not
    empty and free of white space and [@] (the domain and the ending may
    hold further dots); an accepted address holds exactly one [@]. *)
Theorem isValidEmail_accepts email :
  (Email.isValidEmail email = Some true <->
   Email.is_ascii email = true /\
   exists a b c,
     email = (a ++ "@" ++ b ++ "." ++ c)%string /\
     address_part a /\ address_part b /\ address_part c) /\
  (Email.isValidEmail email = Some true -> occurrences "@" email = 1%nat).
Proof.
  assert (I : Email.isValidEmail email = Some true <->
              Email.is_ascii email = true /\
              exists a b c,
                email = (a ++ "@" ++ b ++ "." ++ c)%string /\
                address_part a /\ address_part b /\ address_part c).
  { unfold Email.isValidEmail. rewrite <- emailRegex_language, <- test_spec.
    destruct (Email.is_ascii email); split.
    - intros [= H]. auto.
    - intros [_ H]. now rewrite H.
    - discriminate.
    - intros [H _]. discriminate. }
  split; [exact I|].
  intros H. apply I in H. destruct H as (_ & a & b & c & -> & Ha & Hb & Hc).
  rewrite !occurrences_app.
  rewrite (address_part_no_at a Ha), (address_part_no_at b Hb),
    (address_part_no_at c Hc).
  reflexivity.
Qed.

(* ================================================================== *)
(** ** Sanitising and trimming *)












